(** * AttendEase backend: the attendance punch lifecycle

    A shallow embedding of the attendance route module
    (punch legality check, identity resolver, attendance record store,
    punch processor, face verification, group capture) together with the
    properties its specification states about it.

    Conventions of the embedding.
    - JavaScript [null]/[undefined] are [None]; truthiness is written out
      ([truthy_str], [truthy_id]).
    - The relational store is a record of tables, each a list of rows in
      storage order; a query is a list comprehension over them.
    - [async] functions become computations in a state-and-exception
      monad [M] over the [world] (database, clock, log of calls to the
      external services, collection-ready flag).
    - Similarity scores, thresholds and bounding boxes are rationals:
      the rounding of IEEE doubles is not represented.
    - Strings are byte strings; case mapping and trimming are the ASCII
      ones. *)

From Stdlib Require Import ZArith QArith Qround String Ascii List Bool Lia DecimalString.
From stdpp Require Import base option list gmap.
Import ListNotations.

Local Open Scope string_scope.
Local Open Scope Z_scope.

(** ** JavaScript values used by the module *)

Module Js.

(** [!!s] for a nullable string. *)
Definition truthy_str (o : option string) : bool :=
  match o with
  | Some s => negb (String.eqb s "")
  | None => false
  end.

(** [!!n] for a nullable integer identifier. *)
Definition truthy_id (o : option Z) : bool :=
  match o with
  | Some n => negb (n =? 0)
  | None => false
  end.

(** [!!o] for a nullable object (a [Date], a row). *)
Definition truthy_obj {A : Type} (o : option A) : bool :=
  match o with
  | Some _ => true
  | None => false
  end.

(** [a ?? b]. *)
Definition nullish {A : Type} (a : option A) (b : option A) : option A :=
  match a with
  | Some _ => a
  | None => b
  end.

Definition is_space (c : ascii) : bool :=
  let n := nat_of_ascii c in
  ((9 <=? n) && (n <=? 13) || (n =? 32))%nat.

Definition upper_char (c : ascii) : ascii :=
  let n := nat_of_ascii c in
  if ((97 <=? n) && (n <=? 122))%nat then ascii_of_nat (n - 32) else c.

Definition lower_char (c : ascii) : ascii :=
  let n := nat_of_ascii c in
  if ((65 <=? n) && (n <=? 90))%nat then ascii_of_nat (n + 32) else c.

Definition is_lower_letter (c : ascii) : bool :=
  let n := nat_of_ascii c in
  ((97 <=? n) && (n <=? 122))%nat.

Fixpoint map_chars (f : ascii -> ascii) (s : string) : string :=
  match s with
  | EmptyString => EmptyString
  | String c r => String (f c) (map_chars f r)
  end.

Fixpoint filter_chars (f : ascii -> bool) (s : string) : string :=
  match s with
  | EmptyString => EmptyString
  | String c r => if f c then String c (filter_chars f r) else filter_chars f r
  end.

(** [s.toUpperCase()] and [s.toLowerCase()] on ASCII text, where they map
    the letters a-z and A-Z and nothing else.  Outside ASCII JavaScript maps
    further characters, some of them to ASCII letters; statements that rest
    on the case of letters are made for ASCII text. *)
Definition toUpperCase : string -> string := map_chars upper_char.
Definition toLowerCase : string -> string := map_chars lower_char.

Fixpoint trim_start (s : string) : string :=
  match s with
  | String c r => if is_space c then trim_start r else s
  | EmptyString => EmptyString
  end.

(** Drops trailing white space: a character is kept when anything kept
    follows it or it is not white space itself. *)
Fixpoint trim_end (s : string) : string :=
  match s with
  | EmptyString => EmptyString
  | String c r =>
      match trim_end r with
      | EmptyString => if is_space c then EmptyString else String c EmptyString
      | r' => String c r'
      end
  end.

(** [s.trim()] on ASCII text, whose white space is tab, line feed, vertical
    tab, form feed, carriage return and space. *)
Definition trim (s : string) : string := trim_end (trim_start s).

(** [s.startsWith(p)]. *)
Fixpoint starts_with (p s : string) : bool :=
  match p, s with
  | EmptyString, _ => true
  | String a p', String b s' => Ascii.eqb a b && starts_with p' s'
  | String _ _, EmptyString => false
  end.

(** [s.includes(p)]. *)
Fixpoint includes (p s : string) : bool :=
  starts_with p s ||
  match s with
  | EmptyString => false
  | String _ s' => includes p s'
  end.

(** [s.replace(/^\/+/u, "")]. *)
Fixpoint strip_leading_slashes (s : string) : string :=
  match s with
  | String c r => if Ascii.eqb c "/"%char then strip_leading_slashes r else s
  | EmptyString => EmptyString
  end.

(** Decimal rendering of an integer inside a template literal. *)
Definition show_int (n : Z) : string :=
  DecimalString.NilZero.string_of_int (Z.to_int n).

(** [Math.round] on a rational: the nearest integer, ties upward. *)
Definition round (q : Q) : Z := Qfloor (q + (1 # 2)).

End Js.

(** ** Timestamps and their textual form *)

(** A stored [timestamp]: a day number and the time of day. *)
Record timestamp := mkTimestamp {
  ts_day : Z;
  ts_hour : Z;
  ts_minute : Z;
  ts_second : Z
}.

Definition two_digits (n : Z) : string :=
  if n <? 10 then "0" ++ Js.show_int n else Js.show_int n.

(** [TO_CHAR(t, 'HH12:MI AM')]: hour of the 12-hour clock, minute, and the
    meridiem indicator. *)
Definition to_char_hh12 (t : timestamp) : string :=
  let h := ts_hour t mod 12 in
  let h12 := if h =? 0 then 12 else h in
  two_digits h12 ++ ":" ++ two_digits (ts_minute t) ++ " "
  ++ (if ts_hour t <? 12 then "AM" else "PM").

(** ** The punch legality check *)

Definition PUNCH_TYPES_IN : string := "IN".
Definition PUNCH_TYPES_OUT : string := "OUT".

(** The attendance object handed around by the routes: the row shape that
    [getOrCreateAttendanceRecord] returns. *)
Record attendance_view := mkView {
  v_attendance_id : Z;
  v_date : string;
  v_punch_in_time : option string;
  v_punch_out_time : option string;
  v_duration : option Z;
  v_punch_in_image : option string;
  v_punch_out_image : option string;
  v_latitude_in : option string;
  v_longitude_in : option string;
  v_in_address : option string;
  v_latitude_out : option string;
  v_longitude_out : option string;
  v_out_address : option string;
  v_emp_id : Z;
  v_emp_code : option string;
  v_employee_name : option string;
  v_designation_name : option string;
  v_ward_id : option Z;
  v_ward_name : option string
}.

(** What [validatePunchAttempt] returns when it objects. *)
Record validation_error := mkValidation {
  val_status : Z;
  val_error : string
}.

Definition RecordNotFound : validation_error :=
  mkValidation 404 "Attendance record not found".
Definition AlreadyPunchedIn : validation_error :=
  mkValidation 400 "Already punched in today".
Definition AlreadyPunchedOut : validation_error :=
  mkValidation 400 "Already punched out today".
Definition PunchInRequired : validation_error :=
  mkValidation 400 "Must punch in first".

Definition validatePunchAttempt (attendance : option attendance_view)
    (punchType : string) : option validation_error :=
  match attendance with
  | None => Some RecordNotFound
  | Some a =>
      if String.eqb punchType PUNCH_TYPES_IN && Js.truthy_str (v_punch_in_time a)
      then Some AlreadyPunchedIn
      else if String.eqb punchType PUNCH_TYPES_OUT && Js.truthy_str (v_punch_out_time a)
      then Some AlreadyPunchedOut
      else if String.eqb punchType PUNCH_TYPES_OUT
              && negb (Js.truthy_str (v_punch_in_time a))
      then Some PunchInRequired
      else None
  end.

(** ** The relational store *)

Record employee_row := mkEmployee {
  e_emp_id : Z;
  e_name : option string;
  e_emp_code : option string;
  e_face_id : option string;
  e_face_embedding : option string;
  e_ward_id : option Z;
  e_designation_id : option Z
}.

Record designation_row := mkDesignation {
  dg_designation_id : Z;
  dg_designation_name : string
}.

Record ward_row := mkWard {
  wd_ward_id : Z;
  wd_ward_name : string
}.

(** A row of [attendance], with the columns the module reads or writes.
    [a_duration] is whatever the store holds for the derived duration; no
    statement of this module assigns it. *)
Record attendance_row := mkAttendance {
  a_attendance_id : Z;
  a_emp_id : option Z;
  a_date : string;
  a_ward_id : option Z;
  a_punch_in_time : option timestamp;
  a_punch_out_time : option timestamp;
  a_duration : option Z;
  a_punch_in_image : option string;
  a_punch_out_image : option string;
  a_latitude_in : option string;
  a_longitude_in : option string;
  a_in_address : option string;
  a_latitude_out : option string;
  a_longitude_out : option string;
  a_out_address : option string;
  a_punched_in_by : option Z;
  a_punched_out_by : option Z
}.

(** The tables, each in storage order, and the next value of the
    [attendance_id] sequence. *)
Record db := mkDb {
  employee : list employee_row;
  designation : list designation_row;
  wards : list ward_row;
  users : list Z;
  attendance : list attendance_row;
  attendance_id_seq : Z
}.

(** ** Errors, outcomes and the world *)

(** [err.details]: free text, or the text of the template literal
    [`Similarity ${similarity.toFixed(2)}% below threshold ${threshold}%`],
    kept as the two numbers it renders. *)
Inductive error_details :=
| DetailsText (text : string)
| DetailsSimilarityBelow (similarity threshold : Q).

(** A thrown [Error] object: [name], [message], and the optional
    [statusCode], [details] and [$metadata.httpStatusCode] properties. *)
Record js_error := mkError {
  err_name : string;
  err_message : string;
  err_statusCode : option Z;
  err_details : option error_details;
  err_httpStatusCode : option Z
}.

(** [new Error(message)]. *)
Definition new_Error (message : string) : js_error :=
  mkError "Error" message None None None.

Inductive outcome (A : Type) :=
| Return (a : A)
| Throw (e : js_error).
Arguments Return {A} a.
Arguments Throw {A} e.

(** Calls that leave the process. *)
Inductive ext_call :=
| CallCreateCollection (collectionId : string)
| CallDetectFaces
| CallSearchFacesByImage (maxFaces : Z) (threshold : Q)
| CallCompareFaces (sourceKey targetKey : string) (threshold : Q)
| CallUpload (name : string)
| CallSharpMetadata
| CallSharpExtract.

Record world := mkWorld {
  w_db : db;
  w_now : timestamp;
  w_calls : list ext_call;
  w_faceCollectionReady : bool
}.

Definition set_db (d : db) (w : world) : world :=
  mkWorld d (w_now w) (w_calls w) (w_faceCollectionReady w).

Definition log_call (c : ext_call) (w : world) : world :=
  mkWorld (w_db w) (w_now w) (w_calls w ++ [c]) (w_faceCollectionReady w).

Definition set_ready (w : world) : world :=
  mkWorld (w_db w) (w_now w) (w_calls w) true.

(** An [async] function body: it runs in a world and either returns or
    throws, leaving a world behind. *)
Definition M (A : Type) : Type := world -> outcome A * world.

Definition ret {A : Type} (a : A) : M A := fun w => (Return a, w).

Definition throw {A : Type} (e : js_error) : M A := fun w => (Throw e, w).

Definition bind {A B : Type} (c : M A) (k : A -> M B) : M B :=
  fun w =>
    match c w with
    | (Return a, w') => k a w'
    | (Throw e, w') => (Throw e, w')
    end.

(** [try { c } catch (e) { h(e) }]. *)
Definition try_catch {A : Type} (c : M A) (h : js_error -> M A) : M A :=
  fun w =>
    match c w with
    | (Return a, w') => (Return a, w')
    | (Throw e, w') => h e w'
    end.

Definition get_db : M db := fun w => (Return (w_db w), w).

Definition put_db (d : db) : M unit := fun w => (Return tt, set_db d w).

(** An awaited call to an external service: logged, then its outcome. *)
Definition call {A : Type} (c : ext_call) (r : outcome A) : M A :=
  fun w => (r, log_call c w).

Notation "'let!' x ':=' c 'in' k" := (bind c (fun x => k))
  (at level 10, x name, c at level 200, k at level 200,
   format "'[v' 'let!'  x  ':='  c  'in' '/' k ']'").

(** ** External collaborators and configuration *)

Record upload_result := mkUpload {
  upload_url : option string;
  upload_key : option string
}.

Record compare_match := mkCompareMatch {
  cm_Similarity : option Q
}.

Record face := mkFace {
  FaceId : option string;
  ExternalImageId : option string
}.

Record search_match := mkSearchMatch {
  sm_Face : option face;
  sm_Similarity : option Q
}.

Record bounding_box := mkBox {
  bb_Width : Q;
  bb_Height : Q;
  bb_Left : Q;
  bb_Top : Q
}.

Record face_detail := mkFaceDetail {
  fd_BoundingBox : option bounding_box
}.

Record crop_region := mkRegion {
  cr_left : Z;
  cr_top : Z;
  cr_width : Z;
  cr_height : Z
}.

(** Everything the module takes from outside its own file: environment
    variables, the constraints of the schema, built-ins of the language
    whose parsing is not spelled out here, the object store, the
    recognition service, the image library, and which of the guarded
    queries fail.  [image] is the type of image buffers.

    - [fk_attendance_employee]: [attendance.emp_id] must name a row of
      [employee]; [unique_employee_date]: one row per employee and date.
    - [js_Number s] is [Number(s)] when that is finite; [pg_integer s] is
      the integer the database reads from the text parameter [s], [None]
      when it rejects it; [formatDate] is the local calendar date of an
      instant, as the ISO text the routes pass on.
    - [url_pathname s] is [new URL(s).pathname], [None] when the
      constructor throws; [decodeURIComponent] is [None] when it throws.
    - a response whose [FaceMatches] or [FaceDetails] is missing is the
      empty list. *)
Record environment (image : Type) := mkEnv {
  AWS_S3_BUCKET : option string;
  DEFAULT_FACE_MATCH_THRESHOLD : Q;
  REKOGNITION_COLLECTION : option string;
  REKOGNITION_COLLECTION_ID : option string;
  fk_attendance_employee : bool;
  unique_employee_date : bool;
  js_Number : string -> option Q;
  pg_integer : string -> option Z;
  formatDate : timestamp -> string;
  url_pathname : string -> option string;
  decodeURIComponent : string -> option string;
  uploadAttendanceImage : image -> string -> outcome (option upload_result);
  createCollection : string -> outcome unit;
  detectFaces : image -> outcome (list face_detail);
  searchFacesByImage : string -> image -> Z -> Q -> outcome (list search_match);
  compareFaces : string -> string -> string -> Q -> outcome (list compare_match);
  sharp_metadata : image -> outcome (option Z * option Z);
  sharp_extract_resize : image -> crop_region -> outcome image;
  face_id_update_throws : string -> Z -> bool;
  users_select_throws : Q -> bool;
  attendance_emp_select_throws : Z -> bool
}.

Arguments AWS_S3_BUCKET {image} _.
Arguments DEFAULT_FACE_MATCH_THRESHOLD {image} _.
Arguments REKOGNITION_COLLECTION {image} _.
Arguments REKOGNITION_COLLECTION_ID {image} _.
Arguments fk_attendance_employee {image} _.
Arguments unique_employee_date {image} _.
Arguments js_Number {image} _ _.
Arguments pg_integer {image} _ _.
Arguments formatDate {image} _ _.
Arguments url_pathname {image} _ _.
Arguments decodeURIComponent {image} _ _.
Arguments uploadAttendanceImage {image} _ _ _.
Arguments createCollection {image} _ _.
Arguments detectFaces {image} _ _.
Arguments searchFacesByImage {image} _ _ _ _ _.
Arguments compareFaces {image} _ _ _ _ _.
Arguments sharp_metadata {image} _ _.
Arguments sharp_extract_resize {image} _ _ _.
Arguments face_id_update_throws {image} _ _ _.
Arguments users_select_throws {image} _ _.
Arguments attendance_emp_select_throws {image} _ _.

(** A field of a request body: a boolean or a string. *)
Inductive body_value :=
| BBool (b : bool)
| BStr (s : string).

Definition GROUP_MODE_KEYWORDS : list string :=
  ["group"; "groups"; "groupattendance"; "groupmode"; "bulk"; "multi";
   "multiple"; "multiface"; "multifaces"; "multifacemode"].

Definition isGroupModeRequest (rawValues : list (option body_value)) : bool :=
  existsb (fun value =>
    match value with
    | None => false
    | Some (BBool b) => b
    | Some (BStr s) =>
        let normalized := Js.toLowerCase (Js.trim s) in
        if String.eqb normalized "" then false
        else if String.eqb normalized "1" || String.eqb normalized "true"
                || String.eqb normalized "yes" then true
        else
          let condensed := Js.filter_chars Js.is_lower_letter normalized in
          existsb (String.eqb condensed) GROUP_MODE_KEYWORDS
    end) rawValues.

(** [computeCropRegion] with the default [paddingRatio = 0.25], called with
    numeric image dimensions. *)
Definition computeCropRegion (boundingBox : option bounding_box)
    (imageWidth imageHeight : Z) : option crop_region :=
  match boundingBox with
  | None => None
  | Some bb =>
      if (imageWidth <=? 0) || (imageHeight <=? 0) then None
      else
        let paddingRatio := (1 # 4)%Q in
        let baseWidth := Z.max (Js.round (bb_Width bb * inject_Z imageWidth)) 1 in
        let baseHeight := Z.max (Js.round (bb_Height bb * inject_Z imageHeight)) 1 in
        let padX := Js.round (inject_Z baseWidth * paddingRatio) in
        let padY := Js.round (inject_Z baseHeight * paddingRatio) in
        let left := Z.max (Js.round (bb_Left bb * inject_Z imageWidth) - padX) 0 in
        let top := Z.max (Js.round (bb_Top bb * inject_Z imageHeight) - padY) 0 in
        let width := Z.min (imageWidth - left) (baseWidth + padX * 2) in
        let height := Z.min (imageHeight - top) (baseHeight + padY * 2) in
        if (width <=? 0) || (height <=? 0) then None
        else Some (mkRegion left top width height)
  end.

(** ** Queries *)

(** SQL [column = value] on a nullable column: never true on [NULL]. *)
Definition sql_eq_Z (column : option Z) (value : Z) : bool :=
  match column with
  | Some c => c =? value
  | None => false
  end.

Definition sql_eq_str (column : option string) (value : string) : bool :=
  match column with
  | Some c => String.eqb c value
  | None => false
  end.

(** A row of [SELECT emp_id, name FROM employee]. *)
Record employee_ref := mkRef {
  ref_emp_id : Z;
  ref_name : option string
}.

Definition to_ref (e : employee_row) : employee_ref :=
  mkRef (e_emp_id e) (e_name e).

(** [SELECT emp_id, name FROM employee WHERE face_id = $1]. *)
Definition select_employee_by_face_id (d : db) (faceId : string) : list employee_ref :=
  map to_ref (List.filter (fun e => sql_eq_str (e_face_id e) faceId) (employee d)).

(** An integer key column against a numeric parameter: they are equal when
    the parameter is that integer. *)
Definition key_eq (column : Z) (value : Q) : bool :=
  Qeq_bool (inject_Z column) value.

(** A numeric parameter set against an [integer] column: the driver sends
    the number as text and the database reads it as an integer of the
    column's range; [None] when it cannot, and the statement fails. *)
Definition pg_int4 (value : Q) : option Z :=
  let n := Qfloor value in
  if Qeq_bool (inject_Z n) value && (-2147483648 <=? n) && (n <=? 2147483647)
  then Some n else None.

(** [SELECT emp_id, name FROM employee WHERE emp_id = $1]. *)
Definition select_employee_by_emp_id (d : db) (empId : Q) : list employee_ref :=
  map to_ref (List.filter (fun e => key_eq (e_emp_id e) empId) (employee d)).

Definition set_face_id (faceId : string) (e : employee_row) : employee_row :=
  mkEmployee (e_emp_id e) (e_name e) (e_emp_code e) (Some faceId)
    (e_face_embedding e) (e_ward_id e) (e_designation_id e).

(** [UPDATE employee SET face_id = $1
     WHERE emp_id = $2 AND (face_id IS NULL OR face_id <> $1)]. *)
Definition update_employee_face_id (faceId : string) (empId : Z) (d : db) : db :=
  mkDb
    (map (fun e =>
            if (e_emp_id e =? empId) && negb (sql_eq_str (e_face_id e) faceId)
            then set_face_id faceId e else e)
         (employee d))
    (designation d) (wards d) (users d) (attendance d) (attendance_id_seq d).

(** The row of the read query of [getOrCreateAttendanceRecord] built from
    one attendance row and its employee, designation and ward. *)
Definition view_of (a : attendance_row) (e : employee_row)
    (dg : designation_row) (w : ward_row) : attendance_view :=
  {| v_attendance_id := a_attendance_id a;
     v_date := a_date a;
     v_punch_in_time := option_map to_char_hh12 (a_punch_in_time a);
     v_punch_out_time := option_map to_char_hh12 (a_punch_out_time a);
     v_duration := a_duration a;
     v_punch_in_image := a_punch_in_image a;
     v_punch_out_image := a_punch_out_image a;
     v_latitude_in := a_latitude_in a;
     v_longitude_in := a_longitude_in a;
     v_in_address := a_in_address a;
     v_latitude_out := a_latitude_out a;
     v_longitude_out := a_longitude_out a;
     v_out_address := a_out_address a;
     v_emp_id := e_emp_id e;
     v_emp_code := e_emp_code e;
     v_employee_name := e_name e;
     v_designation_name := Some (dg_designation_name dg);
     v_ward_id := Some (wd_ward_id w);
     v_ward_name := Some (wd_ward_name w) |}.

(** The employee, designation and ward rows that the inner joins
    [JOIN designation d ON e.designation_id = d.designation_id
     JOIN wards w ON e.ward_id = w.ward_id] attach to employee [empId]. *)
Definition employee_joined (d : db) (empId : Z)
    : list (employee_row * designation_row * ward_row) :=
  flat_map (fun e =>
    if e_emp_id e =? empId then
      flat_map (fun dg =>
        if sql_eq_Z (e_designation_id e) (dg_designation_id dg) then
          flat_map (fun w =>
            if sql_eq_Z (e_ward_id e) (wd_ward_id w) then [(e, dg, w)] else [])
            (wards d)
        else [])
        (designation d)
    else [])
    (employee d).

(** The read query of [getOrCreateAttendanceRecord]:
    [attendance a JOIN employee e ON a.emp_id = e.emp_id JOIN designation
     JOIN wards WHERE a.emp_id = $1 AND a.date = $2].  Under the [WHERE]
    clause the employee joined to a row is the one with [emp_id = $1]. *)
Definition select_attendance_joined (d : db) (emp_id : Z) (date : string)
    : list attendance_view :=
  flat_map (fun a =>
    if sql_eq_Z (a_emp_id a) emp_id && String.eqb (a_date a) date then
      map (fun '(e, dg, w) => view_of a e dg w) (employee_joined d emp_id)
    else [])
    (attendance d).

(** [SELECT ward_id from employee e where e.emp_id = $1]. *)
Definition select_ward_of_employee (d : db) (emp_id : Z) : list (option Z) :=
  map e_ward_id (List.filter (fun e => e_emp_id e =? emp_id) (employee d)).

(** A fresh row as [INSERT INTO attendance (emp_id, date, ward_id)] leaves
    it: every other column [NULL]. *)
Definition new_attendance_row (id emp_id : Z) (date : string)
    (ward_id : option Z) : attendance_row :=
  mkAttendance id (Some emp_id) date ward_id None None None None None
    None None None None None None None None.

(** An error raised by the database driver. *)
Definition pg_error (message : string) : js_error :=
  mkError "error" message None None None.

Definition fk_violation : js_error :=
  pg_error "insert or update on table attendance violates foreign key constraint".

Definition unique_violation : js_error :=
  pg_error "duplicate key value violates unique constraint".

(** ** The module's functions *)

Section Backend.

Context {image : Type}.
Variable env : environment image.

(** [normalizeId] on a value that is absent or a string. *)
Definition normalizeId (value : option string) : option Q :=
  match value with
  | None => None
  | Some s => js_Number env s
  end.

Definition resolveCollectionId : option string :=
  let first := Js.trim (default "" (REKOGNITION_COLLECTION env)) in
  let id :=
    if String.eqb first ""
    then Js.trim (default "" (REKOGNITION_COLLECTION_ID env))
    else first in
  if String.eqb id "" then None else Some id.

Definition ensureCollectionExists (collectionId : string) : M unit :=
  fun w =>
    if w_faceCollectionReady w then (Return tt, w)
    else
      (let! _ :=
         try_catch
           (call (CallCreateCollection collectionId)
                 (createCollection env collectionId))
           (fun error =>
              if String.eqb (err_name error) "ResourceAlreadyExistsException"
              then ret tt else throw error) in
       fun w' => (Return tt, set_ready w')) w.

(** *** Identity resolver *)

(** The closure [tryResolveByEmpId].  Its query is outside any [try]: an
    identity that the database cannot read as an integer of the column
    makes the query, and with it the resolver, fail. *)
Definition tryResolveByEmpId (empId : option Q) : M (option employee_ref) :=
  match empId with
  | None => ret None
  | Some i =>
      let! d := get_db in
      match pg_int4 i with
      | None => throw (pg_error "invalid input syntax for type integer")
      | Some _ => ret (head (select_employee_by_emp_id d i))
      end
  end.

(** The guarded [UPDATE employee SET face_id ...] query. *)
Definition query_update_face_id (faceId : string) (empId : Z) : M unit :=
  fun w =>
    if face_id_update_throws env faceId empId
    then (Throw (pg_error "update of employee.face_id failed"), w)
    else (Return tt, set_db (update_employee_face_id faceId empId (w_db w)) w).

Definition resolveEmployeeFromFaceIdentifiers (faceId : option string)
    (matchedExternalId requestedEmpId : option Q) : M (option employee_ref) :=
  let! d := get_db in
  let byFaceId :=
    if Js.truthy_str faceId
    then select_employee_by_face_id d (default "" faceId) else [] in
  match byFaceId with
  | row :: _ => ret (Some row)
  | [] =>
      let! employeeRecord := tryResolveByEmpId matchedExternalId in
      let! employeeRecord :=
        match employeeRecord with
        | Some r => ret (Some r)
        | None => tryResolveByEmpId requestedEmpId
        end in
      match employeeRecord with
      | Some r =>
          if Js.truthy_str faceId then
            let! _ :=
              try_catch (query_update_face_id (default "" faceId) (ref_emp_id r))
                        (fun _ => ret tt) in
            ret employeeRecord
          else ret employeeRecord
      | None => ret employeeRecord
      end
  end.

(** *** Attendance record store *)

(** The guarded insert: the constraints of the schema are checked, the
    sequence gives the identity. *)
Definition insert_attendance (emp_id : Z) (date : string) (ward_id : option Z)
    : M attendance_row :=
  fun w =>
    let d := w_db w in
    if fk_attendance_employee env
       && negb (existsb (fun e => e_emp_id e =? emp_id) (employee d))
    then (Throw fk_violation, w)
    else if unique_employee_date env
            && existsb (fun a => sql_eq_Z (a_emp_id a) emp_id
                                 && String.eqb (a_date a) date) (attendance d)
    then (Throw unique_violation, w)
    else
      let row := new_attendance_row (attendance_id_seq d) emp_id date ward_id in
      (Return row,
       set_db (mkDb (employee d) (designation d) (wards d) (users d)
                    (attendance d ++ [row]) (attendance_id_seq d + 1)) w).

Definition getOrCreateAttendanceRecord (emp_id : option Z) (date : string)
    : M attendance_view :=
  if negb (Js.truthy_id emp_id) then throw (new_Error "Employee ID is required")
  else
    let emp_id := default 0 emp_id in
    let! d := get_db in
    match select_attendance_joined d emp_id date with
    | row :: _ => ret row
    | [] =>
        let ward_id :=
          match select_ward_of_employee d emp_id with
          | w :: _ => w
          | [] => None
          end in
        let! inserted := insert_attendance emp_id date ward_id in
        let attendance :=
          {| v_attendance_id := a_attendance_id inserted;
             v_date := date;
             v_punch_in_time := None;
             v_punch_out_time := None;
             v_duration := None;
             v_punch_in_image := None;
             v_punch_out_image := None;
             v_latitude_in := None;
             v_longitude_in := None;
             v_in_address := None;
             v_latitude_out := None;
             v_longitude_out := None;
             v_out_address := None;
             v_emp_id := emp_id;
             v_emp_code := None;
             v_employee_name := None;
             v_designation_name := None;
             v_ward_id := a_ward_id inserted;
             v_ward_name := None |} in
        let! d' := get_db in
        match employee_joined d' emp_id with
        | (e, dg, w) :: _ =>
            ret {| v_attendance_id := v_attendance_id attendance;
                   v_date := v_date attendance;
                   v_punch_in_time := None;
                   v_punch_out_time := None;
                   v_duration := None;
                   v_punch_in_image := None;
                   v_punch_out_image := None;
                   v_latitude_in := None;
                   v_longitude_in := None;
                   v_in_address := None;
                   v_latitude_out := None;
                   v_longitude_out := None;
                   v_out_address := None;
                   v_emp_id := emp_id;
                   v_emp_code := e_emp_code e;
                   v_employee_name := e_name e;
                   v_designation_name := Some (dg_designation_name dg);
                   v_ward_id := v_ward_id attendance;
                   v_ward_name := Some (wd_ward_name w) |}
        | [] => ret attendance
        end
    end.

(** *** Punch processor and face verification *)

Record location_data := mkLocation {
  loc_latitude : string;
  loc_longitude : string;
  loc_address : string
}.

Record punch_options := mkOptions {
  opt_employeeId : option Z;
  opt_requireFaceMatch : bool;
  opt_faceMatchThreshold : option Q
}.

Record face_match_meta := mkMeta {
  meta_similarity : Q;
  meta_threshold : Q
}.

(** The row that [UPDATE ... RETURNING *] gives back, with the two
    properties [processPunch] may attach to it. *)
Record punch_record := mkPunchRecord {
  pr_row : attendance_row;
  pr_face_similarity : option Q;
  pr_face_match_threshold : option Q
}.

(** The actor is returned as the key of the user row it equals. *)
Definition resolvePunchActor (rawUserId : option string) : M (option Z) :=
  match normalizeId rawUserId with
  | None => ret None
  | Some normalized =>
      let! d := get_db in
      if users_select_throws env normalized then ret None
      else
        match List.filter (fun u => key_eq u normalized) (users d) with
        | user_id :: _ => ret (Some user_id)
        | [] => ret None
        end
  end.

Definition resolveS3ObjectKey (reference : option string) : option string :=
  if negb (Js.truthy_str reference) then None
  else
    let reference := default "" reference in
    if Js.includes "://" reference then
      match url_pathname env reference with
      | Some pathname => decodeURIComponent env (Js.strip_leading_slashes pathname)
      | None => None
      end
    else Some (Js.strip_leading_slashes reference).

(** [SELECT emp_id FROM attendance WHERE attendance_id = $1]. *)
Definition select_attendance_emp (d : db) (attendanceId : Z) : list (option Z) :=
  map a_emp_id (List.filter (fun a => a_attendance_id a =? attendanceId) (attendance d)).

Definition resolveAttendanceEmployeeId (attendanceId : Z) : M (option Z) :=
  if attendanceId =? 0 then ret None
  else
    let! d := get_db in
    if attendance_emp_select_throws env attendanceId then ret None
    else
      match select_attendance_emp d attendanceId with
      | emp :: _ => ret emp
      | [] => ret None
      end.

Definition error_with_status (message : string) (status : Z)
    (details : option error_details) : js_error :=
  mkError "Error" message (Some status) details None.

(** [error.$metadata?.httpStatusCode || 500]. *)
Definition status_or_500 (httpStatusCode : option Z) : Z :=
  match httpStatusCode with
  | Some c => if c =? 0 then 500 else c
  | None => 500
  end.

(** [SELECT face_embedding FROM employee WHERE emp_id = $1]. *)
Definition select_face_embedding (d : db) (employeeId : Z) : list (option string) :=
  map e_face_embedding (List.filter (fun e => e_emp_id e =? employeeId) (employee d)).

(** [similarity < threshold]. *)
Definition below (similarity threshold : Q) : bool :=
  negb (Qle_bool threshold similarity).

Definition ensureFaceMatch (employeeId : option Z) (attendanceKey : string)
    (threshold : Q) : M (option face_match_meta) :=
  if negb (Js.truthy_str (AWS_S3_BUCKET env)) then ret None
  else if negb (Js.truthy_id employeeId) then
    throw (error_with_status
             "Unable to determine employee for attendance record" 400 None)
  else
    let! d := get_db in
    match select_face_embedding d (default 0 employeeId) with
    | [] =>
        throw (error_with_status "Employee not found for face verification" 404 None)
    | faceEmbedding :: _ =>
        if negb (Js.truthy_str faceEmbedding) then
          throw (error_with_status "Employee face enrollment is missing" 412
                   (Some (DetailsText
                      "Ask the employee to store their face before marking attendance.")))
        else
          match resolveS3ObjectKey faceEmbedding with
          | Some faceKey =>
              if String.eqb faceKey "" then
                throw (error_with_status "Unable to resolve stored face image" 500 None)
              else
                let! matches :=
                  try_catch
                    (call (CallCompareFaces faceKey attendanceKey threshold)
                          (compareFaces env (default "" (AWS_S3_BUCKET env))
                             faceKey attendanceKey threshold))
                    (fun error =>
                       throw (mkError (err_name error) (err_message error)
                                (Some (status_or_500 (err_httpStatusCode error)))
                                (err_details error) (err_httpStatusCode error))) in
                match matches with
                | [] =>
                    throw (error_with_status
                             "Captured face does not match enrolled face" 401
                             (Some (DetailsSimilarityBelow 0 threshold)))
                | bestMatch :: _ =>
                    let similarity := default 0%Q (cm_Similarity bestMatch) in
                    if below similarity threshold then
                      throw (error_with_status
                               "Captured face does not match enrolled face" 401
                               (Some (DetailsSimilarityBelow similarity threshold)))
                    else ret (Some (mkMeta similarity threshold))
                end
          | None =>
              throw (error_with_status "Unable to resolve stored face image" 500 None)
          end
    end.

(** The assignments of the [UPDATE attendance SET ...] statement: the
    columns of the punch-in when [isPunchIn], else those of the
    punch-out. *)
Definition set_punch (isPunchIn : bool) (now : timestamp)
    (locationData : location_data) (imageUrl : option string)
    (actor : option Z) (a : attendance_row) : attendance_row :=
  if isPunchIn then
    {| a_attendance_id := a_attendance_id a;
       a_emp_id := a_emp_id a;
       a_date := a_date a;
       a_ward_id := a_ward_id a;
       a_punch_in_time := Some now;
       a_punch_out_time := a_punch_out_time a;
       a_duration := a_duration a;
       a_punch_in_image := imageUrl;
       a_punch_out_image := a_punch_out_image a;
       a_latitude_in := Some (loc_latitude locationData);
       a_longitude_in := Some (loc_longitude locationData);
       a_in_address := Some (loc_address locationData);
       a_latitude_out := a_latitude_out a;
       a_longitude_out := a_longitude_out a;
       a_out_address := a_out_address a;
       a_punched_in_by := actor;
       a_punched_out_by := a_punched_out_by a |}
  else
    {| a_attendance_id := a_attendance_id a;
       a_emp_id := a_emp_id a;
       a_date := a_date a;
       a_ward_id := a_ward_id a;
       a_punch_in_time := a_punch_in_time a;
       a_punch_out_time := Some now;
       a_duration := a_duration a;
       a_punch_in_image := a_punch_in_image a;
       a_punch_out_image := imageUrl;
       a_latitude_in := a_latitude_in a;
       a_longitude_in := a_longitude_in a;
       a_in_address := a_in_address a;
       a_latitude_out := Some (loc_latitude locationData);
       a_longitude_out := Some (loc_longitude locationData);
       a_out_address := Some (loc_address locationData);
       a_punched_in_by := a_punched_in_by a;
       a_punched_out_by := actor |}.

(** The rows of the table after an update of the rows with the given
    identity.  A place in the list stands for a row of the table, not for
    the place at which a later scan returns it: statements about what is
    read after an update are made for every row that the read can
    return. *)
Definition update_attendance_rows (attendanceId : Z) (f : attendance_row -> attendance_row)
    (rows : list attendance_row) : list attendance_row :=
  map (fun a => if a_attendance_id a =? attendanceId then f a else a) rows.

(** [UPDATE attendance SET ... WHERE attendance_id = $6 RETURNING *]:
    the rows it changed, in storage order. *)
Definition query_update_attendance (attendanceId : Z) (isPunchIn : bool)
    (locationData : location_data) (imageUrl : option string)
    (actor : option Z) : M (list attendance_row) :=
  fun w =>
    let d := w_db w in
    let rows :=
      update_attendance_rows attendanceId
        (set_punch isPunchIn (w_now w) locationData imageUrl actor)
        (attendance d) in
    (Return (List.filter (fun a => a_attendance_id a =? attendanceId) rows),
     set_db (mkDb (employee d) (designation d) (wards d) (users d) rows
                  (attendance_id_seq d)) w).

Definition evidence_name (attendanceId : Z) (punchType : string) : string :=
  "attendance_" ++ Js.show_int attendanceId ++ "_" ++ punchType ++ ".jpg".

Definition processPunch (attendanceId : Z) (punchType : string)
    (imageFile : option image) (userId : option string)
    (locationData : location_data) (options : punch_options) : M punch_record :=
  let explicitEmployeeId := opt_employeeId options in
  let requireFaceMatch := opt_requireFaceMatch options in
  let faceMatchThreshold :=
    default (DEFAULT_FACE_MATCH_THRESHOLD env) (opt_faceMatchThreshold options) in
  let! uploadResult :=
    match imageFile with
    | Some buffer =>
        call (CallUpload (evidence_name attendanceId punchType))
             (uploadAttendanceImage env buffer (evidence_name attendanceId punchType))
    | None => ret None
    end in
  let imageUrl := match uploadResult with Some u => upload_url u | None => None end in
  let attendanceImageKey :=
    match uploadResult with Some u => upload_key u | None => None end in
  let! resolvedEmployeeId :=
    match explicitEmployeeId with
    | Some _ => ret explicitEmployeeId
    | None => resolveAttendanceEmployeeId attendanceId
    end in
  let! faceMatchMeta :=
    if requireFaceMatch && Js.truthy_str (AWS_S3_BUCKET env)
       && Js.truthy_str attendanceImageKey && Js.truthy_id resolvedEmployeeId
    then ensureFaceMatch resolvedEmployeeId (default "" attendanceImageKey)
                         faceMatchThreshold
    else if requireFaceMatch && negb (Js.truthy_str attendanceImageKey)
    then throw (error_with_status
                  "Attendance image could not be uploaded; face verification failed"
                  500 None)
    else ret None in
  let isPunchIn := String.eqb punchType PUNCH_TYPES_IN in
  let! actor := resolvePunchActor userId in
  let! rows :=
    query_update_attendance attendanceId isPunchIn locationData imageUrl actor in
  match rows with
  | [] => throw (new_Error "Attendance update failed")
  | record :: _ =>
      ret (mkPunchRecord record
             (option_map meta_similarity faceMatchMeta)
             (option_map meta_threshold faceMatchMeta))
  end.

(** *** Error classifier and responses *)

Record error_payload := mkPayload {
  p_error : string;
  p_details : option error_details;
  p_suggestion : option string;
  p_solution : option string
}.

Definition mapRekognitionError (error : js_error) : Z * error_payload :=
  let message :=
    if String.eqb (err_message error) "" then "Face recognition failed"
    else err_message error in
  let lower := Js.toLowerCase message in
  if Js.includes "no faces" lower || Js.includes "no face" lower then
    (422, mkPayload "No face detected in the image" (Some (DetailsText message))
            (Some "Ensure the employee's face is centered and well lit, then retry.")
            None)
  else if String.eqb (err_name error) "ResourceNotFoundException" then
    (500, mkPayload "Rekognition collection not found" (Some (DetailsText message))
            None
            (Some "Recreate the collection or verify REKOGNITION_COLLECTION in the backend .env file."))
  else
    (status_or_500 (err_httpStatusCode error),
     mkPayload "Face recognition failed" (Some (DetailsText message)) None None).

Inductive face_status :=
| punched
| duplicate
| skipped
| unmatched
| errored.

(** One entry of [results] of a group capture; a property that an entry
    does not have is [None]. *)
Record face_outcome := mkOutcome {
  fo_faceIndex : Z;
  fo_status : face_status;
  fo_similarity : option Q;
  fo_employeeId : option Z;
  fo_employeeName : option string;
  fo_message : option string;
  fo_attendanceId : option Z;
  fo_punchedAt : option timestamp
}.

Inductive response_body :=
| BodyError (payload : error_payload)
| BodyManual (message : string) (attendance : punch_record)
| BodyGroup (success : bool) (punch_type : string) (total_faces : Z)
    (punched_count : Z) (results : list face_outcome)
| BodySingle (employee : option string) (punch_type : string)
    (face_similarity : option Q) (face_match_threshold : Q)
    (time : option timestamp).

Record response := mkResponse {
  res_status : Z;
  res_body : response_body
}.

Definition error_response (status : Z) (error : string) : response :=
  mkResponse status (BodyError (mkPayload error None None None)).

(** A route handler: its body, and the [catch] that turns whatever the
    body throws into a response. *)
Definition handle (body : M response) (on_error : js_error -> response)
    : world -> response * world :=
  fun w =>
    match body w with
    | (Return r, w') => (r, w')
    | (Throw e, w') => (on_error e, w')
    end.

(** *** [PUT /]: the manual punch *)

Record manual_request := mkManualRequest {
  mr_attendance_id : option string;
  mr_punch_type : option string;
  mr_latitude : option string;
  mr_longitude : option string;
  mr_address : option string;
  mr_userId : option string;
  mr_file : option image
}.

(** [SELECT emp_id, punch_in_time, punch_out_time FROM attendance
     WHERE attendance_id = $1]. *)
Definition select_attendance_by_id (d : db) (attendanceId : Z) : list attendance_row :=
  List.filter (fun a => a_attendance_id a =? attendanceId) (attendance d).

(** The handler.  The record identity arrives as text; the database reads
    the integer from it in the first query, and the handler goes on with
    that integer. *)
Definition route_put (req : manual_request) : world -> response * world :=
  if negb (Js.truthy_str (mr_attendance_id req))
     || negb (Js.truthy_str (mr_punch_type req))
     || negb (Js.truthy_str (mr_latitude req))
     || negb (Js.truthy_str (mr_longitude req))
     || negb (Js.truthy_str (mr_address req))
  then fun w => (error_response 400 "Missing required fields", w)
  else
    let punch_type := default "" (mr_punch_type req) in
    handle
      (let! d := get_db in
       match pg_integer env (default "" (mr_attendance_id req)) with
       | None => throw (pg_error "invalid input syntax for type integer")
       | Some attendance_id =>
           match select_attendance_by_id d attendance_id with
           | [] => ret (error_response 404 "Attendance record not found")
           | row :: _ =>
               if String.eqb punch_type PUNCH_TYPES_IN
                  && Js.truthy_obj (a_punch_in_time row)
               then ret (error_response 400 "Already punched in today")
               else if String.eqb punch_type PUNCH_TYPES_OUT
                       && Js.truthy_obj (a_punch_out_time row)
               then ret (error_response 400 "Already punched out today")
               else if String.eqb punch_type PUNCH_TYPES_OUT
                       && negb (Js.truthy_obj (a_punch_in_time row))
               then ret (error_response 400 "Must punch in first")
               else
                 let! updated :=
                   processPunch attendance_id punch_type (mr_file req)
                     (mr_userId req)
                     (mkLocation (default "" (mr_latitude req))
                                 (default "" (mr_longitude req))
                                 (default "" (mr_address req)))
                     (mkOptions (a_emp_id row) false None) in
                 ret (mkResponse 200
                        (BodyManual ("Punch " ++ punch_type ++ " updated successfully")
                                    updated))
           end
       end)
      (fun error => error_response 500 (err_message error)).

(** *** [POST /face-attendance] *)

Record face_request := mkFaceRequest {
  fr_file : option image;
  fr_punch_type : option string;
  fr_latitude : option string;
  fr_longitude : option string;
  fr_userId : option string;
  fr_address : option string;
  fr_emp_id : option string;
  fr_employeeId : option string;
  fr_groupMode : option body_value;
  fr_group_mode : option body_value;
  fr_mode : option body_value;
  fr_faceMatchThreshold : option string
}.

Definition or_zero (raw : option string) : string :=
  match raw with
  | Some s => if String.eqb s "" then "0" else s
  | None => "0"
  end.

Definition plain_outcome (faceIndex : Z) (status : face_status)
    (similarity : option Q) (message : string) : face_outcome :=
  mkOutcome faceIndex status similarity None None (Some message) None None.

(** The message of an [error] entry:
    [payload?.details || payload?.error || "Face recognition failed"]. *)
Definition classified_message (error : js_error) : string :=
  let payload := snd (mapRekognitionError error) in
  match p_details payload with
  | Some (DetailsText m) =>
      if String.eqb m "" then p_error payload else m
  | _ => p_error payload
  end.

(** One turn of the loop over [faceDetails]: the entry pushed on
    [results] and the set [processedEmployees] afterwards. *)
Definition process_face (buffer : image) (collectionId punchType : string)
    (matchThreshold : Q) (userId : option string)
    (locationPayload : location_data) (today : string)
    (imageWidth imageHeight : Z) (faceIndex : Z) (faceDetail : face_detail)
    (processedEmployees : gset Z) : M (face_outcome * gset Z) :=
  match computeCropRegion (fd_BoundingBox faceDetail) imageWidth imageHeight with
  | None =>
      ret (plain_outcome faceIndex skipped None
             "Unable to crop the detected face region.", processedEmployees)
  | Some cropRegion =>
      let! cropped :=
        try_catch
          (let! b := call CallSharpExtract (sharp_extract_resize env buffer cropRegion) in
           ret (Some b))
          (fun _ => ret None) in
      match cropped with
      | None =>
          ret (mkOutcome faceIndex errored None None None
                 (Some "Unable to process the detected face region.") None None,
               processedEmployees)
      | Some faceImageBuffer =>
          try_catch
            (let! matches :=
               call (CallSearchFacesByImage 3 matchThreshold)
                    (searchFacesByImage env collectionId faceImageBuffer 3
                       matchThreshold) in
             match head matches ≫= (fun m => option_map (pair m) (sm_Face m)) with
             | None =>
                 ret (plain_outcome faceIndex unmatched None
                        "No matching employee found.", processedEmployees)
             | Some (bestMatch, bestFace) =>
                 let similarity := sm_Similarity bestMatch in
                 let faceId := FaceId bestFace in
                 let matchedExternalId := normalizeId (ExternalImageId bestFace) in
                 let! employeeRecord :=
                   resolveEmployeeFromFaceIdentifiers faceId matchedExternalId None in
                 match employeeRecord with
                 | None =>
                     ret (plain_outcome faceIndex unmatched similarity
                            "Matched face is not linked to any employee record.",
                          processedEmployees)
                 | Some emp =>
                     if bool_decide (ref_emp_id emp ∈ processedEmployees) then
                       ret (mkOutcome faceIndex duplicate similarity
                              (Some (ref_emp_id emp)) (ref_name emp)
                              (Some "Employee already processed in this capture.")
                              None None,
                            processedEmployees)
                     else
                       let! attendance :=
                         getOrCreateAttendanceRecord (Some (ref_emp_id emp)) today in
                       match validatePunchAttempt (Some attendance) punchType with
                       | Some validation =>
                           ret (mkOutcome faceIndex skipped similarity
                                  (Some (ref_emp_id emp)) (ref_name emp)
                                  (Some (val_error validation)) None None,
                                {[ ref_emp_id emp ]} ∪ processedEmployees)
                       | None =>
                           let! updated :=
                             processPunch (v_attendance_id attendance) punchType
                               (Some faceImageBuffer) userId locationPayload
                               (mkOptions (Some (ref_emp_id emp)) true
                                          (Some matchThreshold)) in
                           ret (mkOutcome faceIndex punched similarity
                                  (Some (ref_emp_id emp)) (ref_name emp) None
                                  (Some (v_attendance_id attendance))
                                  (if String.eqb punchType PUNCH_TYPES_IN
                                   then a_punch_in_time (pr_row updated)
                                   else a_punch_out_time (pr_row updated)),
                                {[ ref_emp_id emp ]} ∪ processedEmployees)
                       end
                 end
             end)
            (fun searchError =>
               ret (mkOutcome faceIndex errored None None None
                      (Some (classified_message searchError)) None None,
                    processedEmployees))
      end
  end.

(** The [for] loop of the group branch, from face number [faceIndex] on. *)
Fixpoint group_loop (buffer : image) (collectionId punchType : string)
    (matchThreshold : Q) (userId : option string)
    (locationPayload : location_data) (today : string)
    (imageWidth imageHeight : Z) (faceDetails : list face_detail)
    (faceIndex : Z) (processedEmployees : gset Z) (results : list face_outcome)
    : M (list face_outcome) :=
  match faceDetails with
  | [] => ret results
  | faceDetail :: rest =>
      let! step :=
        process_face buffer collectionId punchType matchThreshold userId
          locationPayload today imageWidth imageHeight faceIndex faceDetail
          processedEmployees in
      group_loop buffer collectionId punchType matchThreshold userId
        locationPayload today imageWidth imageHeight rest (faceIndex + 1)
        (snd step) (results ++ [fst step])
  end.

Definition is_punched (entry : face_outcome) : bool :=
  match fo_status entry with
  | punched => true
  | _ => false
  end.

Definition group_branch (buffer : image) (collectionId punchType : string)
    (matchThreshold : Q) (userId : option string)
    (locationPayload : location_data) : M response :=
  let! faceDetails := call CallDetectFaces (detectFaces env buffer) in
  match faceDetails with
  | [] =>
      ret (mkResponse 422
             (BodyError (mkPayload "No faces detected in the image" None
                           (Some "Ensure group members are clearly visible and retry.")
                           None)))
  | _ :: _ =>
      let! imageMetadata := call CallSharpMetadata (sharp_metadata env buffer) in
      match imageMetadata with
      | (Some imageWidth, Some imageHeight) =>
          if (imageWidth =? 0) || (imageHeight =? 0) then
            ret (error_response 400
                   "Unable to read image dimensions for face processing")
          else
            let! now := (fun w => (Return (w_now w), w)) in
            let today := formatDate env now in
            let! results :=
              group_loop buffer collectionId punchType matchThreshold userId
                locationPayload today imageWidth imageHeight faceDetails 1 ∅ [] in
            let punchedCount := Z.of_nat (length (List.filter is_punched results)) in
            ret (mkResponse 200
                   (BodyGroup (0 <? punchedCount) punchType
                      (Z.of_nat (length faceDetails)) punchedCount results))
      | _ =>
          ret (error_response 400
                 "Unable to read image dimensions for face processing")
      end
  end.

Definition single_branch (buffer : image) (collectionId punchType : string)
    (matchThreshold : Q) (userId : option string)
    (locationPayload : location_data) (requestedEmpId : option Q) : M response :=
  let! matches :=
    call (CallSearchFacesByImage 1 matchThreshold)
         (searchFacesByImage env collectionId buffer 1 matchThreshold) in
  match matches with
  | [] =>
      ret (mkResponse 401
             (BodyError (mkPayload "No matching employee found" None
                           (Some "Use manual attendance if face recognition fails")
                           None)))
  | first :: _ =>
      let faceId := sm_Face first ≫= FaceId in
      let matchedExternalId := normalizeId (sm_Face first ≫= ExternalImageId) in
      let! employeeRecord :=
        resolveEmployeeFromFaceIdentifiers faceId matchedExternalId requestedEmpId in
      match employeeRecord with
      | None =>
          ret (mkResponse 404
                 (BodyError (mkPayload "Employee not registered in system" None None
                               (Some "Register face first via /store-face"))))
      | Some emp =>
          let! now := (fun w => (Return (w_now w), w)) in
          let today := formatDate env now in
          let! attendance :=
            getOrCreateAttendanceRecord (Some (ref_emp_id emp)) today in
          match validatePunchAttempt (Some attendance) punchType with
          | Some validation =>
              ret (error_response (val_status validation) (val_error validation))
          | None =>
              let! updated :=
                processPunch (v_attendance_id attendance) punchType (Some buffer)
                  userId locationPayload
                  (mkOptions (Some (ref_emp_id emp)) true (Some matchThreshold)) in
              ret (mkResponse 200
                     (BodySingle (ref_name emp) punchType
                        (pr_face_similarity updated)
                        (default matchThreshold (pr_face_match_threshold updated))
                        (if String.eqb punchType PUNCH_TYPES_IN
                         then a_punch_in_time (pr_row updated)
                         else a_punch_out_time (pr_row updated))))
          end
      end
  end.

(** [error.details ? { details: error.details } : {}]. *)
Definition truthy_details (details : option error_details) : option error_details :=
  match details with
  | Some (DetailsText text) => if String.eqb text "" then None else details
  | _ => details
  end.

Definition route_face_attendance (req : face_request) : world -> response * world :=
  match fr_file req with
  | None => fun w => (error_response 400 "Face image is required", w)
  | Some buffer =>
      match resolveCollectionId with
      | None =>
          fun w =>
            (mkResponse 500
               (BodyError
                  (mkPayload "Rekognition collection is not configured"
                     (Some (DetailsText
                        "Set REKOGNITION_COLLECTION or REKOGNITION_COLLECTION_ID in the backend .env file."))
                     None None)), w)
      | Some collectionId =>
          handle
            (let! _ := ensureCollectionExists collectionId in
             let normalizedPunchType :=
               Js.toUpperCase (Js.trim (default "" (fr_punch_type req))) in
             let punchType :=
               if String.eqb normalizedPunchType PUNCH_TYPES_OUT
               then PUNCH_TYPES_OUT else PUNCH_TYPES_IN in
             let matchThreshold :=
               default (DEFAULT_FACE_MATCH_THRESHOLD env)
                       (fr_faceMatchThreshold req ≫= js_Number env) in
             let locationPayload :=
               mkLocation (or_zero (fr_latitude req)) (or_zero (fr_longitude req))
                          (default "" (fr_address req)) in
             if isGroupModeRequest [fr_groupMode req; fr_group_mode req; fr_mode req]
             then group_branch buffer collectionId punchType matchThreshold
                    (fr_userId req) locationPayload
             else single_branch buffer collectionId punchType matchThreshold
                    (fr_userId req) locationPayload
                    (normalizeId (Js.nullish (fr_emp_id req) (fr_employeeId req))))
            (fun error =>
               match err_statusCode error with
               | Some code =>
                   if code =? 0 then
                     mkResponse (fst (mapRekognitionError error))
                                (BodyError (snd (mapRekognitionError error)))
                   else
                     mkResponse code
                       (BodyError (mkPayload (err_message error)
                                     (truthy_details (err_details error))
                                     None None))
               | None =>
                   mkResponse (fst (mapRekognitionError error))
                              (BodyError (snd (mapRekognitionError error)))
               end)
      end
  end.

End Backend.

(** ** Sample data

    A small installation used to run the functions: employee 1 is fully
    described, employee 2 has no designation, and face [f-9] belongs to
    nobody yet. *)

Module Sample.

Definition decimal (s : string) : option Z :=
  option_map Z.of_uint (NilEmpty.uint_of_string s).

Definition services (bucket : option string) (fk uniq : bool)
    (compare : list compare_match) : environment string :=
  {| AWS_S3_BUCKET := bucket;
     DEFAULT_FACE_MATCH_THRESHOLD := 90;
     REKOGNITION_COLLECTION := Some "faces";
     REKOGNITION_COLLECTION_ID := None;
     fk_attendance_employee := fk;
     unique_employee_date := uniq;
     js_Number := fun s => option_map inject_Z (decimal s);
     pg_integer := decimal;
     formatDate := fun t => "2025-03-" ++ two_digits (ts_day t);
     url_pathname := fun _ => None;
     decodeURIComponent := Some;
     uploadAttendanceImage := fun _ name =>
       Return (Some (mkUpload (Some ("https://store/" ++ name)) (Some name)));
     createCollection := fun _ => Return tt;
     detectFaces := fun _ => Return [];
     searchFacesByImage := fun _ _ _ _ => Return [];
     compareFaces := fun _ _ _ _ => Return compare;
     sharp_metadata := fun _ => Return (Some 640, Some 480);
     sharp_extract_resize := fun img _ => Return img;
     face_id_update_throws := fun _ _ => false;
     users_select_throws := fun _ => false;
     attendance_emp_select_throws := fun _ => false |}.

Definition env : environment string := services (Some "bucket") false false [].

Definition asha : employee_row :=
  mkEmployee 1 (Some "Asha") (Some "E001") (Some "f-1") (Some "faces/asha.jpg")
    (Some 10) (Some 20).

Definition birju : employee_row :=
  mkEmployee 2 (Some "Birju") (Some "E002") None (Some "faces/birju.jpg")
    (Some 10) None.

Definition morning : timestamp := mkTimestamp 14 9 15 10.

Definition store : db :=
  mkDb [asha; birju] [mkDesignation 20 "Sweeper"] [mkWard 10 "Ward A"] [5] [] 1.

Definition start : world := mkWorld store morning [] false.

Definition here : location_data := mkLocation "18.52" "73.85" "Pune".

End Sample.

(** * Vocabulary of the statements

    Sample records and requests, and the notions the properties below are
    stated with. *)

(** A record with both punches set. *)
Definition closed_view : attendance_view :=
  mkView 1 "2025-03-14" (Some "09:15 AM") (Some "05:30 PM") None None None None None None
    None None None 1 None None None None None.

(** A record of the day without any punch. *)
Definition fresh_view : attendance_view :=
  mkView 1 "2025-03-14" None None None None None None None None
    None None None 1 None None None None None.

(** A record with the punch-in set and the punch-out open. *)
Definition open_view : attendance_view :=
  mkView 1 "2025-03-14" (Some "09:15 AM") None None None None None None None
    None None None 1 None None None None None.

(** The first employee row, in storage order, that satisfies a condition,
    as the resolver's queries show it. *)
Definition first_employee (p : employee_row -> bool) (d : db) : option employee_ref :=
  option_map (fun e => mkRef (e_emp_id e) (e_name e)) (find p (employee d)).

(** Lookup (a): by the cached biometric identifier, when one is supplied. *)
Definition lookup_by_face (d : db) (faceId : option string) : option employee_ref :=
  if Js.truthy_str faceId
  then first_employee (fun e => bool_decide (e_face_id e = Some (default "" faceId))) d
  else None.

(** The number is an integer of the range of an [integer] column. *)
Definition int4_value (q : Q) : Prop :=
  exists n : Z, (inject_Z n == q)%Q /\ -2147483648 <= n <= 2147483647.

(** A lookup by identity, (b) or (c), finds an employee: the identity is
    supplied, is an integer of the column, and is the key of a row. *)
Definition id_finds (d : db) (id : option Q) (r : employee_ref) : Prop :=
  exists q, id = Some q /\ int4_value q /\
    first_employee (fun e => Qeq_bool (inject_Z (e_emp_id e)) q) d = Some r.

(** A lookup by identity finds nothing: no identity is supplied, or it is
    an integer of the column and the key of no row. *)
Definition id_finds_nothing (d : db) (id : option Q) : Prop :=
  id = None \/
  exists q, id = Some q /\ int4_value q /\
    first_employee (fun e => Qeq_bool (inject_Z (e_emp_id e)) q) d = None.

(** A lookup by identity cannot be made: the identity supplied is no
    integer of the column. *)
Definition id_malformed (id : option Q) : Prop :=
  exists q, id = Some q /\ ~ int4_value q.

(** How the conditional cache write relates a row before to the row after:
    only a row of the resolved employee whose cached identifier is null or
    different changes, and it then holds the observed identifier, its other
    columns being as before. *)
Definition cache_repaired (faceId : string) (empId : Z) (before after : employee_row) : Prop :=
  if (e_emp_id before =? empId) && negb (bool_decide (e_face_id before = Some faceId))
  then after = mkEmployee (e_emp_id before) (e_name before) (e_emp_code before)
                 (Some faceId) (e_face_embedding before) (e_ward_id before)
                 (e_designation_id before)
  else after = before.

(** At most one attendance record is stored for the employee and day, as
    the data model has it. *)
Definition one_record_per_day (d : db) (emp_id : Z) (date : string) : Prop :=
  (length (List.filter
             (fun a => sql_eq_Z (a_emp_id a) emp_id && String.eqb (a_date a) date)
             (attendance d)) <= 1)%nat.

(** Some attendance row is stored for the employee and date. *)
Definition has_attendance (d : db) (emp_id : Z) (date : string) : bool :=
  existsb (fun a => sql_eq_Z (a_emp_id a) emp_id && String.eqb (a_date a) date)
          (attendance d).

(** The directory has a row for the employee. *)
Definition employee_exists (d : db) (emp_id : Z) : bool :=
  existsb (fun e => e_emp_id e =? emp_id) (employee d).

(** The ward the employee row holds now; null when there is no such row. *)
Definition current_ward (d : db) (emp_id : Z) : option Z :=
  match select_ward_of_employee d emp_id with
  | w :: _ => w
  | [] => None
  end.

(** A thrown error that reports something as not found. *)
Definition is_NotFound (e : js_error) : bool :=
  match err_statusCode e with
  | Some 404 => true
  | _ => false
  end.

(** The joined read over an explicit list of attendance rows. *)
Definition joined_rows (js : list (employee_row * designation_row * ward_row))
    (emp_id : Z) (date : string) (rows : list attendance_row) : list attendance_view :=
  flat_map (fun a =>
    if sql_eq_Z (a_emp_id a) emp_id && String.eqb (a_date a) date then
      map (fun '(e, dg, w) => view_of a e dg w) js
    else [])
    rows.

(** What [resolveAttendanceEmployeeId] reads from a store. *)
Definition attendance_employee {image : Type} (env : environment image) (d : db)
    (attendanceId : Z) : option Z :=
  if attendanceId =? 0 then None
  else if attendance_emp_select_throws env attendanceId then None
  else match select_attendance_emp d attendanceId with
       | emp :: _ => emp
       | [] => None
       end.

(** The employee a punch is verified against: the one named in the options,
    else the one of the attendance row. *)
Definition resolved_employee {image : Type} (env : environment image) (d : db)
    (options : punch_options) (attendanceId : Z) : option Z :=
  match opt_employeeId options with
  | Some e => Some e
  | None => attendance_employee env d attendanceId
  end.

(** What [resolvePunchActor] reads from a store. *)
Definition punch_actor {image : Type} (env : environment image) (d : db)
    (rawUserId : option string) : option Z :=
  match normalizeId env rawUserId with
  | None => None
  | Some normalized =>
      if users_select_throws env normalized then None
      else head (List.filter (fun u => key_eq u normalized) (users d))
  end.

(** The store after the [UPDATE attendance] of a punch. *)
Definition punched_db (d : db) (attendanceId : Z) (f : attendance_row -> attendance_row) : db :=
  mkDb (employee d) (designation d) (wards d) (users d)
       (update_attendance_rows attendanceId f (attendance d)) (attendance_id_seq d).

(** The best similarity of a comparison: [bestMatch?.Similarity ?? 0]. *)
Definition best_similarity (matches : list compare_match) : Q :=
  match matches with
  | [] => 0
  | bestMatch :: _ => default 0%Q (cm_Similarity bestMatch)
  end.

(** No match was returned, or the best one is below the threshold. *)
Definition mismatch (matches : list compare_match) (threshold : Q) : bool :=
  match matches with
  | [] => true
  | _ :: _ => below (best_similarity matches) threshold
  end.

(** The error of [ensureFaceMatch] for a face that does not match. *)
Definition FaceMismatch (similarity threshold : Q) : js_error :=
  error_with_status "Captured face does not match enrolled face" 401
    (Some (DetailsSimilarityBelow similarity threshold)).

(** The request passes the required-fields check of [PUT /]. *)
Definition has_required_fields {image : Type} (req : @manual_request image) : bool :=
  Js.truthy_str (mr_attendance_id req) && Js.truthy_str (mr_punch_type req)
  && Js.truthy_str (mr_latitude req) && Js.truthy_str (mr_longitude req)
  && Js.truthy_str (mr_address req).

(** The world after the evidence upload of a punch, if there is one. *)
Definition after_upload {image : Type} (imageFile : option image) (attendanceId : Z) (punchType : string)
    (w : world) : world :=
  match imageFile with
  | Some _ => log_call (CallUpload (evidence_name attendanceId punchType)) w
  | None => w
  end.

(** A manual request for record 1 whose direction is the empty string. *)
Definition empty_direction_request : @manual_request string :=
  mkManualRequest (Some "1") (Some "") (Some "18.52") (Some "73.85") (Some "Pune")
    (Some "5") None.

(** The same request with the direction written in lower case. *)
Definition lowercase_out_request : @manual_request string :=
  mkManualRequest (Some "1") (Some "out") (Some "18.52") (Some "73.85") (Some "Pune")
    (Some "5") None.

(** What the assignments of a punch look like through the read query. *)
Definition view_punch (isPunchIn : bool) (now : timestamp) (loc : location_data)
    (imageUrl : option string) (v : attendance_view) : attendance_view :=
  if isPunchIn then
    {| v_attendance_id := v_attendance_id v;
       v_date := v_date v;
       v_punch_in_time := Some (to_char_hh12 now);
       v_punch_out_time := v_punch_out_time v;
       v_duration := v_duration v;
       v_punch_in_image := imageUrl;
       v_punch_out_image := v_punch_out_image v;
       v_latitude_in := Some (loc_latitude loc);
       v_longitude_in := Some (loc_longitude loc);
       v_in_address := Some (loc_address loc);
       v_latitude_out := v_latitude_out v;
       v_longitude_out := v_longitude_out v;
       v_out_address := v_out_address v;
       v_emp_id := v_emp_id v;
       v_emp_code := v_emp_code v;
       v_employee_name := v_employee_name v;
       v_designation_name := v_designation_name v;
       v_ward_id := v_ward_id v;
       v_ward_name := v_ward_name v |}
  else
    {| v_attendance_id := v_attendance_id v;
       v_date := v_date v;
       v_punch_in_time := v_punch_in_time v;
       v_punch_out_time := Some (to_char_hh12 now);
       v_duration := v_duration v;
       v_punch_in_image := v_punch_in_image v;
       v_punch_out_image := imageUrl;
       v_latitude_in := v_latitude_in v;
       v_longitude_in := v_longitude_in v;
       v_in_address := v_in_address v;
       v_latitude_out := Some (loc_latitude loc);
       v_longitude_out := Some (loc_longitude loc);
       v_out_address := Some (loc_address loc);
       v_emp_id := v_emp_id v;
       v_emp_code := v_emp_code v;
       v_employee_name := v_employee_name v;
       v_designation_name := v_designation_name v;
       v_ward_id := v_ward_id v;
       v_ward_name := v_ward_name v |}.

(** The columns a punch of the given direction writes, as a row holds
    them. *)
Definition written_columns (isPunchIn : bool) (a : attendance_row)
    : option timestamp * (option string * option string * option string * option string) :=
  if isPunchIn
  then (a_punch_in_time a,
        (a_latitude_in a, a_longitude_in a, a_in_address a, a_punch_in_image a))
  else (a_punch_out_time a,
        (a_latitude_out a, a_longitude_out a, a_out_address a, a_punch_out_image a)).

(** The same columns as the read query shows them. *)
Definition read_columns (isPunchIn : bool) (v : attendance_view)
    : option string * (option string * option string * option string * option string) :=
  if isPunchIn
  then (v_punch_in_time v,
        (v_latitude_in v, v_longitude_in v, v_in_address v, v_punch_in_image v))
  else (v_punch_out_time v,
        (v_latitude_out v, v_longitude_out v, v_out_address v, v_punch_out_image v)).

(** Get-or-create, punch in with face verification, read again: the punch
    time as written and as read back. *)
Definition punch_then_read (env : environment string) (now : timestamp)
    : option (option timestamp * option string) :=
  let w := mkWorld Sample.store now [] false in
  match getOrCreateAttendanceRecord env (Some 1) "2025-03-14" w with
  | (Return v, w1) =>
      match processPunch env (v_attendance_id v) PUNCH_TYPES_IN (Some "photo") (Some "5")
              Sample.here (mkOptions (Some 1) true None) w1 with
      | (Return rec, w2) =>
          match getOrCreateAttendanceRecord env (Some 1) "2025-03-14" w2 with
          | (Return v', _) => Some (a_punch_in_time (pr_row rec), v_punch_in_time v')
          | _ => None
          end
      | _ => None
      end
  | _ => None
  end.

(** Services whose comparison finds the enrolled face at similarity 95. *)
Definition matching_services : environment string :=
  Sample.services (Some "bucket") false false [mkCompareMatch (Some (95 # 1))].

(** The request selects the group branch. *)
Definition group_mode_requested {image : Type} (req : @face_request image) : bool :=
  isGroupModeRequest [fr_groupMode req; fr_group_mode req; fr_mode req].

(** The collection is ready, or creating it succeeds or finds it there. *)
Definition collection_available {image : Type} (env : environment image)
    (collectionId : string) (w : world) : bool :=
  w_faceCollectionReady w ||
  match createCollection env collectionId with
  | Return _ => true
  | Throw error => String.eqb (err_name error) "ResourceAlreadyExistsException"
  end.

(** The answer of the group branch to an image without faces. *)
Definition NoFacesDetected : response :=
  mkResponse 422
    (BodyError (mkPayload "No faces detected in the image" None
                  (Some "Ensure group members are clearly visible and retry.") None)).

(** A capture by user 5 that asks for group mode. *)
Definition group_request : @face_request string :=
  mkFaceRequest (Some "photo") (Some "in") None None (Some "5") None None None
    (Some (BStr "Group")) None None None.

(** What one turn of the loop guarantees about the entry it pushes and the
    set of processed employees: the set only grows; an entry that names an
    employee leaves that employee in the set; and an entry that names an
    employee who was in the set already is a [duplicate]. *)
Definition step_ok (before : gset Z) (entry : face_outcome) (after : gset Z) : Prop :=
  before ⊆ after /\
  (forall emp, fo_employeeId entry = Some emp -> emp ∈ after) /\
  (forall emp, fo_employeeId entry = Some emp -> emp ∈ before ->
     fo_status entry = duplicate).

(** An entry after an earlier entry for the same employee is a duplicate. *)
Definition later_is_duplicate (earlier later : face_outcome) : Prop :=
  forall emp, fo_employeeId earlier = Some emp -> fo_employeeId later = Some emp ->
    fo_status later = duplicate.

(** The entry records a punch of the employee. *)
Definition punched_for (emp : Z) (entry : face_outcome) : bool :=
  is_punched entry && bool_decide (fo_employeeId entry = Some emp).

(** Three bounding boxes side by side. *)
Definition three_faces : list face_detail :=
  [mkFaceDetail (Some (mkBox (1 # 10) (2 # 10) (1 # 10) (1 # 10)));
   mkFaceDetail (Some (mkBox (1 # 10) (2 # 10) (4 # 10) (1 # 10)));
   mkFaceDetail (Some (mkBox (1 # 10) (2 # 10) (7 # 10) (1 # 10)))].

(** Three faces in one photograph: the first and the third are matched to
    the enrolled face of employee 1, the second to nobody. *)
Definition group_services : environment string :=
  {| AWS_S3_BUCKET := Some "bucket";
     DEFAULT_FACE_MATCH_THRESHOLD := 90;
     REKOGNITION_COLLECTION := Some "faces";
     REKOGNITION_COLLECTION_ID := None;
     fk_attendance_employee := true;
     unique_employee_date := true;
     js_Number := fun s => option_map inject_Z (Sample.decimal s);
     pg_integer := Sample.decimal;
     formatDate := fun t => "2025-03-" ++ two_digits (ts_day t);
     url_pathname := fun _ => None;
     decodeURIComponent := Some;
     uploadAttendanceImage := fun _ name =>
       Return (Some (mkUpload (Some ("https://store/" ++ name)) (Some name)));
     createCollection := fun _ => Return tt;
     detectFaces := fun _ => Return three_faces;
     searchFacesByImage := fun _ img _ _ =>
       if String.eqb img "face@240" then Return []
       else Return [mkSearchMatch (Some (mkFace (Some "f-1") (Some "1"))) (Some (97 # 1))];
     compareFaces := fun _ _ _ _ => Return [mkCompareMatch (Some (95 # 1))];
     sharp_metadata := fun _ => Return (Some 640, Some 480);
     sharp_extract_resize := fun _ region => Return ("face@" ++ Js.show_int (cr_left region));
     face_id_update_throws := fun _ _ => false;
     users_select_throws := fun _ => false;
     attendance_emp_select_throws := fun _ => false |}.

(** The body is the answer of the group branch. *)
Definition is_group_body (body : response_body) : bool :=
  match body with
  | BodyGroup _ _ _ _ _ => true
  | _ => false
  end.

(** The entries the route returns for the three faces. *)
Definition sample_group_results : list face_outcome :=
  match res_body (fst (route_face_attendance group_services group_request Sample.start)) with
  | BodyGroup _ _ _ _ results => results
  | _ => []
  end.

(** A single-subject capture by user 5 with the given raw direction. *)
Definition single_request (punch_type : string) : @face_request string :=
  mkFaceRequest (Some "photo") (Some punch_type) (Some "18.52") (Some "73.85") (Some "5")
    (Some "Pune") None None None None None None.

(** * Vocabulary of the further properties *)

(** The text has ASCII characters only. *)
Fixpoint ascii_text (s : string) : bool :=
  match s with
  | EmptyString => true
  | String c r => (nat_of_ascii c <? 128)%nat && ascii_text r
  end.

(** A body value that is a text is an ASCII text. *)
Definition ascii_value (value : option body_value) : Prop :=
  forall s, value = Some (BStr s) -> ascii_text s = true.

(** A body value with its letters in upper case. *)
Definition upper_value (value : option body_value) : option body_value :=
  match value with
  | Some (BStr s) => Some (BStr (Js.toUpperCase s))
  | other => other
  end.

(** The columns of a row that a punch of the given direction does not
    write: the keys, the duration, and the columns of the other direction. *)
Definition kept_columns (isPunchIn : bool) (a : attendance_row) :=
  (a_attendance_id a, a_emp_id a, a_date a, a_ward_id a, a_duration a,
   if isPunchIn
   then (a_punch_out_time a, a_punch_out_image a, a_latitude_out a, a_longitude_out a,
         a_out_address a, a_punched_out_by a)
   else (a_punch_in_time a, a_punch_in_image a, a_latitude_in a, a_longitude_in a,
         a_in_address a, a_punched_in_by a)).

(** The actor column a punch of the given direction writes. *)
Definition punched_by (isPunchIn : bool) (a : attendance_row) : option Z :=
  if isPunchIn then a_punched_in_by a else a_punched_out_by a.

(** How a successful punch on record [attendanceId] at instant [now] relates
    a stored row before to the row after: rows of other records are
    untouched; on a row of the record only the columns of the direction
    change, and its punch time is [now]. *)
Definition punch_applied (attendanceId : Z) (isPunchIn : bool) (now : timestamp)
    (before after : attendance_row) : Prop :=
  if a_attendance_id before =? attendanceId
  then kept_columns isPunchIn after = kept_columns isPunchIn before /\
       fst (written_columns isPunchIn after) = Some now
  else after = before.

(** The error of [processPunch] when verification is required and no
    evidence key came back from the upload. *)
Definition EvidenceRequired : js_error :=
  error_with_status "Attendance image could not be uploaded; face verification failed"
    500 None.

(** The attendance identities of a store are pairwise different and all
    below the next value of the sequence. *)
Definition well_keyed (d : db) : Prop :=
  Forall (fun a => a_attendance_id a < attendance_id_seq d) (attendance d) /\
  NoDup (map a_attendance_id (attendance d)).

(** The direction the face-attendance route works with: OUT when the raw
    field, trimmed and in upper case, is OUT, else IN. *)
Definition requested_direction {image : Type} (req : @face_request image) : string :=
  if String.eqb (Js.toUpperCase (Js.trim (default "" (fr_punch_type req)))) PUNCH_TYPES_OUT
  then PUNCH_TYPES_OUT else PUNCH_TYPES_IN.

(** The threshold the face-attendance route works with. *)
Definition requested_threshold {image : Type} (env : environment image)
    (req : @face_request image) : Q :=
  default (DEFAULT_FACE_MATCH_THRESHOLD env) (fr_faceMatchThreshold req ≫= js_Number env).

(** The location the face-attendance route records. *)
Definition requested_location {image : Type} (req : @face_request image) : location_data :=
  mkLocation (or_zero (fr_latitude req)) (or_zero (fr_longitude req))
             (default "" (fr_address req)).

(** The branch of the face-attendance route that a request selects, with
    the arguments the route computes for it. *)
Definition face_branch {image : Type} (env : environment image)
    (req : @face_request image) (buffer : image) (collectionId : string) : M response :=
  if group_mode_requested req
  then group_branch env buffer collectionId (requested_direction req)
         (requested_threshold env req) (fr_userId req) (requested_location req)
  else single_branch env buffer collectionId (requested_direction req)
         (requested_threshold env req) (fr_userId req) (requested_location req)
         (normalizeId env (Js.nullish (fr_emp_id req) (fr_employeeId req))).

(** The body is an error payload. *)
Definition is_error_body (body : response_body) : bool :=
  match body with
  | BodyError _ => true
  | _ => false
  end.

(** The columns no punch writes. *)
Definition key_columns (a : attendance_row) :=
  (a_attendance_id a, a_emp_id a, a_date a, a_ward_id a, a_duration a).

(** The lifecycle of a row: a punch-out is stored only beside a punch-in. *)
Definition in_order (a : attendance_row) : Prop :=
  a_punch_out_time a <> None -> a_punch_in_time a <> None.

(** How a stored row may change: its keys stay, and a punch that is stored
    stays as it is, with its time, place, evidence and actor. *)
Definition row_advances (before after : attendance_row) : Prop :=
  key_columns after = key_columns before /\
  (a_punch_in_time before <> None ->
   kept_columns false after = kept_columns false before) /\
  (a_punch_out_time before <> None ->
   kept_columns true after = kept_columns true before).

(** How the attendance table may change: every row stays at its place and
    advances; rows may be added behind. *)
Definition table_advances (before after : list attendance_row) : Prop :=
  forall (i : nat) (a : attendance_row),
    before !! i = Some a -> exists a', after !! i = Some a' /\ row_advances a a'.

(** The store invariant of the lifecycle: identities are unique and below
    the sequence, and every row is in order. *)
Definition lifecycle_sound (d : db) : Prop :=
  well_keyed d /\ Forall in_order (attendance d).

(** A step from one store to another that respects the lifecycle. *)
Definition lifecycle_step (d d' : db) : Prop :=
  lifecycle_sound d ->
  lifecycle_sound d' /\ table_advances (attendance d) (attendance d').

(** A row admits a punch of the given direction. *)
Definition admits (isPunchIn : bool) (a : attendance_row) : Prop :=
  if isPunchIn then a_punch_in_time a = None
  else a_punch_in_time a <> None /\ a_punch_out_time a = None.

(** A world of the afternoon in which employee 1 has punched in. *)
Definition afternoon : world :=
  mkWorld
    (mkDb [Sample.asha; Sample.birju] [mkDesignation 20 "Sweeper"] [mkWard 10 "Ward A"] [5]
       [mkAttendance 1 (Some 1) "2025-03-14" (Some 10) (Some Sample.morning) None None
          (Some "https://store/in.jpg") None (Some "18.52") (Some "73.85") (Some "Pune")
          None None None (Some 5) None]
       2)
    (mkTimestamp 14 17 30 0) [] false.

(** * The supervisor's reports (routes/appRoutes/supervisorsWard.js)

    ** The date range of a report *)

(** A raw date as a request supplies it: text; a [Date], with the day of
    its ISO form when its time value is a number; or anything else
    ([undefined], [null], numbers, objects). *)
Inductive raw_date :=
| RawText (text : string)
| RawDate (isoDay : option string)
| RawOther.

(** [\d]. *)
Definition is_digit (c : ascii) : bool :=
  let n := N_of_ascii c in ((48 <=? n) && (n <=? 57))%N.

(** [/^\d{4}-\d{2}-\d{2}$/.test(s)]. *)
Definition ISO_DATE_PATTERN (s : string) : bool :=
  match s with
  | String y1 (String y2 (String y3 (String y4 (String h1
      (String m1 (String m2 (String h2 (String d1 (String d2 EmptyString))))))))) =>
      is_digit y1 && is_digit y2 && is_digit y3 && is_digit y4
      && Ascii.eqb h1 "-"
      && is_digit m1 && is_digit m2
      && Ascii.eqb h2 "-"
      && is_digit d1 && is_digit d2
  | _ => false
  end.

Record date_range := mkDateRange {
  startDate : string;
  endDate : string
}.

Section DateRange.

(** [new Date(text)]: the day of its ISO form,
    [parsed.toISOString().split("T")[0]], when the text parses to a time
    value that is a number. *)
Variable date_parse : string -> option string.

Definition normalizeInputDate (value : raw_date) (fallbackIso : string) : string :=
  match value with
  | RawText text =>
      if String.eqb text "" then fallbackIso
      else
        let trimmed := Js.trim text in
        if ISO_DATE_PATTERN trimmed then trimmed
        else
          match date_parse trimmed with
          | Some day => day
          | None => fallbackIso
          end
  | RawDate (Some day) => day
  | RawDate None => fallbackIso
  | RawOther => fallbackIso
  end.

(** [resolveDateRange], with the day of the clock ([todayIso]) as an
    argument. *)
Definition resolveDateRange (todayIso : string) (rawStart rawEnd : raw_date) : date_range :=
  let startIso := normalizeInputDate rawStart todayIso in
  let endIso := normalizeInputDate rawEnd todayIso in
  if String.leb startIso endIso
  then mkDateRange startIso endIso
  else mkDateRange endIso startIso.

End DateRange.

(** The number a run of characters denotes when its digits are read in
    order, the other characters skipped: 20250314 for 2025-03-14. *)
Fixpoint digits_number (s : string) (acc : Z) : Z :=
  match s with
  | EmptyString => acc
  | String c r =>
      if is_digit c then digits_number r (10 * acc + (Z.of_N (N_of_ascii c) - 48))
      else digits_number r acc
  end.

(** The calendar position of an ISO day: year, month and day as one
    number, which orders days as the calendar does. *)
Definition calendar_number (day : string) : Z := digits_number day 0.

(** Two texts have digits at the same places and the same characters
    elsewhere. *)
Fixpoint aligned (a b : string) : bool :=
  match a, b with
  | EmptyString, EmptyString => true
  | String c1 r1, String c2 r2 =>
      (is_digit c1 && is_digit c2 || negb (is_digit c1) && Ascii.eqb c1 c2)
      && aligned r1 r2
  | _, _ => false
  end.

(** ** Objects used as maps from integers *)

Module JsObject.

(** The own properties of an object whose property names are the decimal
    forms of integers, in the order of their creation. *)
Definition t (V : Type) : Type := list (Z * V).

(** [!!o[k]], the values being objects. *)
Definition has {V : Type} (k : Z) (o : t V) : bool :=
  existsb (fun p => fst p =? k) o.

(** [o[k] = v] for a name the object does not have yet. *)
Definition create {V : Type} (k : Z) (v : V) (o : t V) : t V := (o ++ [(k, v)])%list.

(** A change inside the value of property [k], which stays where it is. *)
Definition modify {V : Type} (k : Z) (f : V -> V) (o : t V) : t V :=
  map (fun p => if fst p =? k then (fst p, f (snd p)) else p) o.

(** The name is an array index: an integer from 0 to 2^32 - 2. *)
Definition is_index (k : Z) : bool := (0 <=? k) && (k <? 4294967295).

Fixpoint insert_by_key {V : Type} (p : Z * V) (l : list (Z * V)) : list (Z * V) :=
  match l with
  | [] => [p]
  | q :: r => if fst p <=? fst q then p :: l else q :: insert_by_key p r
  end.

Definition sort_by_key {V : Type} (l : list (Z * V)) : list (Z * V) :=
  fold_right insert_by_key [] l.

(** [Object.keys(o)] as integers: the array indices in ascending order,
    then the other names in the order of their creation. *)
Definition entries {V : Type} (o : t V) : list (Z * V) :=
  (sort_by_key (List.filter (fun p => is_index (fst p)) o)
   ++ List.filter (fun p => negb (is_index (fst p))) o)%list.

(** [Object.values(o)]. *)
Definition values {V : Type} (o : t V) : list V := map snd (entries o).

End JsObject.

(** ** Employees of a report by ward *)

(** A row of the report query: the ward columns, and the employee columns
    [C] from which the entry of the employee is built. *)
Record report_row (C : Type) := mkReportRow {
  r_ward_id : Z;
  r_ward_name : option string;
  r_city_name : option string;
  r_zone_name : option string;
  r_columns : C
}.
Arguments mkReportRow {C}.
Arguments r_ward_id {C}.
Arguments r_ward_name {C}.
Arguments r_city_name {C}.
Arguments r_zone_name {C}.
Arguments r_columns {C}.

Record ward_group (E : Type) := mkWardGroup {
  wg_ward_id : Z;
  wg_ward_name : option string;
  wg_city : option string;
  wg_zone : option string;
  wg_employees : list E
}.
Arguments mkWardGroup {E}.
Arguments wg_ward_id {E}.
Arguments wg_ward_name {E}.
Arguments wg_city {E}.
Arguments wg_zone {E}.
Arguments wg_employees {E}.

Section MapRowsToWards.

Context {C E : Type}.

(** The object pushed on [employees] for a row; it is built from the
    employee columns alone. *)
Variable employee_entry : C -> E.

(** The body of the [forEach]. *)
Definition mapRowsToWards_step (wardMap : JsObject.t (ward_group E)) (row : report_row C)
    : JsObject.t (ward_group E) :=
  let wardId := r_ward_id row in
  let wardMap :=
    if negb (JsObject.has wardId wardMap)
    then JsObject.create wardId
           (mkWardGroup (r_ward_id row) (r_ward_name row) (r_city_name row)
              (r_zone_name row) [])
           wardMap
    else wardMap in
  JsObject.modify wardId
    (fun g => mkWardGroup (wg_ward_id g) (wg_ward_name g) (wg_city g) (wg_zone g)
                (wg_employees g ++ [employee_entry (r_columns row)])%list)
    wardMap.

Definition mapRowsToWards (rows : list (report_row C)) : list (ward_group E) :=
  JsObject.values (fold_left mapRowsToWards_step rows []).

End MapRowsToWards.

(** The rows of a ward, in the order of the report. *)
Definition rows_of_ward {C : Type} (wardId : Z) (rows : list (report_row C))
    : list (report_row C) :=
  List.filter (fun r => r_ward_id r =? wardId) rows.

(** The group that the rows of a ward make: the ward columns of the first
    row, and an entry for each row. *)
Definition group_of_rows {C E : Type} (employee_entry : C -> E) (wardId : Z)
    (rows : list (report_row C)) : option (ward_group E) :=
  match rows_of_ward wardId rows with
  | [] => None
  | first :: rest =>
      Some (mkWardGroup wardId (r_ward_name first) (r_city_name first) (r_zone_name first)
              (map (fun r => employee_entry (r_columns r)) (first :: rest)))
  end.

(** What the loop of [mapRowsToWards] keeps true of the object it fills,
    after the rows [done]: names are not repeated, the value under a name
    is the group that the rows of that ward make, and every ward of a row
    has a name. *)
Definition wardMap_ok {C E : Type} (employee_entry : C -> E)
    (wardMap : JsObject.t (ward_group E)) (done : list (report_row C))
    : Prop :=
  NoDup (map fst wardMap) /\
  (forall k g, In (k, g) wardMap -> group_of_rows employee_entry k done = Some g) /\
  (forall r, In r done -> In (r_ward_id r) (map fst wardMap)).

(** * Wards by city and zone ([GET /] of the ward routes)

    The grouping that the handler applies to the rows of its query. *)

(** A row of [wards JOIN zones JOIN cities]. *)
Record ward_location := mkWardLocation {
  wl_ward_id : Z;
  wl_ward_name : option string;
  wl_zone_id : Z;
  wl_zone_name : option string;
  wl_city_id : Z;
  wl_city_name : option string
}.

Record ward_entry := mkWardEntry {
  wardId : Z;
  wardName : option string
}.

Record zone_entry := mkZoneEntry {
  zoneId : Z;
  zone : option string;
  wards_of_zone : list ward_entry
}.

(** A city while the rows are grouped: its zones are an object. *)
Record city_object := mkCityObject {
  co_cityId : Z;
  co_city : option string;
  co_zones : JsObject.t zone_entry
}.

(** A city of the answer: its zones are an array. *)
Record city_entry := mkCityEntry {
  cityId : Z;
  city : option string;
  zones : list zone_entry
}.

(** The body of [result.rows.forEach]. *)
Definition groupedData_step (groupedData : JsObject.t city_object) (row : ward_location)
    : JsObject.t city_object :=
  let city_id := wl_city_id row in
  let zone_id := wl_zone_id row in
  let groupedData :=
    if negb (JsObject.has city_id groupedData)
    then JsObject.create city_id (mkCityObject city_id (wl_city_name row) []) groupedData
    else groupedData in
  let groupedData :=
    JsObject.modify city_id
      (fun c =>
         if negb (JsObject.has zone_id (co_zones c))
         then mkCityObject (co_cityId c) (co_city c)
                (JsObject.create zone_id (mkZoneEntry zone_id (wl_zone_name row) [])
                   (co_zones c))
         else c)
      groupedData in
  JsObject.modify city_id
    (fun c =>
       mkCityObject (co_cityId c) (co_city c)
         (JsObject.modify zone_id
            (fun z =>
               mkZoneEntry (zoneId z) (zone z)
                 (wards_of_zone z ++ [mkWardEntry (wl_ward_id row) (wl_ward_name row)])%list)
            (co_zones c)))
    groupedData.

(** [Object.values(groupedData).map(city => ({...city, zones:
    Object.values(city.zones)}))] after the loop. *)
Definition responseData (rows : list ward_location) : list city_entry :=
  map (fun c => mkCityEntry (co_cityId c) (co_city c) (JsObject.values (co_zones c)))
      (JsObject.values (fold_left groupedData_step rows [])).

(** ** Grouping loops

    The shape both grouping loops have: a row creates the property of its
    key when the object lacks it, and is then added to the value under
    that key. *)
Definition group_step {R V : Type} (key : R -> Z) (fresh : R -> V) (add : R -> V -> V)
    (o : JsObject.t V) (row : R) : JsObject.t V :=
  JsObject.modify (key row) (add row)
    (if negb (JsObject.has (key row) o) then JsObject.create (key row) (fresh row) o else o).

(** The value that the rows with key [k] build: the fresh value of the
    first of them, with each of them added in order. *)
Definition grouped_value {R V : Type} (key : R -> Z) (fresh : R -> V) (add : R -> V -> V)
    (k : Z) (rows : list R) : option V :=
  match List.filter (fun r => key r =? k) rows with
  | [] => None
  | first :: rest => Some (fold_left (fun v r => add r v) (first :: rest) (fresh first))
  end.

(** The rows of a city and zone, in the order of the query. *)
Definition rows_of_zone (city_id zone_id : Z) (rows : list ward_location)
    : list ward_location :=
  List.filter (fun r => (wl_city_id r =? city_id) && (wl_zone_id r =? zone_id)) rows.

Definition ward_of_row (row : ward_location) : ward_entry :=
  mkWardEntry (wl_ward_id row) (wl_ward_name row).

(** The values the loop creates for a city and for a zone, and what a row
    adds to its zone and to its city. *)
Definition fresh_city (r : ward_location) : city_object :=
  mkCityObject (wl_city_id r) (wl_city_name r) [].

Definition fresh_zone (r : ward_location) : zone_entry :=
  mkZoneEntry (wl_zone_id r) (wl_zone_name r) [].

Definition add_to_zone (r : ward_location) (z : zone_entry) : zone_entry :=
  mkZoneEntry (zoneId z) (zone z) (wards_of_zone z ++ [ward_of_row r])%list.

Definition add_to_city (row : ward_location) (c : city_object) : city_object :=
  mkCityObject (co_cityId c) (co_city c)
    (group_step wl_zone_id fresh_zone add_to_zone (co_zones c) row).

(** * The summary of a supervisor's wards ([fetchSupervisorSummary]) *)




Section SupervisorSummary.

(** [text::date] as a day number; [None] when the cast raises. *)
Variable pg_date : string -> option Z.

(** [Number(((n / total) * 100).toFixed(1))] in floating point. *)
Variable percentage : Z -> Z -> Q.






End SupervisorSummary.


(** * Properties *)

(** ** Running a body *)

Lemma bind_return {A B : Type} (c : M A) (k : A -> M B) (w w' : world) (a : A) :
  c w = (Return a, w') -> bind c k w = k a w'.
Proof. unfold bind. intros ->. reflexivity. Qed.

Lemma bind_throw {A B : Type} (c : M A) (k : A -> M B) (w w' : world) (e : js_error) :
  c w = (Throw e, w') -> bind c k w = (Throw e, w').
Proof. unfold bind. intros ->. reflexivity. Qed.


(** ** The punch legality check *)

(** The read query never shows a stored punch time as the empty string, so
    a punch time is truthy in a view exactly when it is stored. *)
Lemma to_char_hh12_truthy (t : timestamp) : Js.truthy_str (Some (to_char_hh12 t)) = true.
Proof.
  unfold Js.truthy_str, to_char_hh12. cbv zeta.
  destruct (two_digits (if ts_hour t mod 12 =? 0 then 12 else ts_hour t mod 12));
    reflexivity.
Qed.

Section Legality.

Variable a : attendance_view.

Let punched_in := Js.truthy_str (v_punch_in_time a).
Let punched_out := Js.truthy_str (v_punch_out_time a).

Lemma validate_in_set :
  punched_in = true -> validatePunchAttempt (Some a) PUNCH_TYPES_IN = Some AlreadyPunchedIn.
Proof. unfold punched_in, validatePunchAttempt. intros ->. reflexivity. Qed.

Lemma validate_out_set :
  punched_out = true -> validatePunchAttempt (Some a) PUNCH_TYPES_OUT = Some AlreadyPunchedOut.
Proof. unfold punched_out, validatePunchAttempt. intros ->. reflexivity. Qed.

Lemma validate_out_before_in :
  punched_in = false -> punched_out = false ->
  validatePunchAttempt (Some a) PUNCH_TYPES_OUT = Some PunchInRequired.
Proof. unfold punched_in, punched_out, validatePunchAttempt. intros -> ->. reflexivity. Qed.

Lemma validate_in_fresh :
  punched_in = false -> validatePunchAttempt (Some a) PUNCH_TYPES_IN = None.
Proof. unfold punched_in, validatePunchAttempt. intros ->. reflexivity. Qed.

Lemma validate_out_open :
  punched_in = true -> punched_out = false ->
  validatePunchAttempt (Some a) PUNCH_TYPES_OUT = None.
Proof. unfold punched_in, punched_out, validatePunchAttempt. intros -> ->. reflexivity. Qed.

Lemma validate_other_direction (punchType : string) :
  punchType <> PUNCH_TYPES_IN -> punchType <> PUNCH_TYPES_OUT ->
  validatePunchAttempt (Some a) punchType = None.
Proof.
  intros Hin Hout. unfold validatePunchAttempt.
  apply String.eqb_neq in Hin, Hout. rewrite Hin, Hout. reflexivity.
Qed.

End Legality.

(** C1.  The legality check is a function of the record and the direction
    alone, and it answers as its cases are listed: an absent record gives
    RecordNotFound; IN with the punch-in set gives AlreadyPunchedIn; OUT
    with the punch-out set gives AlreadyPunchedOut; OUT with the punch-in
    unset gives PunchInRequired, on every record of the data model (a
    punch-out only beside a punch-in), which are the records the earlier
    case leaves; and every other request (IN on a record without punch-in,
    OUT on a record with punch-in and without punch-out, any other
    direction) passes. *)
Theorem validatePunchAttempt_cases :
  (forall punchType, validatePunchAttempt None punchType = Some RecordNotFound) /\
  (forall a, Js.truthy_str (v_punch_in_time a) = true ->
     validatePunchAttempt (Some a) PUNCH_TYPES_IN = Some AlreadyPunchedIn) /\
  (forall a, Js.truthy_str (v_punch_out_time a) = true ->
     validatePunchAttempt (Some a) PUNCH_TYPES_OUT = Some AlreadyPunchedOut) /\
  (forall a,
     (Js.truthy_str (v_punch_out_time a) = true ->
      Js.truthy_str (v_punch_in_time a) = true) ->
     Js.truthy_str (v_punch_in_time a) = false ->
     validatePunchAttempt (Some a) PUNCH_TYPES_OUT = Some PunchInRequired) /\
  (forall a punchType,
     ~ (punchType = PUNCH_TYPES_IN /\ Js.truthy_str (v_punch_in_time a) = true) ->
     ~ (punchType = PUNCH_TYPES_OUT /\ Js.truthy_str (v_punch_out_time a) = true) ->
     ~ (punchType = PUNCH_TYPES_OUT /\ Js.truthy_str (v_punch_in_time a) = false) ->
     validatePunchAttempt (Some a) punchType = None).
Proof.
  split; [reflexivity |].
  split; [exact validate_in_set |].
  split; [exact validate_out_set |].
  split.
  - intros a Hmodel Hin. apply validate_out_before_in; [exact Hin |].
    destruct (Js.truthy_str (v_punch_out_time a)); [| reflexivity].
    rewrite (Hmodel eq_refl) in Hin. discriminate.
  - intros a punchType Hin Hout Hreq.
    destruct (String.eqb_spec punchType PUNCH_TYPES_IN) as [-> | Nin].
    + apply validate_in_fresh.
      destruct (Js.truthy_str (v_punch_in_time a)); [| reflexivity].
      exfalso. apply Hin. split; reflexivity.
    + destruct (String.eqb_spec punchType PUNCH_TYPES_OUT) as [-> | Nout].
      * apply validate_out_open.
        -- destruct (Js.truthy_str (v_punch_in_time a)); [reflexivity |].
           exfalso. apply Hreq. split; reflexivity.
        -- destruct (Js.truthy_str (v_punch_out_time a)); [| reflexivity].
           exfalso. apply Hout. split; reflexivity.
      * now apply validate_other_direction.
Qed.

Lemma validatePunchAttempt_cases_witness :
  validatePunchAttempt (Some open_view) PUNCH_TYPES_IN = Some AlreadyPunchedIn /\
  validatePunchAttempt (Some closed_view) PUNCH_TYPES_OUT = Some AlreadyPunchedOut /\
  validatePunchAttempt (Some fresh_view) PUNCH_TYPES_OUT = Some PunchInRequired /\
  validatePunchAttempt (Some open_view) PUNCH_TYPES_OUT = None /\
  validatePunchAttempt (Some fresh_view) PUNCH_TYPES_IN = None.
Proof.
  destruct validatePunchAttempt_cases as (_ & Hin & Hout & Hreq & Hok).
  split; [apply (Hin open_view); reflexivity |].
  split; [apply (Hout closed_view); reflexivity |].
  split; [apply (Hreq fresh_view); [intros H; discriminate H | reflexivity] |].
  split.
  - apply (Hok open_view PUNCH_TYPES_OUT); intros [H1 H2]; discriminate.
  - apply (Hok fresh_view PUNCH_TYPES_IN); intros [H1 H2]; discriminate.
Defined.

(** ** The identity resolver *)

Lemma sql_eq_str_decide (column : option string) (value : string) :
  sql_eq_str column value = bool_decide (column = Some value).
Proof.
  unfold sql_eq_str. destruct column as [c |].
  - destruct (String.eqb_spec c value) as [-> | Hne].
    + symmetry. apply bool_decide_eq_true. reflexivity.
    + symmetry. apply bool_decide_eq_false. intros [= ->]. contradiction.
  - symmetry. apply bool_decide_eq_false. discriminate.
Qed.

Lemma update_employee_face_id_rows (faceId : string) (empId : Z) (d : db) :
  Forall2 (cache_repaired faceId empId) (employee d)
    (employee (update_employee_face_id faceId empId d)).
Proof.
  unfold update_employee_face_id; simpl.
  induction (employee d) as [| e l IH]; simpl; constructor; [| exact IH].
  unfold cache_repaired. rewrite sql_eq_str_decide.
  destruct ((e_emp_id e =? empId) && negb (bool_decide (e_face_id e = Some faceId)));
    reflexivity.
Qed.

Lemma update_employee_face_id_others (faceId : string) (empId : Z) (d : db) :
  let d' := update_employee_face_id faceId empId d in
  designation d' = designation d /\ wards d' = wards d /\ users d' = users d /\
  attendance d' = attendance d /\ attendance_id_seq d' = attendance_id_seq d.
Proof. repeat split. Qed.

Lemma set_db_same (w : world) : set_db (w_db w) w = w.
Proof. destruct w; reflexivity. Qed.

(** The first row of a query is the first row of the table that meets its
    condition. *)
Lemma head_select (p : employee_row -> bool) (d : db) :
  head (map to_ref (List.filter p (employee d))) = first_employee p d.
Proof.
  unfold first_employee. induction (employee d) as [| e l IH]; simpl; [reflexivity |].
  destruct (p e); [reflexivity | exact IH].
Qed.

Lemma first_employee_ext (p q : employee_row -> bool) (d : db) :
  (forall e, p e = q e) -> first_employee p d = first_employee q d.
Proof.
  intros H. unfold first_employee. f_equal.
  induction (employee d) as [| e l IH]; simpl; [reflexivity |].
  rewrite H, IH. reflexivity.
Qed.

Lemma lookup_by_face_select (d : db) (faceId : option string) :
  lookup_by_face d faceId
  = if Js.truthy_str faceId
    then head (select_employee_by_face_id d (default "" faceId)) else None.
Proof.
  unfold lookup_by_face, select_employee_by_face_id.
  destruct (Js.truthy_str faceId); [| reflexivity].
  rewrite head_select. apply first_employee_ext. intros e.
  symmetry. apply sql_eq_str_decide.
Qed.

Lemma pg_int4_reads (q : Q) : int4_value q -> exists n, pg_int4 q = Some n.
Proof.
  intros (n & Hq & Hlo & Hhi). exists n. unfold pg_int4. cbv zeta.
  assert (Hfloor : Qfloor q = n) by (rewrite <- Hq; apply Qfloor_Z).
  rewrite Hfloor.
  assert (Qeq_bool (inject_Z n) q = true) as -> by (apply Qeq_bool_iff, Hq).
  assert ((-2147483648 <=? n) = true) as -> by (apply Z.leb_le, Hlo).
  assert ((n <=? 2147483647) = true) as -> by (apply Z.leb_le, Hhi).
  reflexivity.
Qed.

Lemma pg_int4_refuses (q : Q) : ~ int4_value q -> pg_int4 q = None.
Proof.
  intros Hnot. unfold pg_int4. cbv zeta.
  destruct (Qeq_bool (inject_Z (Qfloor q)) q) eqn:Hq; [| reflexivity].
  destruct (-2147483648 <=? Qfloor q) eqn:Hlo; [| reflexivity].
  destruct (Qfloor q <=? 2147483647) eqn:Hhi; [| reflexivity].
  exfalso. apply Hnot. exists (Qfloor q).
  apply Qeq_bool_iff in Hq. apply Z.leb_le in Hlo, Hhi. repeat split; assumption.
Qed.

Lemma int4_value_dec (q : Q) : int4_value q \/ ~ int4_value q.
Proof.
  destruct (pg_int4 q) as [n |] eqn:H.
  - left. revert H. unfold pg_int4. cbv zeta.
    destruct (Qeq_bool (inject_Z (Qfloor q)) q) eqn:Hq; [| discriminate].
    destruct (-2147483648 <=? Qfloor q) eqn:Hlo; [| discriminate].
    destruct (Qfloor q <=? 2147483647) eqn:Hhi; [| discriminate].
    intros _. exists (Qfloor q).
    apply Qeq_bool_iff in Hq. apply Z.leb_le in Hlo, Hhi. repeat split; assumption.
  - right. intros Hv. destruct (pg_int4_reads q Hv) as (n & Hn). congruence.
Qed.

(** A lookup by identity finds an employee, finds nothing, or cannot be
    made. *)
Lemma id_lookup_cases (d : db) (id : option Q) :
  (exists r, id_finds d id r) \/ id_finds_nothing d id \/ id_malformed id.
Proof.
  destruct id as [q |]; [| right; left; left; reflexivity].
  destruct (int4_value_dec q) as [Hv | Hv]; [| right; right; exists q; split; trivial].
  destruct (first_employee (fun e => Qeq_bool (inject_Z (e_emp_id e)) q) d) as [r |] eqn:Hf.
  - left. exists r, q. repeat split; assumption.
  - right. left. right. exists q. repeat split; assumption.
Qed.

Lemma id_finds_row (d : db) (id : option Q) (r : employee_ref) :
  id_finds d id r ->
  exists e q, In e (employee d) /\ to_ref e = r /\ id = Some q /\
              key_eq (e_emp_id e) q = true.
Proof.
  intros (q & -> & _ & Hf). unfold first_employee in Hf.
  destruct (find _ (employee d)) as [e |] eqn:Hfind; [| discriminate].
  injection Hf as <-. apply find_some in Hfind as [Hin Hk].
  exists e, q. repeat split; assumption.
Qed.

Section Resolver.

Context {image : Type}.
Variable env : environment image.

Lemma tryResolveByEmpId_finds (id : option Q) (r : employee_ref) (w : world) :
  id_finds (w_db w) id r -> tryResolveByEmpId id w = (Return (Some r), w).
Proof.
  intros (q & -> & Hv & Hf). unfold tryResolveByEmpId, bind, get_db.
  destruct (pg_int4_reads q Hv) as (n & ->).
  unfold select_employee_by_emp_id, ret. rewrite head_select. unfold key_eq.
  rewrite Hf. reflexivity.
Qed.

Lemma tryResolveByEmpId_nothing (id : option Q) (w : world) :
  id_finds_nothing (w_db w) id -> tryResolveByEmpId id w = (Return None, w).
Proof.
  intros [-> | (q & -> & Hv & Hf)]; [reflexivity |].
  unfold tryResolveByEmpId, bind, get_db.
  destruct (pg_int4_reads q Hv) as (n & ->).
  unfold select_employee_by_emp_id, ret. rewrite head_select. unfold key_eq.
  rewrite Hf. reflexivity.
Qed.

Lemma tryResolveByEmpId_malformed (id : option Q) (w : world) :
  id_malformed id ->
  tryResolveByEmpId id w
  = (Throw (pg_error "invalid input syntax for type integer"), w).
Proof.
  intros (q & -> & Hv). unfold tryResolveByEmpId, bind, get_db.
  rewrite (pg_int4_refuses q Hv). reflexivity.
Qed.

Variables (faceId : option string) (matchedExternalId requestedEmpId : option Q).
Variable w : world.

Let d := w_db w.
Let run := resolveEmployeeFromFaceIdentifiers env faceId matchedExternalId requestedEmpId w.

(** Lookups (b) and (c) in their order find [row]. *)
Let found_by_id (row : employee_ref) : Prop :=
  id_finds d matchedExternalId row \/
  (id_finds_nothing d matchedExternalId /\ id_finds d requestedEmpId row).

(** (a) wins whenever it finds a row, and then nothing is written. *)
Lemma resolve_by_face (row : employee_ref) :
  lookup_by_face d faceId = Some row -> run = (Return (Some row), w).
Proof.
  rewrite lookup_by_face_select.
  unfold run, resolveEmployeeFromFaceIdentifiers, bind, get_db, d.
  destruct (Js.truthy_str faceId); [| discriminate].
  destruct (select_employee_by_face_id (w_db w) (default "" faceId)); [discriminate |].
  simpl. intros [= ->]. reflexivity.
Qed.

(** After a miss of (a) the resolver goes on with (b) and (c). *)
Lemma resolve_after_miss :
  lookup_by_face d faceId = None ->
  run
  = (let! employeeRecord := tryResolveByEmpId matchedExternalId in
     let! employeeRecord :=
       match employeeRecord with
       | Some r => ret (Some r)
       | None => tryResolveByEmpId requestedEmpId
       end in
     match employeeRecord with
     | Some r =>
         if Js.truthy_str faceId then
           let! _ :=
             try_catch (query_update_face_id env (default "" faceId) (ref_emp_id r))
                       (fun _ => ret tt) in
           ret employeeRecord
         else ret employeeRecord
     | None => ret employeeRecord
     end) w.
Proof.
  rewrite lookup_by_face_select.
  unfold run, resolveEmployeeFromFaceIdentifiers, d.
  unfold bind at 1. unfold get_db.
  destruct (Js.truthy_str faceId); [| reflexivity].
  destruct (select_employee_by_face_id (w_db w) (default "" faceId)); [| discriminate].
  reflexivity.
Qed.

(** A hit of (b), or of (c) after (b) found nothing: the result and the
    world. *)
Lemma resolve_by_ids (row : employee_ref) :
  lookup_by_face d faceId = None -> found_by_id row ->
  run = (Return (Some row),
         if Js.truthy_str faceId
            && negb (face_id_update_throws env (default "" faceId) (ref_emp_id row))
         then set_db (update_employee_face_id (default "" faceId) (ref_emp_id row) d) w
         else w).
Proof.
  intros Hmiss Hfound. rewrite (resolve_after_miss Hmiss).
  assert (Hfirst : forall r0 w0, (let! employeeRecord :=
                      match Some r0 with
                      | Some r => ret (Some r)
                      | None => tryResolveByEmpId requestedEmpId
                      end in
                    match employeeRecord with
                    | Some r =>
                        if Js.truthy_str faceId then
                          let! _ :=
                            try_catch
                              (query_update_face_id env (default "" faceId) (ref_emp_id r))
                              (fun _ => ret tt) in
                          ret employeeRecord
                        else ret employeeRecord
                    | None => ret employeeRecord
                    end) w0
                   = (Return (Some r0),
                      if Js.truthy_str faceId
                         && negb (face_id_update_throws env (default "" faceId)
                                    (ref_emp_id r0))
                      then set_db (update_employee_face_id (default "" faceId)
                                     (ref_emp_id r0) (w_db w0)) w0
                      else w0)).
  { intros r0 w0. unfold bind, ret, try_catch, query_update_face_id.
    destruct (Js.truthy_str faceId); [| reflexivity].
    destruct (face_id_update_throws env (default "" faceId) (ref_emp_id r0)); reflexivity. }
  destruct Hfound as [Hb | [Hb Hc]].
  - erewrite bind_return by (apply tryResolveByEmpId_finds; exact Hb).
    apply Hfirst.
  - erewrite bind_return by (apply tryResolveByEmpId_nothing; exact Hb).
    erewrite bind_return by (apply tryResolveByEmpId_finds; exact Hc).
    specialize (Hfirst row w). unfold bind in Hfirst at 1. unfold ret in Hfirst at 1.
    exact Hfirst.
Qed.

(** When (a), (b) and (c) find nothing, nothing is returned or written. *)
Lemma resolve_none :
  lookup_by_face d faceId = None ->
  id_finds_nothing d matchedExternalId -> id_finds_nothing d requestedEmpId ->
  run = (Return None, w).
Proof.
  intros Hmiss Hb Hc. rewrite (resolve_after_miss Hmiss).
  erewrite bind_return by (apply tryResolveByEmpId_nothing; exact Hb).
  erewrite bind_return by (apply tryResolveByEmpId_nothing; exact Hc).
  reflexivity.
Qed.

(** A lookup that is reached and cannot be made rejects the resolution. *)
Lemma resolve_malformed :
  lookup_by_face d faceId = None ->
  id_malformed matchedExternalId \/
  (id_finds_nothing d matchedExternalId /\ id_malformed requestedEmpId) ->
  run = (Throw (pg_error "invalid input syntax for type integer"), w).
Proof.
  intros Hmiss [Hb | [Hb Hc]]; rewrite (resolve_after_miss Hmiss).
  - erewrite bind_throw by (apply tryResolveByEmpId_malformed; exact Hb). reflexivity.
  - erewrite bind_return by (apply tryResolveByEmpId_nothing; exact Hb).
    erewrite bind_throw by (apply tryResolveByEmpId_malformed; exact Hc). reflexivity.
Qed.

(** The four ways a resolution can go. *)
Lemma resolver_cases :
  (exists row, lookup_by_face d faceId = Some row) \/
  (lookup_by_face d faceId = None /\
   ((exists row, found_by_id row) \/
    (id_finds_nothing d matchedExternalId /\ id_finds_nothing d requestedEmpId) \/
    (id_malformed matchedExternalId \/
     (id_finds_nothing d matchedExternalId /\ id_malformed requestedEmpId)))).
Proof.
  destruct (lookup_by_face d faceId) as [row |]; [left; eauto |].
  right. split; [reflexivity |].
  destruct (id_lookup_cases d matchedExternalId) as [(r & Hb) | [Hb | Hb]].
  - left. exists r. left. exact Hb.
  - destruct (id_lookup_cases d requestedEmpId) as [(r & Hc) | [Hc | Hc]].
    + left. exists r. right. split; assumption.
    + right. left. split; assumption.
    + right. right. right. split; assumption.
  - right. right. left. exact Hb.
Qed.

(** A resolution that returns an employee after a miss of (a) found it by
    (b) or (c). *)
Lemma resolve_returned (row : employee_ref) :
  lookup_by_face d faceId = None -> fst run = Return (Some row) -> found_by_id row.
Proof.
  intros Hmiss Hres.
  destruct resolver_cases as [(r & Hhit) | (_ & [(r & Hfound) | [[Hb Hc] | Hbad]])].
  - congruence.
  - rewrite (resolve_by_ids r Hmiss Hfound) in Hres. injection Hres as <-. exact Hfound.
  - rewrite (resolve_none Hmiss Hb Hc) in Hres. discriminate.
  - rewrite (resolve_malformed Hmiss Hbad) in Hres. discriminate.
Qed.

End Resolver.

(** C9.  The resolver tries (a) the cached biometric identifier, (b) the
    candidate identity tagged by the recognition service, (c) the identity
    requested by the caller, in this order, and the first lookup that finds
    a row decides the result and keeps the later ones from being made.  A
    hit of (a) writes nothing.  After a hit of (b) or (c) with a biometric
    identifier supplied, the write touches only rows of the resolved
    employee whose cached identifier is null or different and sets that
    column of them to the observed identifier; when that write fails the
    resolution still returns the employee and the store is as before.  A
    lookup by an identity that is no integer of the column, when it is
    reached, rejects the resolution without writing. *)
Theorem resolver_order_and_cache_repair {image : Type} (env : environment image)
    (faceId : option string) (matchedExternalId requestedEmpId : option Q) (w : world) :
  let d := w_db w in
  let run := resolveEmployeeFromFaceIdentifiers env faceId matchedExternalId requestedEmpId w in
  (forall row, lookup_by_face d faceId = Some row -> run = (Return (Some row), w)) /\
  (lookup_by_face d faceId = None ->
   (forall row, id_finds d matchedExternalId row -> fst run = Return (Some row)) /\
   (id_finds_nothing d matchedExternalId ->
      (forall row, id_finds d requestedEmpId row -> fst run = Return (Some row)) /\
      (id_finds_nothing d requestedEmpId -> run = (Return None, w))) /\
   (id_malformed matchedExternalId \/
    (id_finds_nothing d matchedExternalId /\ id_malformed requestedEmpId) ->
      exists error, run = (Throw error, w)) /\
   (forall row f, fst run = Return (Some row) -> faceId = Some f -> f <> "" ->
      (face_id_update_throws env f (ref_emp_id row) = false ->
         Forall2 (cache_repaired f (ref_emp_id row)) (employee d)
           (employee (w_db (snd run))) /\
         designation (w_db (snd run)) = designation d /\
         wards (w_db (snd run)) = wards d /\
         users (w_db (snd run)) = users d /\
         attendance (w_db (snd run)) = attendance d /\
         attendance_id_seq (w_db (snd run)) = attendance_id_seq d) /\
      (face_id_update_throws env f (ref_emp_id row) = true -> snd run = w)) /\
   (Js.truthy_str faceId = false -> snd run = w)).
Proof.
  intros d run.
  split; [intros row Hhit; exact (resolve_by_face env _ _ _ w row Hhit) |].
  intros Hmiss.
  split; [| split; [| split; [| split]]].
  - intros row Hb. unfold run.
    rewrite (resolve_by_ids env _ _ _ w row Hmiss (or_introl Hb)). reflexivity.
  - intros Hb. split.
    + intros row Hc. unfold run.
      rewrite (resolve_by_ids env _ _ _ w row Hmiss (or_intror (conj Hb Hc))). reflexivity.
    + intros Hc. exact (resolve_none env _ _ _ w Hmiss Hb Hc).
  - intros Hbad. eexists. exact (resolve_malformed env _ _ _ w Hmiss Hbad).
  - intros row f Hres -> Hne.
    pose proof (resolve_returned env _ _ _ w row Hmiss Hres) as Hfound.
    pose proof (resolve_by_ids env _ _ _ w row Hmiss Hfound) as Hrun.
    assert (Ht : Js.truthy_str (Some f) = true).
    { simpl. apply String.eqb_neq in Hne. rewrite Hne. reflexivity. }
    rewrite Ht in Hrun. simpl default in Hrun. fold run in Hrun.
    split; intros Hthrow; rewrite Hthrow in Hrun; cbn [andb negb] in Hrun; rewrite Hrun.
    + simpl. split; [apply update_employee_face_id_rows |]. repeat split.
    + reflexivity.
  - intros Hno.
    destruct (resolver_cases faceId matchedExternalId requestedEmpId w)
      as [(r & Hhit) | (_ & [(r & Hfound) | [[Hb Hc] | Hbad]])].
    + fold d in Hhit. congruence.
    + unfold run. rewrite (resolve_by_ids env _ _ _ w r Hmiss Hfound), Hno. reflexivity.
    + unfold run. rewrite (resolve_none env _ _ _ w Hmiss Hb Hc). reflexivity.
    + unfold run. rewrite (resolve_malformed env _ _ _ w Hmiss Hbad). reflexivity.
Qed.

Lemma resolver_order_and_cache_repair_witness :
  let run := resolveEmployeeFromFaceIdentifiers Sample.env (Some "f-9")
               (Some (inject_Z 2)) (Some (5 # 2)) Sample.start in
  fst run = Return (Some (mkRef 2 (Some "Birju"))) /\
  employee (w_db (snd run))
  = [Sample.asha;
     mkEmployee 2 (Some "Birju") (Some "E002") (Some "f-9") (Some "faces/birju.jpg")
       (Some 10) None].
Proof.
  pose proof (resolver_order_and_cache_repair Sample.env (Some "f-9")
                (Some (inject_Z 2)) (Some (5 # 2)) Sample.start) as H.
  cbv zeta in H. destruct H as (_ & H). specialize (H eq_refl).
  destruct H as (Hb & _ & _ & Hcache & _).
  assert (Hfinds : id_finds (w_db Sample.start) (Some (inject_Z 2)) (mkRef 2 (Some "Birju"))).
  { exists (inject_Z 2). split; [reflexivity |]. split; [| reflexivity].
    exists 2. split; [reflexivity | lia]. }
  split; [exact (Hb _ Hfinds) |].
  destruct (Hcache (mkRef 2 (Some "Birju")) "f-9" (Hb _ Hfinds) eq_refl) as [Hok _].
  { discriminate. }
  destruct (Hok eq_refl) as [_ _]. reflexivity.
Defined.

(** ** The attendance record store *)

Lemma flat_map_nil {A B : Type} (f : A -> list B) (l : list A) :
  (forall x, In x l -> f x = []) -> flat_map f l = [].
Proof.
  induction l as [| x l IH]; simpl; intros H; [reflexivity |].
  rewrite (H x (or_introl eq_refl)), IH; [reflexivity |].
  intros y Hy. apply H. right. exact Hy.
Qed.

Lemma select_joined_no_row (d : db) (emp_id : Z) (date : string) :
  has_attendance d emp_id date = false -> select_attendance_joined d emp_id date = [].
Proof.
  unfold has_attendance, select_attendance_joined. intros H.
  apply flat_map_nil. intros a Ha.
  destruct (sql_eq_Z (a_emp_id a) emp_id && String.eqb (a_date a) date) eqn:E;
    [| reflexivity].
  assert (existsb (fun a => sql_eq_Z (a_emp_id a) emp_id && String.eqb (a_date a) date)
                  (attendance d) = true) as Hex.
  { apply existsb_exists. exists a. split; assumption. }
  congruence.
Qed.

Lemma select_joined_unjoined (d : db) (emp_id : Z) (date : string) :
  employee_joined d emp_id = [] -> select_attendance_joined d emp_id date = [].
Proof.
  unfold select_attendance_joined. intros H. apply flat_map_nil. intros a _.
  rewrite H. destruct (_ && _); reflexivity.
Qed.

Section Store.

Context {image : Type}.
Variable env : environment image.
Variables (date : string) (w : world).

Let d := w_db w.

Lemma getOrCreate_requires_id (emp_id : option Z) :
  Js.truthy_id emp_id = false ->
  getOrCreateAttendanceRecord env emp_id date w
  = (Throw (new_Error "Employee ID is required"), w).
Proof. unfold getOrCreateAttendanceRecord. intros ->. reflexivity. Qed.

Lemma getOrCreate_found (e : Z) (row : attendance_view) (rest : list attendance_view) :
  e <> 0 -> select_attendance_joined d e date = row :: rest ->
  getOrCreateAttendanceRecord env (Some e) date w = (Return row, w).
Proof.
  intros He Hsel. unfold getOrCreateAttendanceRecord, Js.truthy_id.
  apply Z.eqb_neq in He. rewrite He. simpl.
  unfold bind, get_db. fold d. rewrite Hsel. reflexivity.
Qed.

Lemma getOrCreate_rejected (e : Z) (err : js_error) :
  e <> 0 -> select_attendance_joined d e date = [] ->
  fst (insert_attendance env e date (current_ward d e) w) = Throw err ->
  getOrCreateAttendanceRecord env (Some e) date w = (Throw err, w).
Proof.
  intros He Hsel. unfold getOrCreateAttendanceRecord, Js.truthy_id.
  apply Z.eqb_neq in He. rewrite He. simpl.
  unfold bind at 1. unfold get_db. fold d. rewrite Hsel.
  fold (current_ward d e). unfold bind at 1.
  unfold insert_attendance. fold d.
  destruct (fk_attendance_employee env && _); simpl.
  - intros [= ->]. reflexivity.
  - destruct (unique_employee_date env && _); simpl.
    + intros [= ->]. reflexivity.
    + discriminate.
Qed.

(** The create path: the row appended and the record returned. *)
Lemma getOrCreate_created (e : Z) :
  e <> 0 -> select_attendance_joined d e date = [] ->
  fk_attendance_employee env && negb (employee_exists d e) = false ->
  unique_employee_date env && has_attendance d e date = false ->
  exists v,
    getOrCreateAttendanceRecord env (Some e) date w
    = (Return v,
       set_db (mkDb (employee d) (designation d) (wards d) (users d)
                 (attendance d
                  ++ [new_attendance_row (attendance_id_seq d) e date (current_ward d e)])
                 (attendance_id_seq d + 1)) w) /\
    v_attendance_id v = attendance_id_seq d /\ v_emp_id v = e /\ v_date v = date /\
    v_ward_id v = current_ward d e /\
    v_punch_in_time v = None /\ v_punch_out_time v = None.
Proof.
  intros He Hsel Hfk Huq. unfold getOrCreateAttendanceRecord, Js.truthy_id.
  apply Z.eqb_neq in He. rewrite He. simpl.
  unfold bind at 1. unfold get_db at 1. fold d. rewrite Hsel.
  fold (current_ward d e). unfold bind at 1.
  unfold insert_attendance. fold d.
  unfold employee_exists in Hfk. unfold has_attendance in Huq.
  rewrite Hfk, Huq. unfold bind, get_db. simpl.
  destruct (employee_joined _ e) as [| [[emp dg] wd] l]; eexists; (split; [reflexivity |]);
    simpl; repeat split.
Qed.

End Store.

Lemma getOrCreate_never_NotFound {image : Type} (env : environment image)
    (emp_id : option Z) (date : string) (w : world) (err : js_error) :
  fst (getOrCreateAttendanceRecord env emp_id date w) = Throw err ->
  is_NotFound err = false.
Proof.
  destruct (Js.truthy_id emp_id) eqn:Hid.
  - destruct emp_id as [e |]; [| discriminate]. simpl in Hid.
    assert (He : e <> 0) by (intros ->; discriminate).
    destruct (select_attendance_joined (w_db w) e date) as [| row rest] eqn:Hsel.
    + destruct (fst (insert_attendance env e date (current_ward (w_db w) e) w)) as [r | err']
        eqn:Hins.
      * revert Hins. unfold insert_attendance.
        destruct (fk_attendance_employee env && _) eqn:Hfk; [discriminate |].
        destruct (unique_employee_date env && _) eqn:Huq; [discriminate |].
        intros _.
        destruct (getOrCreate_created env date w e He Hsel Hfk) as (v & Hrun & _).
        { unfold has_attendance. exact Huq. }
        rewrite Hrun. discriminate.
      * rewrite (getOrCreate_rejected env date w e err' He Hsel Hins). simpl.
        intros [= <-]. revert Hins. unfold insert_attendance.
        destruct (fk_attendance_employee env && _); [intros [= <-]; reflexivity |].
        destruct (unique_employee_date env && _); [intros [= <-]; reflexivity |].
        discriminate.
    + rewrite (getOrCreate_found env date w e row rest He Hsel). discriminate.
  - rewrite getOrCreate_requires_id by exact Hid. intros [= <-]. reflexivity.
Qed.

(** C5, as stated, fails: for an identity that names no employee the call
    does not fail with NotFound.  Without a foreign key on the attendance
    table it returns a fresh record and stores a row for the unknown
    identity; with one, the insert is refused by the data layer. *)
Lemma getOrCreate_unknown_employee_counterexample :
  employee_exists Sample.store 999 = false /\
  (let run := getOrCreateAttendanceRecord (Sample.services (Some "bucket") false false [])
                (Some 999) "2025-03-14" Sample.start in
   (exists v, fst run = Return v /\ v_attendance_id v = 1 /\ v_ward_id v = None) /\
   has_attendance (w_db (snd run)) 999 "2025-03-14" = true) /\
  (let run := getOrCreateAttendanceRecord (Sample.services (Some "bucket") true false [])
                (Some 999) "2025-03-14" Sample.start in
   run = (Throw fk_violation, Sample.start) /\ is_NotFound fk_violation = false).
Proof.
  split; [reflexivity |]. split.
  - split; [| reflexivity]. eexists. split; [reflexivity |]. split; reflexivity.
  - split; reflexivity.
Qed.

(** C5 (amended).  [getOrCreateAttendanceRecord] throws "Employee ID is
    required" when the identity is missing or falsy; it returns the first
    row of the joined read for the employee and date when there is one and
    then changes nothing; when no attendance row is stored for the employee
    and date it inserts one seeded with the ward the employee row holds now
    (null when there is no employee row) and returns it, unless a foreign
    key refuses the insert for an unknown employee; and no failure of it is
    a NotFound. *)
Theorem getOrCreate_cases {image : Type} (env : environment image)
    (date : string) (w : world) :
  let d := w_db w in
  (forall emp_id, Js.truthy_id emp_id = false ->
     getOrCreateAttendanceRecord env emp_id date w
     = (Throw (new_Error "Employee ID is required"), w)) /\
  (forall e row rest, e <> 0 -> select_attendance_joined d e date = row :: rest ->
     getOrCreateAttendanceRecord env (Some e) date w = (Return row, w)) /\
  (forall e, e <> 0 -> has_attendance d e date = false ->
     fk_attendance_employee env && negb (employee_exists d e) = false ->
     exists v,
       fst (getOrCreateAttendanceRecord env (Some e) date w) = Return v /\
       v_attendance_id v = attendance_id_seq d /\ v_emp_id v = e /\ v_date v = date /\
       v_ward_id v = current_ward d e /\
       attendance (w_db (snd (getOrCreateAttendanceRecord env (Some e) date w)))
       = (attendance d
          ++ [new_attendance_row (attendance_id_seq d) e date (current_ward d e)])%list) /\
  (forall e, e <> 0 -> has_attendance d e date = false ->
     fk_attendance_employee env = true -> employee_exists d e = false ->
     getOrCreateAttendanceRecord env (Some e) date w = (Throw fk_violation, w)) /\
  (forall emp_id err,
     fst (getOrCreateAttendanceRecord env emp_id date w) = Throw err ->
     is_NotFound err = false).
Proof.
  intros d. split; [| split; [| split; [| split]]].
  - intros emp_id H. now apply getOrCreate_requires_id.
  - intros e row rest He H. now apply (getOrCreate_found env date w e row rest).
  - intros e He Hno Hfk.
    destruct (getOrCreate_created env date w e He) as (v & Hrun & Hid & Hemp & Hdate & Hward & _).
    + now apply select_joined_no_row.
    + exact Hfk.
    + fold d. rewrite Hno. apply andb_false_r.
    + exists v. fold d in Hrun. rewrite Hrun. simpl. repeat split; assumption.
  - intros e He Hno Hfk Hex.
    apply getOrCreate_rejected; [exact He | now apply select_joined_no_row |].
    unfold insert_attendance. unfold employee_exists in Hex. fold d.
    rewrite Hfk, Hex. reflexivity.
  - intros emp_id err. apply getOrCreate_never_NotFound.
Qed.

Lemma getOrCreate_cases_witness :
  exists v,
    fst (getOrCreateAttendanceRecord Sample.env (Some 1) "2025-03-14" Sample.start)
    = Return v /\
    v_attendance_id v = 1 /\ v_ward_id v = Some 10.
Proof.
  destruct (getOrCreate_cases Sample.env "2025-03-14" Sample.start)
    as (_ & _ & Hcreate & _).
  destruct (Hcreate 1) as (v & Hrun & Hid & _ & _ & Hward & _);
    [discriminate | reflexivity | reflexivity |].
  exists v. split; [exact Hrun |]. split; [exact Hid | exact Hward].
Defined.

Lemma select_attendance_joined_rows (d : db) (emp_id : Z) (date : string) :
  select_attendance_joined d emp_id date
  = joined_rows (employee_joined d emp_id) emp_id date (attendance d).
Proof. reflexivity. Qed.

Lemma joined_rows_app js emp_id date (l1 l2 : list attendance_row) :
  joined_rows js emp_id date (l1 ++ l2)
  = (joined_rows js emp_id date l1 ++ joined_rows js emp_id date l2)%list.
Proof. unfold joined_rows. apply flat_map_app. Qed.

Lemma select_joined_after_insert (d : db) (row : attendance_row) (seq emp_id : Z)
    (date : string) :
  select_attendance_joined
    (mkDb (employee d) (designation d) (wards d) (users d) (attendance d ++ [row]) seq)
    emp_id date
  = (select_attendance_joined d emp_id date
     ++ joined_rows (employee_joined d emp_id) emp_id date [row])%list.
Proof.
  rewrite !select_attendance_joined_rows. simpl attendance.
  rewrite joined_rows_app. reflexivity.
Qed.

(** Where the employee has a designation and a ward, the joined read finds
    the record a call has returned, in the world that call leaves. *)
Lemma getOrCreate_then_select {image : Type} (env : environment image)
    (e : Z) (date : string) (w w1 : world) (v : attendance_view) :
  employee_joined (w_db w) e <> [] ->
  getOrCreateAttendanceRecord env (Some e) date w = (Return v, w1) ->
  e <> 0 /\
  exists v' rest,
    select_attendance_joined (w_db w1) e date = v' :: rest /\
    v_attendance_id v' = v_attendance_id v.
Proof.
  intros Hj Hrun.
  destruct (Z.eq_dec e 0) as [-> | He].
  { rewrite getOrCreate_requires_id in Hrun by reflexivity. discriminate. }
  split; [exact He |].
  destruct (select_attendance_joined (w_db w) e date) as [| row rest] eqn:Hsel.
  - destruct (fst (insert_attendance env e date (current_ward (w_db w) e) w)) as [r | err]
      eqn:Hins.
    + revert Hins. unfold insert_attendance.
      destruct (fk_attendance_employee env && _) eqn:Hfk; [discriminate |].
      destruct (unique_employee_date env && _) eqn:Huq; [discriminate |].
      intros _.
      destruct (getOrCreate_created env date w e He Hsel Hfk Huq)
        as (v0 & Hrun0 & Hid & _).
      rewrite Hrun0 in Hrun. injection Hrun as -> <-.
      destruct (employee_joined (w_db w) e) as [| [[emp dg] wd] js] eqn:Hjs; [congruence |].
      eexists _, _. split.
      * simpl w_db. rewrite select_joined_after_insert, Hsel, Hjs. simpl.
        unfold sql_eq_Z. simpl. rewrite Z.eqb_refl, String.eqb_refl. simpl. reflexivity.
      * simpl. symmetry. exact Hid.
    + rewrite (getOrCreate_rejected env date w e err He Hsel Hins) in Hrun. discriminate.
  - rewrite (getOrCreate_found env date w e row rest He Hsel) in Hrun.
    injection Hrun as -> <-. exists v, rest. split; [exact Hsel | reflexivity].
Qed.

(** Hence a second call returns the same identity and writes nothing. *)
Lemma getOrCreate_twice_joined {image : Type} (env : environment image)
    (e : Z) (date : string) (w w1 : world) (v : attendance_view) :
  employee_joined (w_db w) e <> [] ->
  getOrCreateAttendanceRecord env (Some e) date w = (Return v, w1) ->
  exists v',
    getOrCreateAttendanceRecord env (Some e) date w1 = (Return v', w1) /\
    v_attendance_id v' = v_attendance_id v.
Proof.
  intros Hj Hrun.
  destruct (getOrCreate_then_select env e date w w1 v Hj Hrun) as (He & v' & rest & Hsel & Hid).
  exists v'. split; [| exact Hid].
  now apply (getOrCreate_found env date w1 e v' rest).
Qed.

(** C6, at the failing input.  Employee 2 exists but has no designation, so
    the joined read of the second call does not see the row the first call
    inserted: without a uniqueness constraint the second call inserts a
    second row and returns another identity, and with one it is refused. *)
Theorem getOrCreate_twice_without_designation :
  employee_exists Sample.store 2 = true /\
  employee_joined Sample.store 2 = [] /\
  (let env := Sample.services (Some "bucket") false false [] in
   let first := getOrCreateAttendanceRecord env (Some 2) "2025-03-14" Sample.start in
   let second := getOrCreateAttendanceRecord env (Some 2) "2025-03-14" (snd first) in
   exists v1 v2,
     fst first = Return v1 /\ fst second = Return v2 /\
     v_attendance_id v1 = 1 /\ v_attendance_id v2 = 2 /\
     map a_attendance_id (attendance (w_db (snd second))) = [1; 2] /\
     map a_emp_id (attendance (w_db (snd second))) = [Some 2; Some 2]) /\
  (let env := Sample.services (Some "bucket") false true [] in
   let first := getOrCreateAttendanceRecord env (Some 2) "2025-03-14" Sample.start in
   let second := getOrCreateAttendanceRecord env (Some 2) "2025-03-14" (snd first) in
   (exists v1, fst first = Return v1 /\ v_attendance_id v1 = 1) /\
   second = (Throw unique_violation, snd first)).
Proof.
  split; [reflexivity |]. split; [reflexivity |]. split.
  - do 2 eexists. repeat split; reflexivity.
  - split; [eexists; split; reflexivity | reflexivity].
Qed.

(** ** The punch processor *)

Section Processor.

Context {image : Type}.
Variable env : environment image.

Lemma resolveAttendanceEmployeeId_run (attendanceId : Z) (w : world) :
  resolveAttendanceEmployeeId env attendanceId w
  = (Return (attendance_employee env (w_db w) attendanceId), w).
Proof.
  unfold resolveAttendanceEmployeeId, attendance_employee.
  destruct (attendanceId =? 0); [reflexivity |].
  unfold bind, get_db.
  destruct (attendance_emp_select_throws env attendanceId); [reflexivity |].
  destruct (select_attendance_emp (w_db w) attendanceId); reflexivity.
Qed.

Lemma resolvePunchActor_run (rawUserId : option string) (w : world) :
  resolvePunchActor env rawUserId w = (Return (punch_actor env (w_db w) rawUserId), w).
Proof.
  unfold resolvePunchActor, punch_actor.
  destruct (normalizeId env rawUserId) as [n |]; [| reflexivity].
  unfold bind, get_db.
  destruct (users_select_throws env n); [reflexivity |].
  destruct (List.filter _ (users (w_db w))); reflexivity.
Qed.

Lemma set_punch_id isPunchIn now loc img actor (a : attendance_row) :
  a_attendance_id (set_punch isPunchIn now loc img actor a) = a_attendance_id a.
Proof. destruct isPunchIn; reflexivity. Qed.

Lemma updated_rows_returned (attendanceId : Z) (f : attendance_row -> attendance_row)
    (rows : list attendance_row) :
  (forall a, a_attendance_id (f a) = a_attendance_id a) ->
  List.filter (fun a => a_attendance_id a =? attendanceId)
              (update_attendance_rows attendanceId f rows)
  = map f (List.filter (fun a => a_attendance_id a =? attendanceId) rows).
Proof.
  intros Hid. unfold update_attendance_rows.
  induction rows as [| a rows IH]; simpl; [reflexivity |].
  destruct (a_attendance_id a =? attendanceId) eqn:E; simpl.
  - rewrite Hid, E, IH. reflexivity.
  - rewrite E, IH. reflexivity.
Qed.

(** The durable update and what it returns, when the row exists. *)
Lemma query_update_attendance_run (attendanceId : Z) (isPunchIn : bool)
    (loc : location_data) (img : option string) (actor : option Z) (w : world)
    (row : attendance_row) (rest : list attendance_row) :
  select_attendance_by_id (w_db w) attendanceId = row :: rest ->
  let f := set_punch isPunchIn (w_now w) loc img actor in
  query_update_attendance attendanceId isPunchIn loc img actor w
  = (Return (f row :: map f rest), set_db (punched_db (w_db w) attendanceId f) w).
Proof.
  intros Hrow f. unfold query_update_attendance, punched_db.
  rewrite updated_rows_returned by (intros a; apply set_punch_id).
  unfold select_attendance_by_id in Hrow. rewrite Hrow. reflexivity.
Qed.

End Processor.

Section Skipped.

Context {image : Type}.
Variable env : environment image.


End Skipped.



Section Mismatch.

Context {image : Type}.
Variable env : environment image.

Lemma ensureFaceMatch_mismatch (employeeId : Z) (attendanceKey : string) (threshold : Q)
    (w : world) (bucket faceKey : string) (faceEmbedding : option string)
    (others : list (option string)) (matches : list compare_match) :
  AWS_S3_BUCKET env = Some bucket -> bucket <> "" ->
  employeeId <> 0 ->
  select_face_embedding (w_db w) employeeId = faceEmbedding :: others ->
  Js.truthy_str faceEmbedding = true ->
  resolveS3ObjectKey env faceEmbedding = Some faceKey -> faceKey <> "" ->
  compareFaces env bucket faceKey attendanceKey threshold = Return matches ->
  mismatch matches threshold = true ->
  ensureFaceMatch env (Some employeeId) attendanceKey threshold w
  = (Throw (FaceMismatch (best_similarity matches) threshold),
     log_call (CallCompareFaces faceKey attendanceKey threshold) w).
Proof.
  intros Hb Hbne He Hsel Hemb Hkey Hkne Hcmp Hmis.
  unfold ensureFaceMatch. rewrite Hb.
  apply String.eqb_neq in Hbne, Hkne. apply Z.eqb_neq in He.
  simpl. rewrite Hbne, He. simpl.
  unfold bind at 1. unfold get_db. rewrite Hsel, Hemb. simpl negb. cbv iota.
  rewrite Hkey, Hkne.
  unfold bind, try_catch, call. rewrite Hcmp.
  destruct matches as [| m ms]; [reflexivity |].
  simpl in Hmis. simpl. rewrite Hmis. reflexivity.
Qed.

End Mismatch.

(** C2.  When face verification is required and the comparison is made,
    a best similarity below the threshold, or no match at all, makes
    [processPunch] fail with the mismatch error, which carries the observed
    score and the threshold; the store is left exactly as it was, so no
    field of the attendance record changes. *)
Theorem processPunch_face_mismatch {image : Type} (env : environment image)
    (attendanceId : Z) (punchType : string)
    (buffer : image) (userId : option string) (loc : location_data)
    (options : punch_options) (w : world) (u : upload_result)
    (key bucket faceKey : string) (employeeId : Z) (faceEmbedding : option string)
    (others : list (option string)) (matches : list compare_match) :
  let threshold :=
    default (DEFAULT_FACE_MATCH_THRESHOLD env) (opt_faceMatchThreshold options) in
  opt_requireFaceMatch options = true ->
  uploadAttendanceImage env buffer (evidence_name attendanceId punchType) = Return (Some u) ->
  upload_key u = Some key -> key <> "" ->
  AWS_S3_BUCKET env = Some bucket -> bucket <> "" ->
  resolved_employee env (w_db w) options attendanceId = Some employeeId ->
  employeeId <> 0 ->
  select_face_embedding (w_db w) employeeId = faceEmbedding :: others ->
  Js.truthy_str faceEmbedding = true ->
  resolveS3ObjectKey env faceEmbedding = Some faceKey -> faceKey <> "" ->
  compareFaces env bucket faceKey key threshold = Return matches ->
  mismatch matches threshold = true ->
  let run := processPunch env attendanceId punchType (Some buffer) userId loc options w in
  fst run = Throw (FaceMismatch (best_similarity matches) threshold) /\
  err_details (FaceMismatch (best_similarity matches) threshold)
  = Some (DetailsSimilarityBelow (best_similarity matches) threshold) /\
  w_db (snd run) = w_db w.
Proof.
  intros threshold Hreq Hup Hkey Hkne Hb Hbne Hres He Hsel Hemb Hfk Hfkne Hcmp Hmis run.
  unfold run, processPunch. rewrite Hreq.
  erewrite bind_return; [| unfold call; rewrite Hup; reflexivity].
  set (w1 := log_call _ w).
  erewrite bind_return with (a := resolved_employee env (w_db w) options attendanceId) (w' := w1).
  2:{ unfold resolved_employee. destruct (opt_employeeId options); [reflexivity |].
      exact (resolveAttendanceEmployeeId_run env attendanceId w1). }
  rewrite Hres, Hkey, Hb.
  assert (Hk : Js.truthy_str (Some key) = true).
  { simpl. apply String.eqb_neq in Hkne. rewrite Hkne. reflexivity. }
  assert (Hbt : Js.truthy_str (Some bucket) = true).
  { simpl. apply String.eqb_neq in Hbne. rewrite Hbne. reflexivity. }
  assert (Het : Js.truthy_id (Some employeeId) = true).
  { simpl. apply Z.eqb_neq in He. rewrite He. reflexivity. }
  rewrite Hk, Hbt, Het. simpl andb. cbv iota.
  erewrite bind_throw.
  2:{ apply (ensureFaceMatch_mismatch env employeeId key threshold w1 bucket faceKey
               faceEmbedding others matches); assumption. }
  repeat split.
Qed.

Lemma processPunch_face_mismatch_witness :
  let env := Sample.services (Some "bucket") false false [mkCompareMatch (Some (42 # 1))] in
  let w := snd (getOrCreateAttendanceRecord env (Some 1) "2025-03-14" Sample.start) in
  let run := processPunch env 1 "IN" (Some "photo") (Some "5") Sample.here
               (mkOptions (Some 1) true None) w in
  fst run = Throw (FaceMismatch (42 # 1) 90) /\ w_db (snd run) = w_db w.
Proof.
  intros env w run.
  destruct (processPunch_face_mismatch env 1 "IN" "photo" (Some "5") Sample.here
              (mkOptions (Some 1) true None) w
              (mkUpload (Some "https://store/attendance_1_IN.jpg")
                        (Some "attendance_1_IN.jpg"))
              "attendance_1_IN.jpg" "bucket" "faces/asha.jpg" 1 (Some "faces/asha.jpg") []
              [mkCompareMatch (Some (42 # 1))])
    as (Hres & _ & Hdb); try reflexivity; try discriminate.
  split; [exact Hres | exact Hdb].
Defined.

(** ** The manual punch route *)

Section Manual.

Context {image : Type}.
Variable env : environment image.

Lemma route_put_missing_fields (req : manual_request) (w : world) :
  has_required_fields req = false ->
  route_put env req w = (error_response 400 "Missing required fields", w).
Proof.
  unfold has_required_fields, route_put. intros H.
  destruct (Js.truthy_str (mr_attendance_id req)), (Js.truthy_str (mr_punch_type req)),
    (Js.truthy_str (mr_latitude req)), (Js.truthy_str (mr_longitude req)),
    (Js.truthy_str (mr_address req)); try discriminate H; reflexivity.
Qed.

(** [processPunch] without face verification: upload, then the update. *)
Lemma processPunch_plain (attendanceId : Z) (punchType : string)
    (imageFile : option image) (userId : option string) (loc : location_data)
    (options : punch_options) (w : world) (uploaded : option upload_result)
    (row : attendance_row) (rest : list attendance_row) :
  opt_requireFaceMatch options = false ->
  match imageFile with
  | Some buffer =>
      uploadAttendanceImage env buffer (evidence_name attendanceId punchType)
      = Return uploaded
  | None => uploaded = None
  end ->
  select_attendance_by_id (w_db w) attendanceId = row :: rest ->
  let f := set_punch (String.eqb punchType PUNCH_TYPES_IN) (w_now w) loc
             (uploaded ≫= upload_url) (punch_actor env (w_db w) userId) in
  processPunch env attendanceId punchType imageFile userId loc options w
  = (Return (mkPunchRecord (f row) None None),
     set_db (punched_db (w_db w) attendanceId f)
            (after_upload imageFile attendanceId punchType w)).
Proof.
  intros Hreq Hup Hrow f.
  unfold processPunch. rewrite Hreq.
  erewrite bind_return with (a := uploaded)
                            (w' := after_upload imageFile attendanceId punchType w).
  2:{ destruct imageFile; [unfold call; rewrite Hup | rewrite Hup]; reflexivity. }
  set (w1 := after_upload _ _ _ w).
  assert (Hdb : w_db w1 = w_db w) by (unfold w1; destruct imageFile; reflexivity).
  assert (Hnow : w_now w1 = w_now w) by (unfold w1; destruct imageFile; reflexivity).
  erewrite bind_return with (a := resolved_employee env (w_db w) options attendanceId) (w' := w1).
  2:{ unfold resolved_employee. destruct (opt_employeeId options); [reflexivity |].
      rewrite <- Hdb. exact (resolveAttendanceEmployeeId_run env attendanceId w1). }
  simpl andb. cbv iota.
  erewrite bind_return; [| reflexivity].
  erewrite bind_return; [| exact (resolvePunchActor_run env userId w1)].
  erewrite bind_return.
  2:{ apply (query_update_attendance_run _ _ _ _ _ w1 row rest). rewrite Hdb. exact Hrow. }
  rewrite Hdb, Hnow. unfold f.
  destruct uploaded; reflexivity.
Qed.

End Manual.

(** C10, as stated, fails for the empty direction: the legality check passes
    it, but the manual route rejects it as a missing field and writes
    nothing. *)
Lemma route_put_empty_direction_counterexample :
  let w := snd (getOrCreateAttendanceRecord Sample.env (Some 1) "2025-03-14" Sample.start) in
  "" <> PUNCH_TYPES_IN /\ "" <> PUNCH_TYPES_OUT /\
  select_attendance_by_id (w_db w) 1 <> [] /\
  validatePunchAttempt (Some fresh_view) "" = None /\
  route_put Sample.env empty_direction_request w
  = (error_response 400 "Missing required fields", w).
Proof. repeat split; discriminate. Qed.

(** C10 (amended).  For every direction other than exactly IN and exactly
    OUT the legality check passes whatever the state of the record; and the
    manual route, given such a direction that is not empty together with the
    other required fields, the identity of an existing record and an
    evidence upload that does not fail, answers 200 and writes the request
    as a punch-out: punch-out time, location, evidence and actor are set,
    the punch-in columns are left as they were, also when no punch-in is
    set. *)
Theorem route_put_other_direction_is_punch_out {image : Type} (env : environment image)
    (req : manual_request) (w : world) (punch_type : string) (attendance_id : Z)
    (row : attendance_row) (rest : list attendance_row)
    (uploaded : option upload_result) :
  punch_type <> PUNCH_TYPES_IN -> punch_type <> PUNCH_TYPES_OUT ->
  (forall a, validatePunchAttempt (Some a) punch_type = None) /\
  (has_required_fields req = true ->
   mr_punch_type req = Some punch_type ->
   pg_integer env (default "" (mr_attendance_id req)) = Some attendance_id ->
   select_attendance_by_id (w_db w) attendance_id = row :: rest ->
   match mr_file req with
   | Some buffer =>
       uploadAttendanceImage env buffer (evidence_name attendance_id punch_type)
       = Return uploaded
   | None => uploaded = None
   end ->
   let out :=
     set_punch false (w_now w)
       (mkLocation (default "" (mr_latitude req)) (default "" (mr_longitude req))
                   (default "" (mr_address req)))
       (uploaded ≫= upload_url) (punch_actor env (w_db w) (mr_userId req)) in
   let run := route_put env req w in
   res_status (fst run) = 200 /\
   res_body (fst run)
   = BodyManual ("Punch " ++ punch_type ++ " updated successfully")
       (mkPunchRecord (out row) None None) /\
   w_db (snd run) = punched_db (w_db w) attendance_id out /\
   a_punch_out_time (out row) = Some (w_now w) /\
   a_punch_in_time (out row) = a_punch_in_time row).
Proof.
  intros Hin Hout. split.
  { intros a. now apply validate_other_direction. }
  intros Hreq Hpt Hid Hrow Hup out run.
  unfold run, route_put.
  unfold has_required_fields in Hreq.
  apply andb_prop in Hreq as [Hreq Ha]. apply andb_prop in Hreq as [Hreq Hlo].
  apply andb_prop in Hreq as [Hreq Hla]. apply andb_prop in Hreq as [Hat Hp].
  rewrite Hat, Hp, Hla, Hlo, Ha.
  change (negb true || negb true || negb true || negb true || negb true) with false.
  cbv iota. rewrite Hpt. simpl default.
  unfold handle.
  erewrite bind_return with (a := w_db w) (w' := w); [| reflexivity].
  rewrite Hid, Hrow.
  apply String.eqb_neq in Hin, Hout. rewrite Hin, Hout. cbn [andb].
  erewrite bind_return.
  2:{ apply (processPunch_plain env attendance_id punch_type (mr_file req) (mr_userId req)
               _ _ w uploaded row rest); [reflexivity | exact Hup | exact Hrow]. }
  rewrite Hin. fold out. simpl. repeat split.
Qed.

Lemma route_put_other_direction_is_punch_out_witness :
  let w := snd (getOrCreateAttendanceRecord Sample.env (Some 1) "2025-03-14" Sample.start) in
  let run := route_put Sample.env lowercase_out_request w in
  res_status (fst run) = 200 /\
  map a_punch_out_time (attendance (w_db (snd run))) = [Some Sample.morning] /\
  map a_punch_in_time (attendance (w_db (snd run))) = [None].
Proof.
  intros w run.
  destruct (route_put_other_direction_is_punch_out Sample.env lowercase_out_request w
              "out" 1 (new_attendance_row 1 1 "2025-03-14" (Some 10)) [] None)
    as [_ H]; [discriminate | discriminate |].
  destruct H as (Hstatus & _ & Hdb & _); try reflexivity.
  split; [exact Hstatus |]. fold run in Hdb. rewrite Hdb. split; reflexivity.
Defined.

(** ** Reading a punch back *)

Lemma view_of_set_punch isPunchIn now loc img actor a e dg wd :
  view_of (set_punch isPunchIn now loc img actor a) e dg wd
  = view_punch isPunchIn now loc img (view_of a e dg wd).
Proof. destruct isPunchIn; reflexivity. Qed.

Lemma set_punch_key isPunchIn now loc img actor (a : attendance_row) :
  a_emp_id (set_punch isPunchIn now loc img actor a) = a_emp_id a /\
  a_date (set_punch isPunchIn now loc img actor a) = a_date a.
Proof. destruct isPunchIn; split; reflexivity. Qed.

(** The joined read after the update of a punch is the joined read before
    it, with the punch shown on the rows of the updated record. *)
Lemma joined_rows_punched js emp_id date attendanceId isPunchIn now loc img actor
    (rows : list attendance_row) :
  joined_rows js emp_id date
    (update_attendance_rows attendanceId (set_punch isPunchIn now loc img actor) rows)
  = map (fun v => if v_attendance_id v =? attendanceId
                  then view_punch isPunchIn now loc img v else v)
        (joined_rows js emp_id date rows).
Proof.
  unfold joined_rows, update_attendance_rows.
  induction rows as [| a rows IH]; [reflexivity |].
  simpl. rewrite map_app, <- IH. f_equal.
  destruct (a_attendance_id a =? attendanceId) eqn:E.
  - destruct (set_punch_key isPunchIn now loc img actor a) as [-> ->].
    destruct (sql_eq_Z (a_emp_id a) emp_id && String.eqb (a_date a) date); [| reflexivity].
    rewrite map_map. apply map_ext. intros [[e dg] wd].
    rewrite view_of_set_punch. simpl v_attendance_id. rewrite E. reflexivity.
  - destruct (sql_eq_Z (a_emp_id a) emp_id && String.eqb (a_date a) date); [| reflexivity].
    rewrite map_map. apply map_ext. intros [[e dg] wd].
    simpl v_attendance_id. rewrite E. reflexivity.
Qed.

Lemma select_joined_punched (d : db) emp_id date attendanceId isPunchIn now loc img actor :
  select_attendance_joined
    (punched_db d attendanceId (set_punch isPunchIn now loc img actor)) emp_id date
  = map (fun v => if v_attendance_id v =? attendanceId
                  then view_punch isPunchIn now loc img v else v)
        (select_attendance_joined d emp_id date).
Proof.
  rewrite !select_attendance_joined_rows. unfold punched_db. simpl attendance.
  apply joined_rows_punched.
Qed.

Section ReadBack.

Context {image : Type}.
Variable env : environment image.

(** Face verification writes nothing and does not touch the clock. *)
Lemma ensureFaceMatch_store (employeeId : option Z) (attendanceKey : string)
    (threshold : Q) (w : world) :
  let w' := snd (ensureFaceMatch env employeeId attendanceKey threshold w) in
  w_db w' = w_db w /\ w_now w' = w_now w.
Proof.
  unfold ensureFaceMatch, bind, get_db, try_catch, call, throw, ret. cbv zeta.
  destruct (negb (Js.truthy_str (AWS_S3_BUCKET env))); [split; reflexivity |].
  destruct (negb (Js.truthy_id employeeId)); [split; reflexivity |].
  destruct (select_face_embedding (w_db w) (default 0 employeeId)) as [| fe l];
    [split; reflexivity |].
  destruct (negb (Js.truthy_str fe)); [split; reflexivity |].
  destruct (resolveS3ObjectKey env fe) as [faceKey |]; [| split; reflexivity].
  destruct (String.eqb faceKey ""); [split; reflexivity |].
  destruct (compareFaces env _ faceKey attendanceKey threshold) as [matches | err];
    [| split; reflexivity].
  destruct matches as [| m ms]; [split; reflexivity |].
  destruct (below _ threshold); split; reflexivity.
Qed.

(** A successful [processPunch]: the row it returns is the first row of the
    record with the punch applied, and the store holds the punch on every
    row of the record. *)
Lemma processPunch_success (attendanceId : Z) (punchType : string)
    (imageFile : option image) (userId : option string) (loc : location_data)
    (options : punch_options) (w w2 : world) (rec : punch_record) :
  processPunch env attendanceId punchType imageFile userId loc options w = (Return rec, w2) ->
  exists img row rest,
    select_attendance_by_id (w_db w) attendanceId = row :: rest /\
    let f := set_punch (String.eqb punchType PUNCH_TYPES_IN) (w_now w) loc img
               (punch_actor env (w_db w) userId) in
    pr_row rec = f row /\ w_db w2 = punched_db (w_db w) attendanceId f.
Proof.
  unfold processPunch.
  set (face := fun (key : option string) (resolved : option Z) =>
         if opt_requireFaceMatch options && Js.truthy_str (AWS_S3_BUCKET env)
            && Js.truthy_str key && Js.truthy_id resolved
         then ensureFaceMatch env resolved (default "" key)
                (default (DEFAULT_FACE_MATCH_THRESHOLD env) (opt_faceMatchThreshold options))
         else if opt_requireFaceMatch options && negb (Js.truthy_str key)
         then throw (error_with_status
                       "Attendance image could not be uploaded; face verification failed"
                       500 None)
         else ret None).
  assert (Hface : forall key resolved w0,
            w_db (snd (face key resolved w0)) = w_db w0 /\
            w_now (snd (face key resolved w0)) = w_now w0).
  { intros key resolved w0. unfold face.
    destruct (opt_requireFaceMatch options), (Js.truthy_str (AWS_S3_BUCKET env)),
      (Js.truthy_str key), (Js.truthy_id resolved); cbn [andb negb];
      try apply ensureFaceMatch_store; split; reflexivity. }
  unfold bind at 1.
  destruct (match imageFile with Some buffer => _ | None => ret None end w)
    as [[uploadResult | err] w1] eqn:Hup; [| discriminate].
  assert (Hw1 : w_db w1 = w_db w /\ w_now w1 = w_now w).
  { destruct imageFile; unfold call, ret in Hup; injection Hup as _ <-; split; reflexivity. }
  destruct Hw1 as [Hdb1 Hnow1].
  erewrite bind_return with (a := resolved_employee env (w_db w1) options attendanceId) (w' := w1).
  2:{ unfold resolved_employee. destruct (opt_employeeId options); [reflexivity |].
      exact (resolveAttendanceEmployeeId_run env attendanceId w1). }
  unfold bind at 1.
  fold (face (match uploadResult with Some u => upload_key u | None => None end)
             (resolved_employee env (w_db w1) options attendanceId)).
  destruct (Hface (match uploadResult with Some u => upload_key u | None => None end)
                  (resolved_employee env (w_db w1) options attendanceId) w1) as [Hdb2 Hnow2].
  destruct (face _ _ w1) as [[meta | err] w1']; [| discriminate].
  simpl in Hdb2, Hnow2.
  erewrite bind_return; [| exact (resolvePunchActor_run env userId w1')].
  destruct (select_attendance_by_id (w_db w1') attendanceId) as [| row rest] eqn:Hrow.
  - unfold bind, query_update_attendance.
    rewrite updated_rows_returned by (intros a; apply set_punch_id).
    unfold select_attendance_by_id in Hrow. rewrite Hrow. discriminate.
  - erewrite bind_return;
      [| exact (query_update_attendance_run _ _ _ _ _ w1' row rest Hrow)].
    intros [= <- <-].
    rewrite Hdb2, Hdb1 in Hrow.
    eexists _, row, rest. split; [exact Hrow |].
    rewrite Hdb2, Hdb1, Hnow2, Hnow1. split; reflexivity.
Qed.

End ReadBack.

Lemma short_list_same {A : Type} (l : list A) (x y : A) :
  (length l <= 1)%nat -> In x l -> In y l -> x = y.
Proof.
  destruct l as [| a [| b l]]; simpl; intros Hlen Hx Hy.
  - destruct Hx.
  - destruct Hx as [<- | []], Hy as [<- | []]. reflexivity.
  - lia.
Qed.

(** A row of the joined read shows an attendance row of the employee and
    day. *)
Lemma select_joined_In (d : db) (emp_id : Z) (date : string) (v : attendance_view) :
  In v (select_attendance_joined d emp_id date) ->
  exists a,
    In a (List.filter (fun a => sql_eq_Z (a_emp_id a) emp_id && String.eqb (a_date a) date)
            (attendance d)) /\
    v_attendance_id v = a_attendance_id a.
Proof.
  unfold select_attendance_joined. intros Hin.
  apply in_flat_map in Hin as (a & Ha & Hin).
  destruct (sql_eq_Z (a_emp_id a) emp_id && String.eqb (a_date a) date) eqn:Hm;
    [| destruct Hin].
  apply in_map_iff in Hin as ([[e dg] wd] & <- & _).
  exists a. split; [| reflexivity]. apply filter_In. split; assumption.
Qed.

(** With one record per employee and day, every row of the joined read
    carries the same identity. *)
Lemma one_record_same_id (d : db) (emp_id : Z) (date : string) (x y : attendance_view) :
  one_record_per_day d emp_id date ->
  In x (select_attendance_joined d emp_id date) ->
  In y (select_attendance_joined d emp_id date) ->
  v_attendance_id x = v_attendance_id y.
Proof.
  intros Hone Hx Hy.
  apply select_joined_In in Hx as (a & Ha & ->).
  apply select_joined_In in Hy as (b & Hb & ->).
  rewrite (short_list_same _ a b Hone Ha Hb). reflexivity.
Qed.

(** Where the employee has a designation and a ward, an empty joined read
    means that no record is stored for the employee and day. *)
Lemma select_joined_empty (d : db) (emp_id : Z) (date : string) :
  employee_joined d emp_id <> [] -> select_attendance_joined d emp_id date = [] ->
  List.filter (fun a => sql_eq_Z (a_emp_id a) emp_id && String.eqb (a_date a) date)
    (attendance d) = [].
Proof.
  intros Hj. unfold select_attendance_joined.
  induction (attendance d) as [| a rows IH]; simpl; [reflexivity |].
  destruct (sql_eq_Z (a_emp_id a) emp_id && String.eqb (a_date a) date).
  - destruct (employee_joined d emp_id) as [| j js]; [congruence |]. discriminate.
  - exact IH.
Qed.

(** Get-or-create keeps the store at one record per employee and day. *)
Lemma getOrCreate_one_record {image : Type} (env : environment image)
    (e : Z) (date : string) (w w1 : world) (v : attendance_view) :
  employee_joined (w_db w) e <> [] -> one_record_per_day (w_db w) e date ->
  getOrCreateAttendanceRecord env (Some e) date w = (Return v, w1) ->
  one_record_per_day (w_db w1) e date.
Proof.
  intros Hj Hone Hrun.
  destruct (Z.eq_dec e 0) as [-> | He].
  { rewrite getOrCreate_requires_id in Hrun by reflexivity. discriminate. }
  destruct (select_attendance_joined (w_db w) e date) as [| row rest] eqn:Hsel.
  - destruct (fst (insert_attendance env e date (current_ward (w_db w) e) w)) as [r | err]
      eqn:Hins.
    + revert Hins. unfold insert_attendance.
      destruct (fk_attendance_employee env && _) eqn:Hfk; [discriminate |].
      destruct (unique_employee_date env && _) eqn:Huq; [discriminate |].
      intros _.
      destruct (getOrCreate_created env date w e He Hsel Hfk Huq) as (v0 & Hrun0 & _).
      rewrite Hrun0 in Hrun. injection Hrun as _ <-.
      unfold one_record_per_day. simpl attendance. rewrite List.filter_app.
      rewrite (select_joined_empty _ _ _ Hj Hsel). rewrite app_nil_l.
      etransitivity; [apply List.filter_length_le | simpl; lia].
    + rewrite (getOrCreate_rejected env date w e err He Hsel Hins) in Hrun. discriminate.
  - rewrite (getOrCreate_found env date w e row rest He Hsel) in Hrun.
    injection Hrun as _ <-. exact Hone.
Qed.

(** What the joined read shows after a successful punch on the record that
    get-or-create had returned, where the employee has one record for the
    day: every row of it is a row of that record with the punch on it. *)
Lemma reread_after_punch {image : Type} (env : environment image)
    (e : Z) (date : string) (w w1 w2 : world) (v : attendance_view)
    (punchType : string) (imageFile : option image) (userId : option string)
    (loc : location_data) (options : punch_options) (rec : punch_record) :
  employee_joined (w_db w) e <> [] -> one_record_per_day (w_db w) e date ->
  getOrCreateAttendanceRecord env (Some e) date w = (Return v, w1) ->
  processPunch env (v_attendance_id v) punchType imageFile userId loc options w1
  = (Return rec, w2) ->
  let isPunchIn := String.eqb punchType PUNCH_TYPES_IN in
  exists img,
    (exists row, a_attendance_id row = v_attendance_id v /\
       pr_row rec = set_punch isPunchIn (w_now w1) loc img
                      (punch_actor env (w_db w1) userId) row) /\
    (exists v', getOrCreateAttendanceRecord env (Some e) date w2 = (Return v', w2) /\
                In v' (select_attendance_joined (w_db w2) e date)) /\
    (forall v', In v' (select_attendance_joined (w_db w2) e date) ->
       exists x, v' = view_punch isPunchIn (w_now w1) loc img x /\
                 v_attendance_id x = v_attendance_id v).
Proof.
  intros Hj Hone Hget Hpunch isPunchIn.
  pose proof (getOrCreate_one_record env e date w w1 v Hj Hone Hget) as Hone1.
  destruct (getOrCreate_then_select env e date w w1 v Hj Hget) as (He & v1 & rest1 & Hsel & Hid).
  destruct (processPunch_success env _ _ _ _ _ _ _ _ _ Hpunch)
    as (img & row & rest & Hrow & Hrec & Hdb).
  cbv zeta in Hrec, Hdb. fold isPunchIn in Hrec, Hdb.
  assert (Hrid : a_attendance_id row = v_attendance_id v).
  { unfold select_attendance_by_id in Hrow.
    assert (In row (List.filter (fun a => a_attendance_id a =? v_attendance_id v)
                                (attendance (w_db w1)))) as Hin
      by (rewrite Hrow; left; reflexivity).
    apply filter_In in Hin as [_ Hin]. now apply Z.eqb_eq in Hin. }
  assert (Hall : forall x, In x (select_attendance_joined (w_db w1) e date) ->
                           v_attendance_id x = v_attendance_id v).
  { intros x Hx. rewrite <- Hid.
    apply (one_record_same_id (w_db w1) e date x v1 Hone1 Hx).
    rewrite Hsel. left. reflexivity. }
  assert (Hsel2 : select_attendance_joined (w_db w2) e date
                  = map (view_punch isPunchIn (w_now w1) loc img)
                        (select_attendance_joined (w_db w1) e date)).
  { rewrite Hdb, select_joined_punched. apply map_ext_in. intros x Hx.
    rewrite (Hall x Hx), Z.eqb_refl. reflexivity. }
  exists img. split; [exists row; split; assumption |]. split.
  - exists (view_punch isPunchIn (w_now w1) loc img v1). split.
    + apply (getOrCreate_found env date w2 e _
               (map (view_punch isPunchIn (w_now w1) loc img) rest1)); [exact He |].
      rewrite Hsel2, Hsel. reflexivity.
    + rewrite Hsel2, Hsel. left. reflexivity.
  - intros v' Hv'. rewrite Hsel2 in Hv'. apply in_map_iff in Hv' as (x & <- & Hx).
    exists x. split; [reflexivity | exact (Hall x Hx)].
Qed.

(** C7 (amended).  For an employee with a designation and a ward and with
    at most one record for the day, a record obtained from get-or-create
    and then written by the punch processor is found again by
    get-or-create; whichever row of the joined read it returns, the row has
    the identity of the written record, the location fields and the
    evidence reference it shows are the ones written, and the punch time it
    shows is the text [HH12:MI AM] of the written time, not the written
    time itself. *)
Theorem punch_read_back {image : Type} (env : environment image)
    (e : Z) (date : string) (w w1 w2 : world) (v : attendance_view)
    (punchType : string) (imageFile : option image) (userId : option string)
    (loc : location_data) (options : punch_options) (rec : punch_record) :
  employee_joined (w_db w) e <> [] -> one_record_per_day (w_db w) e date ->
  getOrCreateAttendanceRecord env (Some e) date w = (Return v, w1) ->
  processPunch env (v_attendance_id v) punchType imageFile userId loc options w1
  = (Return rec, w2) ->
  let isPunchIn := String.eqb punchType PUNCH_TYPES_IN in
  (exists v', getOrCreateAttendanceRecord env (Some e) date w2 = (Return v', w2) /\
              In v' (select_attendance_joined (w_db w2) e date)) /\
  fst (written_columns isPunchIn (pr_row rec)) = Some (w_now w1) /\
  (forall v', In v' (select_attendance_joined (w_db w2) e date) ->
     v_attendance_id v' = a_attendance_id (pr_row rec) /\
     fst (read_columns isPunchIn v') = Some (to_char_hh12 (w_now w1)) /\
     snd (read_columns isPunchIn v') = snd (written_columns isPunchIn (pr_row rec))).
Proof.
  intros Hj Hone Hget Hpunch isPunchIn.
  destruct (reread_after_punch env e date w w1 w2 v punchType imageFile userId loc options
              rec Hj Hone Hget Hpunch) as (img & (row & Hrid & Hrec) & Hread & Hall).
  fold isPunchIn in Hrec, Hall.
  split; [exact Hread |]. split.
  - rewrite Hrec. destruct isPunchIn; reflexivity.
  - intros v' Hv'. destruct (Hall v' Hv') as (x & -> & Hx).
    rewrite Hrec, set_punch_id, Hrid.
    destruct isPunchIn; simpl; repeat split; exact Hx.
Qed.

(** C7, as stated, fails for the punch time: two punches written at
    different instants of the same minute are read back as the same text,
    so the read path does not give back the time that was written. *)
Lemma punch_read_back_counterexample :
  punch_then_read matching_services (mkTimestamp 14 9 15 10)
  = Some (Some (mkTimestamp 14 9 15 10), Some "09:15 AM") /\
  punch_then_read matching_services (mkTimestamp 14 9 15 50)
  = Some (Some (mkTimestamp 14 9 15 50), Some "09:15 AM") /\
  mkTimestamp 14 9 15 10 <> mkTimestamp 14 9 15 50.
Proof. repeat split. discriminate. Qed.

Lemma punch_read_back_witness :
  let env := matching_services in
  let first := getOrCreateAttendanceRecord env (Some 1) "2025-03-14" Sample.start in
  let punch := processPunch env 1 PUNCH_TYPES_IN (Some "photo") (Some "5") Sample.here
                 (mkOptions (Some 1) true None) (snd first) in
  exists v',
    fst (getOrCreateAttendanceRecord env (Some 1) "2025-03-14" (snd punch)) = Return v' /\
    v_attendance_id v' = 1 /\
    v_punch_in_time v' = Some "09:15 AM" /\
    v_latitude_in v' = Some "18.52" /\
    v_punch_in_image v' = Some "https://store/attendance_1_IN.jpg".
Proof.
  intros env first punch.
  destruct (fst first) as [v | ?] eqn:Hv; [| discriminate Hv].
  destruct (fst punch) as [rec | ?] eqn:Hrec; [| discriminate Hrec].
  destruct (punch_read_back env 1 "2025-03-14" Sample.start (snd first) (snd punch) v
              PUNCH_TYPES_IN (Some "photo") (Some "5") Sample.here
              (mkOptions (Some 1) true None) rec)
    as ((v' & Hrun & Hin) & _ & Hall).
  - discriminate.
  - unfold one_record_per_day. simpl. lia.
  - rewrite <- Hv. apply surjective_pairing.
  - injection Hv as <-. rewrite <- Hrec. apply surjective_pairing.
  - exists v'. rewrite Hrun. destruct (Hall v' Hin) as (Hid & Htime & Hcols).
    injection Hrec as <-.
    simpl in Hid, Htime, Hcols. injection Hcols as Hlat _ _ Himg.
    repeat split; assumption.
Defined.

(** ** Group capture *)

Section GroupCapture.

Context {image : Type}.
Variable env : environment image.

Lemma ensureCollectionExists_store (collectionId : string) (w : world) :
  w_db (snd (ensureCollectionExists env collectionId w)) = w_db w.
Proof.
  unfold ensureCollectionExists.
  destruct (w_faceCollectionReady w); [reflexivity |].
  unfold bind, try_catch, call.
  destruct (createCollection env collectionId) as [[] | err]; [reflexivity |].
  destruct (String.eqb (err_name err) _); reflexivity.
Qed.

Lemma ensureCollectionExists_available (collectionId : string) (w : world) :
  collection_available env collectionId w = true ->
  fst (ensureCollectionExists env collectionId w) = Return tt.
Proof.
  unfold collection_available, ensureCollectionExists.
  destruct (w_faceCollectionReady w); [reflexivity |]. simpl.
  unfold bind, try_catch, call.
  destruct (createCollection env collectionId) as [[] | err]; [reflexivity |].
  intros ->. reflexivity.
Qed.

(** The group branch on an image without faces. *)
Lemma group_branch_no_faces (buffer : image) (collectionId punchType : string)
    (matchThreshold : Q) (userId : option string) (loc : location_data) (w : world) :
  detectFaces env buffer = Return [] ->
  group_branch env buffer collectionId punchType matchThreshold userId loc w
  = (Return NoFacesDetected, log_call CallDetectFaces w).
Proof.
  intros Hdetect. unfold group_branch, bind, call. rewrite Hdetect. reflexivity.
Qed.

End GroupCapture.

(** C8.  A group-capture request whose image yields no detected face leaves
    the store untouched, and, once the collection is configured and
    available, is answered 422 with the no-faces error. *)
Theorem group_capture_no_faces {image : Type} (env : environment image)
    (req : face_request) (buffer : image) (w : world) :
  group_mode_requested req = true ->
  fr_file req = Some buffer ->
  detectFaces env buffer = Return [] ->
  let run := route_face_attendance env req w in
  w_db (snd run) = w_db w /\
  (forall collectionId,
     resolveCollectionId env = Some collectionId ->
     collection_available env collectionId w = true ->
     fst run = NoFacesDetected).
Proof.
  intros Hgroup Hfile Hdetect run. unfold run, route_face_attendance.
  rewrite Hfile.
  destruct (resolveCollectionId env) as [cid |]; [| split; [reflexivity | discriminate]].
  unfold group_mode_requested in Hgroup. rewrite Hgroup. unfold handle.
  pose proof (ensureCollectionExists_store env cid w) as Hstore.
  pose proof (ensureCollectionExists_available env cid w) as Havail.
  destruct (ensureCollectionExists env cid w) as [[[] | err] w1] eqn:Hens;
    simpl in Hstore, Havail.
  - erewrite bind_return by exact Hens.
    rewrite group_branch_no_faces by exact Hdetect.
    split; [exact Hstore |]. intros c [= <-] _. reflexivity.
  - erewrite bind_throw by exact Hens.
    split; [exact Hstore |]. intros c [= <-] Hok. specialize (Havail Hok). discriminate.
Qed.

Lemma group_capture_no_faces_witness :
  route_face_attendance Sample.env group_request Sample.start
  = (NoFacesDetected,
     mkWorld Sample.store Sample.morning [CallCreateCollection "faces"; CallDetectFaces] true).
Proof.
  destruct (group_capture_no_faces Sample.env group_request "photo" Sample.start
              eq_refl eq_refl eq_refl) as [_ H].
  specialize (H "faces" eq_refl eq_refl).
  destruct (route_face_attendance Sample.env group_request Sample.start) as [r w'] eqn:E.
  simpl in H. subst r. injection E as <-. reflexivity.
Defined.

Lemma bind_inv {A B : Type} (c : M A) (k : A -> M B) (w w' : world) (b : B) :
  bind c k w = (Return b, w') ->
  exists a w1, c w = (Return a, w1) /\ k a w1 = (Return b, w').
Proof.
  unfold bind. destruct (c w) as [[a | e] w1]; [| discriminate].
  intros H. exists a, w1. split; [reflexivity | exact H].
Qed.

Section Dedup.

Context {image : Type}.
Variable env : environment image.
Variables (buffer : image) (collectionId punchType : string) (matchThreshold : Q)
  (userId : option string) (locationPayload : location_data) (today : string)
  (imageWidth imageHeight : Z).

Lemma process_face_step (faceIndex : Z) (faceDetail : face_detail)
    (processed processed' : gset Z) (entry : face_outcome) (w w' : world) :
  process_face env buffer collectionId punchType matchThreshold userId locationPayload
    today imageWidth imageHeight faceIndex faceDetail processed w
  = (Return (entry, processed'), w') ->
  step_ok processed entry processed'.
Proof.
  assert (Hplain : forall o, fo_employeeId o = None -> step_ok processed o processed).
  { intros o Ho. split; [reflexivity |]. split; intros emp He; congruence. }
  unfold process_face.
  destruct (computeCropRegion _ imageWidth imageHeight) as [region |].
  2:{ intros [= <- <- _]. now apply Hplain. }
  intros H. apply bind_inv in H as (cropped & w1 & _ & H).
  destruct cropped as [faceImageBuffer |].
  2:{ injection H as <- <- _. now apply Hplain. }
  unfold try_catch in H.
  match type of H with
  | match ?body w1 with _ => _ end = _ => destruct (body w1) as [[r | err] w2] eqn:Hbody
  end.
  2:{ injection H as <- <- _. now apply Hplain. }
  injection H as -> ->.
  apply bind_inv in Hbody as (matches & w3 & _ & Hbody).
  destruct (head matches ≫= _) as [[bestMatch bestFace] |].
  2:{ injection Hbody as <- <- _. now apply Hplain. }
  apply bind_inv in Hbody as (employeeRecord & w4 & _ & Hbody).
  destruct employeeRecord as [emp |].
  2:{ injection Hbody as <- <- _. now apply Hplain. }
  destruct (bool_decide (ref_emp_id emp ∈ processed)) eqn:Hseen.
  { injection Hbody as <- <- _. apply bool_decide_eq_true in Hseen.
    split; [reflexivity |]. split; intros e [= <-]; [exact Hseen | reflexivity]. }
  apply bool_decide_eq_false in Hseen.
  apply bind_inv in Hbody as (attendance & w5 & _ & Hbody).
  destruct (validatePunchAttempt (Some attendance) punchType) as [validation |].
  { injection Hbody as <- <- _.
    split; [set_solver |]. split; intros e [= <-]; [set_solver | contradiction]. }
  apply bind_inv in Hbody as (updated & w6 & _ & Hbody).
  injection Hbody as <- <- _.
  split; [set_solver |]. split; intros e [= <-]; [set_solver | contradiction].
Qed.

(** A face that resolves to an employee already in the set gets the
    [duplicate] entry, and the set stays as it is. *)
Lemma process_face_duplicate (faceIndex : Z) (faceDetail : face_detail)
    (processed : gset Z) (w w4 : world) (region : crop_region)
    (faceImageBuffer : image) (matches : list search_match)
    (bestMatch : search_match) (bestFace : face) (emp : employee_ref) :
  computeCropRegion (fd_BoundingBox faceDetail) imageWidth imageHeight = Some region ->
  sharp_extract_resize env buffer region = Return faceImageBuffer ->
  searchFacesByImage env collectionId faceImageBuffer 3 matchThreshold = Return matches ->
  head matches = Some bestMatch -> sm_Face bestMatch = Some bestFace ->
  resolveEmployeeFromFaceIdentifiers env (FaceId bestFace)
    (normalizeId env (ExternalImageId bestFace)) None
    (log_call (CallSearchFacesByImage 3 matchThreshold) (log_call CallSharpExtract w))
  = (Return (Some emp), w4) ->
  ref_emp_id emp ∈ processed ->
  process_face env buffer collectionId punchType matchThreshold userId locationPayload
    today imageWidth imageHeight faceIndex faceDetail processed w
  = (Return (mkOutcome faceIndex duplicate (sm_Similarity bestMatch)
               (Some (ref_emp_id emp)) (ref_name emp)
               (Some "Employee already processed in this capture.") None None,
             processed), w4).
Proof.
  intros Hcrop Hextract Hsearch Hhead Hface Hresolve Hseen.
  unfold process_face. rewrite Hcrop.
  erewrite bind_return with (a := Some faceImageBuffer) (w' := log_call CallSharpExtract w).
  2:{ unfold try_catch, bind, call. rewrite Hextract. reflexivity. }
  unfold try_catch.
  erewrite bind_return; [| unfold call; rewrite Hsearch; reflexivity].
  assert (Hbest : head matches ≫= (fun m => option_map (pair m) (sm_Face m))
                  = Some (bestMatch, bestFace)).
  { rewrite Hhead. simpl. rewrite Hface. reflexivity. }
  rewrite Hbest. cbv beta iota.
  erewrite bind_return by exact Hresolve.
  cbv beta iota. rewrite bool_decide_eq_true_2 by exact Hseen. reflexivity.
Qed.

Lemma ordered_pairs_snoc {A : Type} (R : A -> A -> Prop) (l : list A) (x : A) :
  ForallOrdPairs R l -> Forall (fun a => R a x) l -> ForallOrdPairs R (l ++ [x]).
Proof.
  induction 1 as [| a l Ha Hl IH]; simpl; intros Hx.
  - constructor; constructor.
  - inversion Hx as [| ? ? Hax Hlx]; subst. constructor.
    + apply Forall_app. split; [exact Ha | constructor; [exact Hax | constructor]].
    + apply IH. exact Hlx.
Qed.

Lemma ordered_pairs_lookup {A : Type} (R : A -> A -> Prop) (l : list A) :
  ForallOrdPairs R l ->
  forall (i j : nat) (x y : A), (i < j)%nat -> l !! i = Some x -> l !! j = Some y -> R x y.
Proof.
  induction 1 as [| a l Ha Hl IH]; intros i j x y Hij Hi Hj; [discriminate Hi |].
  destruct j as [| j]; [lia |].
  destruct i as [| i]; simpl in Hi, Hj.
  - injection Hi as <-. exact (Forall_lookup_1 _ _ _ _ Ha Hj).
  - apply (IH i j); [lia | exact Hi | exact Hj].
Qed.

(** The loop keeps every entry that names an employee inside the set, and
    so every later entry for a named employee is a duplicate. *)
Lemma group_loop_ordered (faceDetails : list face_detail) :
  forall (faceIndex : Z) (processed : gset Z) (results final : list face_outcome)
         (w w' : world),
    group_loop env buffer collectionId punchType matchThreshold userId locationPayload
      today imageWidth imageHeight faceDetails faceIndex processed results w
    = (Return final, w') ->
    Forall (fun o => forall emp, fo_employeeId o = Some emp -> emp ∈ processed) results ->
    ForallOrdPairs later_is_duplicate results ->
    ForallOrdPairs later_is_duplicate final.
Proof.
  induction faceDetails as [| faceDetail rest IH];
    intros faceIndex processed results final w w' Hrun Hin Hord; simpl in Hrun.
  - injection Hrun as <- _. exact Hord.
  - apply bind_inv in Hrun as ([entry processed'] & w1 & Hstep & Hrun).
    apply process_face_step in Hstep as (Hsub & Hnamed & Hdup).
    apply IH in Hrun; [exact Hrun | |].
    + apply Forall_app. split.
      * eapply Forall_impl; [exact Hin |]. intros o Ho emp He. apply Hsub, (Ho emp He).
      * constructor; [exact Hnamed | constructor].
    + apply ordered_pairs_snoc; [exact Hord |].
      eapply Forall_impl; [exact Hin |]. intros o Ho emp He He'.
      exact (Hdup emp He' (Ho emp He)).
Qed.

End Dedup.

Lemma punched_once (emp : Z) (results : list face_outcome) :
  ForallOrdPairs later_is_duplicate results ->
  (length (List.filter (punched_for emp) results) <= 1)%nat.
Proof.
  induction 1 as [| a l Ha Hl IH]; simpl; [lia |].
  destruct (punched_for emp a) eqn:Hp; [| exact IH].
  assert (List.filter (punched_for emp) l = []) as ->; [| simpl; lia].
  unfold punched_for in Hp. apply andb_prop in Hp as [_ Hemp].
  apply bool_decide_eq_true in Hemp. clear Hl IH.
  induction Ha as [| b l Hb _ IHl]; [reflexivity |]. simpl.
  assert (punched_for emp b = false) as ->; [| exact IHl].
  unfold punched_for, is_punched.
  destruct (bool_decide (fo_employeeId b = Some emp)) eqn:Heq; [| apply andb_false_r].
  apply bool_decide_eq_true in Heq.
  rewrite (Hb emp Hemp Heq). reflexivity.
Qed.

Section GroupResults.

Context {image : Type}.
Variable env : environment image.

Lemma group_branch_results (buffer : image) (collectionId punchType : string)
    (matchThreshold : Q) (userId : option string) (loc : location_data)
    (w w' : world) (r : response) success pt total count results :
  group_branch env buffer collectionId punchType matchThreshold userId loc w
  = (Return r, w') ->
  res_body r = BodyGroup success pt total count results ->
  ForallOrdPairs later_is_duplicate results.
Proof.
  unfold group_branch. intros H Hbody.
  apply bind_inv in H as (faceDetails & w1 & _ & H).
  destruct faceDetails as [| fd fds].
  { injection H as <- _. discriminate Hbody. }
  apply bind_inv in H as ([[imageWidth |] [imageHeight |]] & w2 & _ & H);
    try (injection H as <- _; discriminate Hbody).
  destruct ((imageWidth =? 0) || (imageHeight =? 0)).
  { injection H as <- _. discriminate Hbody. }
  apply bind_inv in H as (now & w3 & _ & H).
  apply bind_inv in H as (final & w4 & Hloop & H).
  injection H as <- _. injection Hbody as _ _ _ _ <-.
  eapply group_loop_ordered; [exact Hloop | constructor | constructor].
Qed.

Lemma single_branch_body (buffer : image) (collectionId punchType : string)
    (matchThreshold : Q) (userId : option string) (loc : location_data)
    (requestedEmpId : option Q) (w w' : world) (r : response) :
  single_branch env buffer collectionId punchType matchThreshold userId loc
    requestedEmpId w = (Return r, w') ->
  is_group_body (res_body r) = false.
Proof.
  unfold single_branch. intros H.
  apply bind_inv in H as (matches & w1 & _ & H).
  destruct matches as [| first rest]; [injection H as <- _; reflexivity |].
  apply bind_inv in H as ([emp |] & w2 & _ & H); [| injection H as <- _; reflexivity].
  apply bind_inv in H as (now & w3 & _ & H).
  apply bind_inv in H as (attendance & w4 & _ & H).
  destruct (validatePunchAttempt (Some attendance) punchType);
    [injection H as <- _; reflexivity |].
  apply bind_inv in H as (updated & w5 & _ & H).
  injection H as <- _. reflexivity.
Qed.

Lemma route_face_attendance_results (req : face_request) (w : world)
    success pt total count results :
  res_body (fst (route_face_attendance env req w))
  = BodyGroup success pt total count results ->
  ForallOrdPairs later_is_duplicate results.
Proof.
  unfold route_face_attendance.
  destruct (fr_file req) as [buffer |]; [| discriminate].
  destruct (resolveCollectionId env) as [collectionId |]; [| discriminate].
  unfold handle.
  match goal with
  | |- context [match ?body w with _ => _ end] =>
      destruct (body w) as [[r | err] w'] eqn:Hbody
  end.
  - simpl. intros Hr.
    apply bind_inv in Hbody as ([] & w1 & _ & Hbody).
    destruct (isGroupModeRequest _).
    + eapply group_branch_results; [exact Hbody | exact Hr].
    + apply single_branch_body in Hbody. rewrite Hr in Hbody. discriminate.
  - simpl. destruct (err_statusCode err) as [code |]; [destruct (code =? 0) |];
      discriminate.
Qed.

End GroupResults.

Lemma try_catch_returns {A : Type} (c : M A) (h : js_error -> M A) (w : world) :
  (forall e w0, exists a w1, h e w0 = (Return a, w1)) ->
  exists a w', try_catch c h w = (Return a, w').
Proof.
  intros Hh. unfold try_catch. destruct (c w) as [[a | e] w1]; [eauto | apply Hh].
Qed.

(** One turn of the loop never throws: whatever fails inside it becomes the
    entry of that face. *)
Lemma process_face_returns {image : Type} (env : environment image)
    (buffer : image) (collectionId punchType : string) (matchThreshold : Q)
    (userId : option string) (loc : location_data) (today : string)
    (imageWidth imageHeight faceIndex : Z) (faceDetail : face_detail)
    (processed : gset Z) (w : world) :
  exists entry processed' w',
    process_face env buffer collectionId punchType matchThreshold userId loc today
      imageWidth imageHeight faceIndex faceDetail processed w
    = (Return (entry, processed'), w').
Proof.
  unfold process_face.
  destruct (computeCropRegion _ imageWidth imageHeight) as [region |]; [| eauto].
  unfold bind at 1.
  match goal with
  | |- context [try_catch ?c ?h w] =>
      destruct (try_catch_returns c h w) as (cropped & w1 & ->); [eauto |]
  end.
  destruct cropped as [faceImageBuffer |]; [| eauto].
  match goal with
  | |- context [try_catch ?c ?h w1] =>
      destruct (try_catch_returns c h w1) as ([entry processed'] & w2 & ->); [eauto |]
  end.
  eauto.
Qed.

(** The loop pushes one entry per detected face and never throws. *)
Lemma group_loop_returns {image : Type} (env : environment image)
    (buffer : image) (collectionId punchType : string) (matchThreshold : Q)
    (userId : option string) (loc : location_data) (today : string)
    (imageWidth imageHeight : Z) (faceDetails : list face_detail) :
  forall (faceIndex : Z) (processed : gset Z) (results : list face_outcome) (w : world),
  exists final w',
    group_loop env buffer collectionId punchType matchThreshold userId loc today
      imageWidth imageHeight faceDetails faceIndex processed results w
    = (Return final, w') /\
    length final = (length results + length faceDetails)%nat.
Proof.
  induction faceDetails as [| faceDetail rest IH]; intros faceIndex processed results w.
  - exists results, w. split; [reflexivity | simpl; lia].
  - simpl.
    destruct (process_face_returns env buffer collectionId punchType matchThreshold userId
                loc today imageWidth imageHeight faceIndex faceDetail processed w)
      as (entry & processed' & w1 & Hstep).
    erewrite bind_return by exact Hstep.
    destruct (IH (faceIndex + 1) processed' (results ++ [entry])%list w1)
      as (final & w' & Hrun & Hlen).
    exists final, w'. split; [exact Hrun |].
    rewrite Hlen, length_app. simpl. lia.
Qed.

(** C3.  In the entry list of a group capture no employee has more than one
    [punched] entry; an entry that follows an entry for the same employee is
    a [duplicate]; and a face that resolves to an employee already in the
    set of processed employees is answered with the [duplicate] entry for
    that employee, the set staying as it is. *)
Theorem group_capture_dedup {image : Type} (env : environment image)
    (req : face_request) (w : world) (success : bool) (punch_type : string)
    (total_faces punched_count : Z) (results : list face_outcome) :
  res_body (fst (route_face_attendance env req w))
  = BodyGroup success punch_type total_faces punched_count results ->
  (forall emp, (length (List.filter (punched_for emp) results) <= 1)%nat) /\
  (forall (i j : nat) earlier later emp,
     (i < j)%nat -> results !! i = Some earlier -> results !! j = Some later ->
     fo_employeeId earlier = Some emp -> fo_employeeId later = Some emp ->
     fo_status later = duplicate) /\
  (forall buffer collectionId punchType matchThreshold userId loc today
          imageWidth imageHeight faceIndex faceDetail (processed : gset Z) w0 w4
          region faceImageBuffer matches bestMatch bestFace emp,
     computeCropRegion (fd_BoundingBox faceDetail) imageWidth imageHeight = Some region ->
     sharp_extract_resize env buffer region = Return faceImageBuffer ->
     searchFacesByImage env collectionId faceImageBuffer 3 matchThreshold = Return matches ->
     head matches = Some bestMatch -> sm_Face bestMatch = Some bestFace ->
     resolveEmployeeFromFaceIdentifiers env (FaceId bestFace)
       (normalizeId env (ExternalImageId bestFace)) None
       (log_call (CallSearchFacesByImage 3 matchThreshold) (log_call CallSharpExtract w0))
     = (Return (Some emp), w4) ->
     ref_emp_id emp ∈ processed ->
     exists entry,
       fst (process_face env buffer collectionId punchType matchThreshold userId loc
              today imageWidth imageHeight faceIndex faceDetail processed w0)
       = Return (entry, processed) /\
       fo_status entry = duplicate /\ fo_employeeId entry = Some (ref_emp_id emp)).
Proof.
  intros Hbody. apply route_face_attendance_results in Hbody.
  split; [| split].
  - intros emp. now apply punched_once.
  - intros i j earlier later emp Hij Hi Hj He Hl.
    exact (ordered_pairs_lookup _ _ Hbody i j earlier later Hij Hi Hj emp He Hl).
  - intros buffer collectionId punchType matchThreshold userId loc today imageWidth
      imageHeight faceIndex faceDetail processed w0 w4 region faceImageBuffer matches
      bestMatch bestFace emp Hcrop Hextract Hsearch Hhead Hface Hresolve Hseen.
    eexists. rewrite (process_face_duplicate env buffer collectionId punchType
                        matchThreshold userId loc today imageWidth imageHeight faceIndex
                        faceDetail processed w0 w4 region faceImageBuffer matches
                        bestMatch bestFace emp Hcrop Hextract Hsearch Hhead Hface
                        Hresolve Hseen).
    repeat split.
Qed.

Lemma group_capture_dedup_witness :
  map fo_status sample_group_results = [punched; unmatched; duplicate] /\
  (length (List.filter (punched_for 1) sample_group_results) <= 1)%nat.
Proof.
  split; [reflexivity |].
  destruct (group_capture_dedup group_services group_request Sample.start true "IN" 3 1
              sample_group_results eq_refl) as [Hone _].
  apply Hone.
Defined.

(** ** Scenarios of the specification, run on the sample data *)

(** Single-subject punch-in, threshold 90, observed similarity 95. *)
Example scenario_single_punch_in :
  fst (route_face_attendance group_services (single_request "in") Sample.start)
  = mkResponse 200
      (BodySingle (Some "Asha") "IN" (Some (95 # 1)) 90 (Some Sample.morning)).
Proof. reflexivity. Qed.

(** Punch-out on a record without punch-in: refused, and the record the
    call created is left without any punch. *)
Example scenario_punch_out_first :
  let run := route_face_attendance group_services (single_request "out") Sample.start in
  fst run = error_response 400 "Must punch in first" /\
  attendance (w_db (snd run)) = [new_attendance_row 1 1 "2025-03-14" (Some 10)].
Proof. split; reflexivity. Qed.

(** Three faces, the third being the employee of the first again. *)
Example scenario_group_of_three :
  map (fun o => (fo_status o, fo_employeeId o)) sample_group_results
  = [(punched, Some 1); (unmatched, None); (duplicate, Some 1)].
Proof. reflexivity. Qed.

Example scenario_crop_region :
  computeCropRegion (Some (mkBox (1 # 10) (2 # 10) (1 # 10) (1 # 10))) 640 480
  = Some (mkRegion 48 24 96 144).
Proof. reflexivity. Qed.

Example scenario_group_mode_flag :
  isGroupModeRequest [None; Some (BStr " Multi-Face "); None] = true /\
  isGroupModeRequest [Some (BStr "single")] = false /\
  isGroupModeRequest [Some (BStr "YES"); Some (BBool false)] = true.
Proof. repeat split. Qed.

Example scenario_formats :
  to_char_hh12 (mkTimestamp 14 0 5 59) = "12:05 AM" /\
  to_char_hh12 (mkTimestamp 14 17 45 1) = "05:45 PM" /\
  evidence_name 12 "OUT" = "attendance_12_OUT.jpg" /\
  Js.round (5 # 2) = 3 /\ Js.round (-5 # 2) = -2.
Proof. repeat split. Qed.

(** * Further properties of the module *)

(** ** Crop regions *)

(** X1.  A crop region that [computeCropRegion] returns lies inside the
    image and is not empty. *)
Theorem computeCropRegion_inside (boundingBox : option bounding_box)
    (imageWidth imageHeight : Z) (region : crop_region) :
  computeCropRegion boundingBox imageWidth imageHeight = Some region ->
  0 <= cr_left region /\ 0 <= cr_top region /\
  0 < cr_width region /\ 0 < cr_height region /\
  cr_left region + cr_width region <= imageWidth /\
  cr_top region + cr_height region <= imageHeight.
Proof.
  unfold computeCropRegion.
  destruct boundingBox as [bb |]; [| discriminate].
  destruct ((imageWidth <=? 0) || (imageHeight <=? 0)); [discriminate |].
  cbv zeta.
  match goal with
  | |- (if ?c then _ else _) = _ -> _ => destruct c eqn:Hc; [discriminate |]
  end.
  apply orb_false_elim in Hc as [Hw Hh].
  apply Z.leb_gt in Hw, Hh.
  intros [= <-]. simpl. lia.
Qed.

Lemma computeCropRegion_inside_witness :
  exists region,
    computeCropRegion (Some (mkBox (1 # 10) (2 # 10) (95 # 100) (1 # 10))) 640 480
    = Some region /\
    cr_left region + cr_width region <= 640.
Proof.
  eexists. split; [reflexivity |].
  apply (computeCropRegion_inside
           (Some (mkBox (1 # 10) (2 # 10) (95 # 100) (1 # 10))) 640 480).
  reflexivity.
Defined.

(** ** The group-mode flag *)

Lemma lower_upper_char (c : ascii) : Js.lower_char (Js.upper_char c) = Js.lower_char c.
Proof. destruct c as [[] [] [] [] [] [] [] []]; reflexivity. Qed.

Lemma is_space_upper_char (c : ascii) : Js.is_space (Js.upper_char c) = Js.is_space c.
Proof. destruct c as [[] [] [] [] [] [] [] []]; reflexivity. Qed.

Lemma trim_start_map (f : ascii -> ascii) (s : string) :
  (forall c, Js.is_space (f c) = Js.is_space c) ->
  Js.trim_start (Js.map_chars f s) = Js.map_chars f (Js.trim_start s).
Proof.
  intros Hf. induction s as [| c r IH]; [reflexivity |].
  simpl. rewrite Hf. destruct (Js.is_space c); [exact IH | reflexivity].
Qed.

Lemma trim_end_map (f : ascii -> ascii) (s : string) :
  (forall c, Js.is_space (f c) = Js.is_space c) ->
  Js.trim_end (Js.map_chars f s) = Js.map_chars f (Js.trim_end s).
Proof.
  intros Hf. induction s as [| c r IH]; [reflexivity |].
  simpl. rewrite IH, Hf.
  destruct (Js.trim_end r); simpl; [destruct (Js.is_space c) |]; reflexivity.
Qed.

Lemma map_chars_compose (f g : ascii -> ascii) (s : string) :
  Js.map_chars f (Js.map_chars g s) = Js.map_chars (fun c => f (g c)) s.
Proof. induction s as [| c r IH]; [reflexivity |]. simpl. rewrite IH. reflexivity. Qed.

Lemma map_chars_ext (f g : ascii -> ascii) (s : string) :
  (forall c, f c = g c) -> Js.map_chars f s = Js.map_chars g s.
Proof. intros H. induction s as [| c r IH]; [reflexivity |]. simpl. rewrite H, IH. reflexivity. Qed.

Lemma normalized_upper (s : string) :
  Js.toLowerCase (Js.trim (Js.toUpperCase s)) = Js.toLowerCase (Js.trim s).
Proof.
  unfold Js.trim, Js.toUpperCase, Js.toLowerCase.
  rewrite trim_start_map by exact is_space_upper_char.
  rewrite trim_end_map by exact is_space_upper_char.
  rewrite map_chars_compose. apply map_chars_ext. exact lower_upper_char.
Qed.

(** X2.  On ASCII values the group-mode flag does not depend on the case
    of the letters of the values it is read from. *)
Theorem isGroupModeRequest_ignores_case (rawValues : list (option body_value)) :
  Forall ascii_value rawValues ->
  isGroupModeRequest (map upper_value rawValues) = isGroupModeRequest rawValues.
Proof.
  intros _. unfold isGroupModeRequest.
  induction rawValues as [| value rest IH]; [reflexivity |].
  cbn [map existsb]. rewrite IH. f_equal.
  destruct value as [[b | s] |]; [reflexivity | | reflexivity].
  cbn [upper_value]. cbv zeta. rewrite normalized_upper. reflexivity.
Qed.

Lemma isGroupModeRequest_ignores_case_witness :
  isGroupModeRequest [Some (BStr " MULTI-FACE "); None]
  = isGroupModeRequest [Some (BStr " Multi-Face "); None].
Proof.
  apply (isGroupModeRequest_ignores_case [Some (BStr " Multi-Face "); None]).
  repeat constructor; intros s [= <-]; reflexivity || discriminate.
Defined.

(** ** The error classifier *)

(** X3.  Whatever error it is given, [mapRekognitionError] answers with a
    status other than 0 and with the message of the error as details, a text
    that is never empty (the default text stands in for an empty message)
    and that is also the message of the entry of a failed face; and an error
    whose message mentions "no face", in any case of letters, is classified
    422 whatever its name and upstream status are. *)
Theorem mapRekognitionError_classes (error : js_error) :
  let status := fst (mapRekognitionError error) in
  let payload := snd (mapRekognitionError error) in
  status <> 0 /\
  (exists m, p_details payload = Some (DetailsText m) /\ m <> "" /\
             classified_message error = m /\
             (err_message error <> "" -> m = err_message error)) /\
  (Js.includes "no face" (Js.toLowerCase (err_message error)) = true ->
   status = 422 /\ p_error payload = "No face detected in the image").
Proof.
  unfold classified_message, mapRekognitionError. cbv zeta.
  set (message := if String.eqb (err_message error) "" then "Face recognition failed"
                  else err_message error).
  assert (Hne : message <> "").
  { unfold message. destruct (String.eqb_spec (err_message error) ""); [discriminate | assumption]. }
  assert (Hsame : err_message error <> "" -> message = err_message error).
  { unfold message. destruct (String.eqb_spec (err_message error) ""); [contradiction | reflexivity]. }
  assert (Hcls : forall other : string,
            (if String.eqb message "" then other else message) = message).
  { intros other. apply String.eqb_neq in Hne. rewrite Hne. reflexivity. }
  split; [| split].
  - destruct (_ || _); [discriminate |].
    destruct (String.eqb (err_name error) _); [discriminate |].
    simpl. unfold status_or_500.
    destruct (err_httpStatusCode error) as [c |]; [| discriminate].
    destruct (c =? 0) eqn:E; [discriminate | now apply Z.eqb_neq].
  - exists message.
    destruct (_ || _); [| destruct (String.eqb (err_name error) _)];
      simpl; (split; [reflexivity |]); (split; [exact Hne |]);
      (split; [apply Hcls | exact Hsame]).
  - intros Hface.
    assert (Hmsg : message = err_message error).
    { apply Hsame. intros E. rewrite E in Hface. discriminate Hface. }
    rewrite Hmsg, Hface, orb_true_r. split; reflexivity.
Qed.

Lemma mapRekognitionError_classes_witness :
  fst (mapRekognitionError
         (mkError "ResourceNotFoundException" "There are No Faces in the image"
                  None None (Some 400))) = 422.
Proof.
  destruct (mapRekognitionError_classes
              (mkError "ResourceNotFoundException" "There are No Faces in the image"
                       None None (Some 400))) as (_ & _ & H).
  destruct (H eq_refl) as [Hs _]. exact Hs.
Defined.

(** ** Face verification *)



(** ** The punch processor: what a call can and cannot change *)

Lemma update_attendance_rows_absent (attendanceId : Z) (f : attendance_row -> attendance_row)
    (rows : list attendance_row) :
  List.filter (fun a => a_attendance_id a =? attendanceId) rows = [] ->
  update_attendance_rows attendanceId f rows = rows.
Proof.
  unfold update_attendance_rows.
  induction rows as [| a rows IH]; simpl; [reflexivity |].
  destruct (a_attendance_id a =? attendanceId); [discriminate |].
  intros H. rewrite IH by exact H. reflexivity.
Qed.

Lemma punched_db_absent (d : db) (attendanceId : Z) (f : attendance_row -> attendance_row) :
  select_attendance_by_id d attendanceId = [] -> punched_db d attendanceId f = d.
Proof.
  intros H. unfold punched_db. rewrite update_attendance_rows_absent by exact H.
  destruct d; reflexivity.
Qed.

Section ProcessorFrame.

Context {image : Type}.
Variable env : environment image.

(** The face step of [processPunch] leaves store and clock alone. *)
Lemma face_step_store (options : punch_options) (key : option string)
    (resolved : option Z) (w : world) :
  let step :=
    if opt_requireFaceMatch options && Js.truthy_str (AWS_S3_BUCKET env)
       && Js.truthy_str key && Js.truthy_id resolved
    then ensureFaceMatch env resolved (default "" key)
           (default (DEFAULT_FACE_MATCH_THRESHOLD env) (opt_faceMatchThreshold options))
    else if opt_requireFaceMatch options && negb (Js.truthy_str key)
    then throw (error_with_status
                  "Attendance image could not be uploaded; face verification failed"
                  500 None)
    else ret None in
  w_db (snd (step w)) = w_db w /\ w_now (snd (step w)) = w_now w.
Proof.
  cbv zeta.
  destruct (opt_requireFaceMatch options), (Js.truthy_str (AWS_S3_BUCKET env)),
    (Js.truthy_str key), (Js.truthy_id resolved); cbn [andb negb];
    try apply ensureFaceMatch_store; split; reflexivity.
Qed.

(** A call of [processPunch] that throws has written nothing. *)
Lemma processPunch_throw_store (attendanceId : Z) (punchType : string)
    (imageFile : option image) (userId : option string) (loc : location_data)
    (options : punch_options) (w w' : world) (e : js_error) :
  processPunch env attendanceId punchType imageFile userId loc options w = (Throw e, w') ->
  w_db w' = w_db w.
Proof.
  unfold processPunch.
  unfold bind at 1.
  destruct (match imageFile with Some buffer => _ | None => ret None end w)
    as [[uploadResult | err] w1] eqn:Hup.
  2:{ intros [= _ <-]. destruct imageFile; unfold call, ret in Hup;
      injection Hup as _ <-; reflexivity. }
  assert (Hdb1 : w_db w1 = w_db w).
  { destruct imageFile; unfold call, ret in Hup; injection Hup as _ <-; reflexivity. }
  erewrite bind_return with (a := resolved_employee env (w_db w1) options attendanceId) (w' := w1).
  2:{ unfold resolved_employee. destruct (opt_employeeId options); [reflexivity |].
      exact (resolveAttendanceEmployeeId_run env attendanceId w1). }
  unfold bind at 1.
  destruct (face_step_store options
              (match uploadResult with Some u => upload_key u | None => None end)
              (resolved_employee env (w_db w1) options attendanceId) w1) as [Hdb2 _].
  cbv zeta in Hdb2.
  match goal with
  | |- context [match ?step w1 with _ => _ end] =>
      destruct (step w1) as [[meta | err] w2]
  end; simpl in Hdb2.
  2:{ intros [= _ <-]. congruence. }
  erewrite bind_return; [| exact (resolvePunchActor_run env userId w2)].
  destruct (select_attendance_by_id (w_db w2) attendanceId) as [| row rest] eqn:Hrow.
  - unfold bind, query_update_attendance.
    rewrite updated_rows_returned by (intros a; apply set_punch_id).
    pose proof Hrow as Hrow'. unfold select_attendance_by_id in Hrow'. rewrite Hrow'.
    simpl. intros [= _ <-]. simpl.
    fold (punched_db (w_db w2) attendanceId
            (set_punch (String.eqb punchType PUNCH_TYPES_IN) (w_now w2) loc
               (match uploadResult with Some u => upload_url u | None => None end)
               (punch_actor env (w_db w2) userId))).
    rewrite punched_db_absent by exact Hrow. congruence.
  - erewrite bind_return;
      [| exact (query_update_attendance_run _ _ _ _ _ w2 row rest Hrow)].
    discriminate.
Qed.

End ProcessorFrame.

(** X5.  A call of [processPunch] that fails, for whatever reason (upload,
    face verification, missing record), leaves every table of the store as
    it was. *)
Theorem processPunch_failure_writes_nothing {image : Type} (env : environment image)
    (attendanceId : Z) (punchType : string) (imageFile : option image)
    (userId : option string) (loc : location_data) (options : punch_options)
    (w : world) (e : js_error) :
  fst (processPunch env attendanceId punchType imageFile userId loc options w) = Throw e ->
  w_db (snd (processPunch env attendanceId punchType imageFile userId loc options w))
  = w_db w.
Proof.
  intros Hthrow.
  destruct (processPunch env attendanceId punchType imageFile userId loc options w)
    as [o w'] eqn:Hrun.
  simpl in Hthrow. subst o. simpl.
  exact (processPunch_throw_store env _ _ _ _ _ _ _ _ _ Hrun).
Qed.

Lemma processPunch_failure_writes_nothing_witness :
  let w := snd (getOrCreateAttendanceRecord Sample.env (Some 1) "2025-03-14" Sample.start) in
  w_db (snd (processPunch Sample.env 1 "IN" (Some "photo") (Some "5") Sample.here
               (mkOptions (Some 1) true None) w))
  = w_db w.
Proof.
  intros w.
  apply (processPunch_failure_writes_nothing Sample.env 1 "IN" (Some "photo") (Some "5")
           Sample.here (mkOptions (Some 1) true None) w (FaceMismatch 0 90)).
  reflexivity.
Defined.

Lemma update_rows_applied (attendanceId : Z) (isPunchIn : bool) (now : timestamp)
    (loc : location_data) (img : option string) (actor : option Z)
    (rows : list attendance_row) :
  Forall2 (punch_applied attendanceId isPunchIn now) rows
    (update_attendance_rows attendanceId (set_punch isPunchIn now loc img actor) rows).
Proof.
  unfold update_attendance_rows.
  induction rows as [| a rows IH]; simpl; constructor; [| exact IH].
  unfold punch_applied.
  destruct (a_attendance_id a =? attendanceId); [| reflexivity].
  destruct isPunchIn; split; reflexivity.
Qed.

(** X6.  A successful [processPunch] changes the attendance table row by
    row and nothing else: the other tables and the sequence are as before,
    rows of other records are untouched, and on the rows of the punched
    record only the columns of the requested direction change, the punch
    time becoming the current instant. *)
Theorem processPunch_success_frame {image : Type} (env : environment image)
    (attendanceId : Z) (punchType : string) (imageFile : option image)
    (userId : option string) (loc : location_data) (options : punch_options)
    (w w' : world) (rec : punch_record) :
  processPunch env attendanceId punchType imageFile userId loc options w = (Return rec, w') ->
  let d := w_db w in
  let d' := w_db w' in
  employee d' = employee d /\ designation d' = designation d /\ wards d' = wards d /\
  users d' = users d /\ attendance_id_seq d' = attendance_id_seq d /\
  Forall2 (punch_applied attendanceId (String.eqb punchType PUNCH_TYPES_IN) (w_now w))
          (attendance d) (attendance d') /\
  a_attendance_id (pr_row rec) = attendanceId /\
  In (pr_row rec) (attendance d').
Proof.
  intros Hrun d d'.
  destruct (processPunch_success env _ _ _ _ _ _ _ _ _ Hrun)
    as (img & row & rest & Hrow & Hrec & Hdb).
  cbv zeta in Hrec, Hdb. unfold d'. rewrite Hdb. unfold punched_db. simpl.
  repeat (split; [reflexivity |]).
  split; [apply update_rows_applied |].
  assert (Hin : In row (List.filter (fun a => a_attendance_id a =? attendanceId)
                                    (attendance (w_db w)))).
  { unfold select_attendance_by_id in Hrow. rewrite Hrow. left. reflexivity. }
  apply filter_In in Hin as [Hin Hid]. apply Z.eqb_eq in Hid.
  split.
  - rewrite Hrec, set_punch_id. exact Hid.
  - rewrite Hrec. unfold update_attendance_rows. apply in_map_iff.
    exists row. split; [| exact Hin]. apply Z.eqb_eq in Hid. rewrite Hid. reflexivity.
Qed.

Lemma processPunch_success_frame_witness :
  let w := snd (getOrCreateAttendanceRecord matching_services (Some 1) "2025-03-14"
                  Sample.start) in
  let run := processPunch matching_services 1 "IN" (Some "photo") (Some "5") Sample.here
               (mkOptions (Some 1) true None) w in
  employee (w_db (snd run)) = employee Sample.store /\
  length (attendance (w_db (snd run))) = 1%nat.
Proof.
  intros w run.
  destruct (fst run) as [rec | ?] eqn:Hrec; [| discriminate Hrec].
  destruct (processPunch_success_frame matching_services 1 "IN" (Some "photo") (Some "5")
              Sample.here (mkOptions (Some 1) true None) w (snd run) rec)
    as (Hemp & _ & _ & _ & _ & Hrows & _).
  { rewrite <- Hrec. apply surjective_pairing. }
  split; [exact Hemp |].
  rewrite <- (Forall2_length _ _ _ Hrows). reflexivity.
Defined.

Lemma punch_actor_known {image : Type} (env : environment image) (d : db)
    (rawUserId : option string) (u : Z) :
  punch_actor env d rawUserId = Some u ->
  In u (users d) /\ exists q, normalizeId env rawUserId = Some q /\ key_eq u q = true.
Proof.
  unfold punch_actor.
  destruct (normalizeId env rawUserId) as [q |]; [| discriminate].
  destruct (users_select_throws env q); [discriminate |].
  destruct (List.filter (fun u0 => key_eq u0 q) (users d)) as [| u0 l] eqn:Hf;
    [discriminate |].
  intros [= <-].
  assert (Hin : In u0 (List.filter (fun u0 => key_eq u0 q) (users d)))
    by (rewrite Hf; left; reflexivity).
  apply filter_In in Hin as [Hin Hq].
  split; [exact Hin |]. exists q. split; [reflexivity | exact Hq].
Qed.

(** X7.  The actor a successful punch records is null or the key of a user
    that exists and that the submitted user id denotes: an unknown, absent
    or unreadable user id is recorded as no actor and never fails the
    punch. *)
Theorem processPunch_actor_is_known_user {image : Type} (env : environment image)
    (attendanceId : Z) (punchType : string) (imageFile : option image)
    (userId : option string) (loc : location_data) (options : punch_options)
    (w w' : world) (rec : punch_record) :
  processPunch env attendanceId punchType imageFile userId loc options w = (Return rec, w') ->
  let actor := punched_by (String.eqb punchType PUNCH_TYPES_IN) (pr_row rec) in
  actor = punch_actor env (w_db w) userId /\
  (forall u, actor = Some u ->
     In u (users (w_db w)) /\
     exists q, normalizeId env userId = Some q /\ key_eq u q = true).
Proof.
  intros Hrun actor.
  destruct (processPunch_success env _ _ _ _ _ _ _ _ _ Hrun)
    as (img & row & rest & _ & Hrec & _).
  cbv zeta in Hrec.
  assert (Hactor : actor = punch_actor env (w_db w) userId).
  { unfold actor. rewrite Hrec. destruct (String.eqb punchType PUNCH_TYPES_IN); reflexivity. }
  split; [exact Hactor |].
  intros u Hu. rewrite Hactor in Hu. now apply punch_actor_known.
Qed.

Lemma processPunch_actor_is_known_user_witness :
  let w := snd (getOrCreateAttendanceRecord matching_services (Some 1) "2025-03-14"
                  Sample.start) in
  let run := processPunch matching_services 1 "IN" (Some "photo") (Some "77") Sample.here
               (mkOptions (Some 1) true None) w in
  exists rec, fst run = Return rec /\ a_punched_in_by (pr_row rec) = None.
Proof.
  intros w run.
  destruct (fst run) as [rec | ?] eqn:Hrec; [| discriminate Hrec].
  exists rec. split; [reflexivity |].
  destruct (processPunch_actor_is_known_user matching_services 1 "IN" (Some "photo")
              (Some "77") Sample.here (mkOptions (Some 1) true None) w (snd run) rec)
    as [Hactor _].
  { rewrite <- Hrec. apply surjective_pairing. }
  exact Hactor.
Defined.

Section ProcessorVerified.

Context {image : Type}.
Variable env : environment image.



End ProcessorVerified.



(** X9.  With verification required, a punch without evidence (no image, or
    an upload that returns no key) fails with the 500 error of the missing
    evidence before any comparison or update, whatever the bucket setting
    and the employee are; the store is unchanged. *)
Theorem processPunch_requires_evidence {image : Type} (env : environment image)
    (attendanceId : Z) (punchType : string) (imageFile : option image)
    (userId : option string) (loc : location_data) (options : punch_options)
    (w : world) (uploaded : option upload_result) :
  opt_requireFaceMatch options = true ->
  match imageFile with
  | Some buffer =>
      uploadAttendanceImage env buffer (evidence_name attendanceId punchType)
      = Return uploaded
  | None => uploaded = None
  end ->
  Js.truthy_str (uploaded ≫= upload_key) = false ->
  processPunch env attendanceId punchType imageFile userId loc options w
  = (Throw EvidenceRequired, after_upload imageFile attendanceId punchType w).
Proof.
  intros Hreq Hup Hkey. unfold processPunch. rewrite Hreq.
  erewrite bind_return with (a := uploaded)
                            (w' := after_upload imageFile attendanceId punchType w).
  2:{ destruct imageFile; [unfold call; rewrite Hup | rewrite Hup]; reflexivity. }
  set (w1 := after_upload _ _ _ w).
  erewrite bind_return with (a := resolved_employee env (w_db w1) options attendanceId) (w' := w1).
  2:{ unfold resolved_employee. destruct (opt_employeeId options); [reflexivity |].
      exact (resolveAttendanceEmployeeId_run env attendanceId w1). }
  assert (Hk : Js.truthy_str (match uploaded with Some u => upload_key u | None => None end)
               = false).
  { destruct uploaded; exact Hkey. }
  rewrite Hk. rewrite andb_false_r. cbn [andb negb].
  erewrite bind_throw; [reflexivity |]. reflexivity.
Qed.

Lemma processPunch_requires_evidence_witness :
  let w := snd (getOrCreateAttendanceRecord matching_services (Some 1) "2025-03-14"
                  Sample.start) in
  processPunch matching_services 1 "IN" None (Some "5") Sample.here
    (mkOptions (Some 1) true None) w
  = (Throw EvidenceRequired, w).
Proof.
  intros w.
  apply (processPunch_requires_evidence matching_services 1 "IN" None (Some "5")
           Sample.here (mkOptions (Some 1) true None) w None); reflexivity.
Defined.

(** ** The collection-ready flag *)

(** X10.  Once [ensureCollectionExists] has returned, the flag is set and
    later calls, for whatever collection, return at once without calling the
    recognition service; a call that throws leaves the flag as it was, so
    the creation is tried again next time. *)
Theorem ensureCollectionExists_once {image : Type} (env : environment image)
    (collectionId : string) (w : world) :
  let run := ensureCollectionExists env collectionId w in
  w_db (snd run) = w_db w /\
  (fst run = Return tt ->
   w_faceCollectionReady (snd run) = true /\
   forall other, ensureCollectionExists env other (snd run) = (Return tt, snd run)) /\
  (forall e, fst run = Throw e ->
   w_faceCollectionReady (snd run) = w_faceCollectionReady w /\
   err_name e <> "ResourceAlreadyExistsException").
Proof.
  cbv zeta.
  assert (Hset : forall w0 other, w_faceCollectionReady w0 = true ->
            ensureCollectionExists env other w0 = (Return tt, w0)).
  { intros w0 other H0. unfold ensureCollectionExists. rewrite H0. reflexivity. }
  destruct (ensureCollectionExists env collectionId w) as [o w'] eqn:Hrun.
  unfold ensureCollectionExists in Hrun. simpl.
  destruct (w_faceCollectionReady w) eqn:Hready.
  - injection Hrun as <- <-. split; [reflexivity |]. split.
    + intros _. split; [exact Hready |]. intros other. now apply Hset.
    + intros e He. discriminate He.
  - unfold bind, try_catch, call in Hrun.
    destruct (createCollection env collectionId) as [[] | err].
    + injection Hrun as <- <-. split; [reflexivity |]. split; [| intros e He; discriminate He].
      intros _. split; [reflexivity |]. intros other. now apply Hset.
    + destruct (String.eqb_spec (err_name err) "ResourceAlreadyExistsException")
        as [Hname | Hname]; injection Hrun as <- <-.
      * split; [reflexivity |]. split; [| intros e He; discriminate He].
        intros _. split; [reflexivity |]. intros other. now apply Hset.
      * split; [reflexivity |]. split; [intros He; discriminate He |].
        intros e [= <-]. split; [simpl; congruence | exact Hname].
Qed.

Lemma ensureCollectionExists_once_witness :
  let first := ensureCollectionExists Sample.env "faces" Sample.start in
  fst first = Return tt /\
  w_calls (snd (ensureCollectionExists Sample.env "faces" (snd first)))
  = [CallCreateCollection "faces"].
Proof.
  intros first.
  destruct (ensureCollectionExists_once Sample.env "faces" Sample.start) as (_ & Hok & _).
  destruct (Hok eq_refl) as [_ Hagain].
  split; [reflexivity |].
  fold first in Hagain. rewrite (Hagain "faces"). reflexivity.
Defined.

(** ** The attendance record store: what a call can and cannot change *)

(** Either [getOrCreateAttendanceRecord] leaves the world as it is, or it
    appends one blank row for the employee and date and returns its
    identity. *)
Lemma getOrCreate_world {image : Type} (env : environment image)
    (emp_id : option Z) (date : string) (w : world) :
  let run := getOrCreateAttendanceRecord env emp_id date w in
  snd run = w \/
  exists e v,
    emp_id = Some e /\ e <> 0 /\ select_attendance_joined (w_db w) e date = [] /\
    fst run = Return v /\ v_attendance_id v = attendance_id_seq (w_db w) /\
    snd run
    = set_db (mkDb (employee (w_db w)) (designation (w_db w)) (wards (w_db w))
                (users (w_db w))
                (attendance (w_db w)
                 ++ [new_attendance_row (attendance_id_seq (w_db w)) e date
                       (current_ward (w_db w) e)])
                (attendance_id_seq (w_db w) + 1)) w.
Proof.
  cbv zeta.
  destruct (Js.truthy_id emp_id) eqn:Hid.
  2:{ left. rewrite getOrCreate_requires_id by exact Hid. reflexivity. }
  destruct emp_id as [e |]; [| discriminate]. simpl in Hid.
  assert (He : e <> 0) by (intros ->; discriminate).
  destruct (select_attendance_joined (w_db w) e date) as [| row rest] eqn:Hsel.
  2:{ left. rewrite (getOrCreate_found env date w e row rest He Hsel). reflexivity. }
  destruct (fst (insert_attendance env e date (current_ward (w_db w) e) w)) as [r | err]
    eqn:Hins.
  - revert Hins. unfold insert_attendance.
    destruct (fk_attendance_employee env && _) eqn:Hfk; [discriminate |].
    destruct (unique_employee_date env && _) eqn:Huq; [discriminate |].
    intros _.
    destruct (getOrCreate_created env date w e He Hsel Hfk Huq) as (v & Hrun & Hv & _).
    right. exists e, v. rewrite Hrun. simpl. repeat split; assumption.
  - left. rewrite (getOrCreate_rejected env date w e err He Hsel Hins). reflexivity.
Qed.



(** ** Attendance identities *)

Lemma well_keyed_same (d d' : db) :
  attendance d' = attendance d -> attendance_id_seq d' = attendance_id_seq d ->
  well_keyed d -> well_keyed d'.
Proof. unfold well_keyed. intros -> ->. trivial. Qed.

Lemma well_keyed_append (d : db) (e : Z) (date : string) (ward : option Z) :
  well_keyed d ->
  well_keyed (mkDb (employee d) (designation d) (wards d) (users d)
                (attendance d ++ [new_attendance_row (attendance_id_seq d) e date ward])
                (attendance_id_seq d + 1)).
Proof.
  intros [Hlt Hnd]. split; simpl.
  - apply Forall_app. split.
    + eapply Forall_impl; [exact Hlt |]. simpl. intros a Ha. lia.
    + constructor; [simpl; lia | constructor].
  - rewrite map_app. simpl. apply NoDup_app. split; [exact Hnd |]. split.
    + intros x Hx Hx'. apply list_elem_of_In in Hx, Hx'.
      destruct Hx' as [<- | []].
      apply in_map_iff in Hx as (a & Ha & Hin).
      rewrite Forall_forall in Hlt. apply list_elem_of_In in Hin.
      specialize (Hlt a Hin). simpl in Hlt. lia.
    + apply NoDup_singleton.
Qed.

Lemma update_rows_ids (attendanceId : Z) (isPunchIn : bool) (now : timestamp)
    (loc : location_data) (img : option string) (actor : option Z)
    (rows : list attendance_row) :
  map a_attendance_id
    (update_attendance_rows attendanceId (set_punch isPunchIn now loc img actor) rows)
  = map a_attendance_id rows.
Proof.
  unfold update_attendance_rows. rewrite map_map. apply map_ext. intros a.
  destruct (a_attendance_id a =? attendanceId); [apply set_punch_id | reflexivity].
Qed.

Lemma well_keyed_punched (d : db) (attendanceId : Z) (isPunchIn : bool) (now : timestamp)
    (loc : location_data) (img : option string) (actor : option Z) :
  well_keyed d ->
  well_keyed (punched_db d attendanceId (set_punch isPunchIn now loc img actor)).
Proof.
  intros [Hlt Hnd]. split; unfold punched_db; simpl.
  - unfold update_attendance_rows. apply Forall_map.
    eapply Forall_impl; [exact Hlt |]. simpl. intros a Ha.
    destruct (a_attendance_id a =? attendanceId); [rewrite set_punch_id |]; exact Ha.
  - rewrite update_rows_ids. exact Hnd.
Qed.

Lemma unique_key_one_row (rows : list attendance_row) (attendanceId : Z) :
  NoDup (map a_attendance_id rows) ->
  (length (List.filter (fun a => Z.eqb (a_attendance_id a) attendanceId) rows) <= 1)%nat.
Proof.
  induction rows as [| a rows IH]; simpl; [lia |].
  intros Hnd. apply NoDup_cons in Hnd as [Hnot Hnd].
  destruct (a_attendance_id a =? attendanceId) eqn:E; [| now apply IH].
  apply Z.eqb_eq in E.
  assert (List.filter (fun a0 => a_attendance_id a0 =? attendanceId) rows = []) as ->;
    [| simpl; lia].
  destruct (List.filter _ rows) as [| b l] eqn:Hf; [reflexivity |]. exfalso.
  assert (Hin : In b (List.filter (fun a0 => a_attendance_id a0 =? attendanceId) rows))
    by (rewrite Hf; left; reflexivity).
  apply filter_In in Hin as [Hin Hb]. apply Z.eqb_eq in Hb.
  apply Hnot. apply list_elem_of_In. apply in_map_iff. exists b. split; [congruence | exact Hin].
Qed.

Section ResolverFrame.

Context {image : Type}.
Variable env : environment image.

(** The resolver writes at most the cached identifier of employee rows. *)
Lemma resolver_world (faceId : option string) (matchedExternalId requestedEmpId : option Q)
    (w : world) :
  let run := resolveEmployeeFromFaceIdentifiers env faceId matchedExternalId requestedEmpId w in
  snd run = w \/
  exists f r, faceId = Some f /\ fst run = Return (Some r) /\
    snd run = set_db (update_employee_face_id f (ref_emp_id r) (w_db w)) w.
Proof.
  cbv zeta.
  destruct (resolver_cases faceId matchedExternalId requestedEmpId w)
    as [(row & Hhit) | (Hmiss & [(r & Hfound) | [[Hb Hc] | Hbad]])].
  - left. rewrite (resolve_by_face env _ _ _ w row Hhit). reflexivity.
  - rewrite (resolve_by_ids env _ _ _ w r Hmiss Hfound).
    destruct (Js.truthy_str faceId && negb (face_id_update_throws env (default "" faceId)
                                              (ref_emp_id r))) eqn:Hc.
    + right. apply andb_prop in Hc as [Ht _].
      destruct faceId as [f |]; [| discriminate Ht].
      exists f, r. repeat split.
    + left. reflexivity.
  - left. rewrite (resolve_none env _ _ _ w Hmiss Hb Hc). reflexivity.
  - left. rewrite (resolve_malformed env _ _ _ w Hmiss Hbad). reflexivity.
Qed.

Lemma resolver_attendance (faceId : option string)
    (matchedExternalId requestedEmpId : option Q) (w : world) :
  let run := resolveEmployeeFromFaceIdentifiers env faceId matchedExternalId requestedEmpId w in
  attendance (w_db (snd run)) = attendance (w_db w) /\
  attendance_id_seq (w_db (snd run)) = attendance_id_seq (w_db w) /\
  designation (w_db (snd run)) = designation (w_db w) /\
  wards (w_db (snd run)) = wards (w_db w) /\
  users (w_db (snd run)) = users (w_db w) /\
  w_now (snd run) = w_now w.
Proof.
  cbv zeta.
  destruct (resolver_world faceId matchedExternalId requestedEmpId w)
    as [-> | (f & r & _ & _ & ->)]; repeat split.
Qed.

End ResolverFrame.

(** X12.  Attendance identities stay pairwise different and below the
    sequence through every operation of the pipeline (get-or-create, punch
    processor, identity resolver, whatever their outcome); and in such a
    store an identity denotes at most one row, so a punch writes at most one
    row. *)
Theorem attendance_identities_stay_unique {image : Type} (env : environment image)
    (w : world) :
  well_keyed (w_db w) ->
  (forall emp_id date,
     well_keyed (w_db (snd (getOrCreateAttendanceRecord env emp_id date w)))) /\
  (forall attendanceId punchType imageFile userId loc options,
     well_keyed (w_db (snd (processPunch env attendanceId punchType imageFile userId loc
                              options w)))) /\
  (forall faceId matchedExternalId requestedEmpId,
     well_keyed (w_db (snd (resolveEmployeeFromFaceIdentifiers env faceId
                              matchedExternalId requestedEmpId w)))) /\
  (forall attendanceId,
     (length (select_attendance_by_id (w_db w) attendanceId) <= 1)%nat).
Proof.
  intros Hwk. split; [| split; [| split]].
  - intros emp_id date.
    destruct (getOrCreate_world env emp_id date w)
      as [-> | (e & v & _ & _ & _ & _ & _ & ->)]; [exact Hwk |].
    simpl. now apply well_keyed_append.
  - intros attendanceId punchType imageFile userId loc options.
    destruct (processPunch env attendanceId punchType imageFile userId loc options w)
      as [[rec | err] w'] eqn:Hrun; simpl.
    + destruct (processPunch_success env _ _ _ _ _ _ _ _ _ Hrun)
        as (img & row & rest & _ & _ & Hdb).
      cbv zeta in Hdb. rewrite Hdb. now apply well_keyed_punched.
    + rewrite (processPunch_throw_store env _ _ _ _ _ _ _ _ _ Hrun). exact Hwk.
  - intros faceId matchedExternalId requestedEmpId.
    destruct (resolver_attendance env faceId matchedExternalId requestedEmpId w)
      as (Ha & Hs & _).
    exact (well_keyed_same _ _ Ha Hs Hwk).
  - intros attendanceId. apply unique_key_one_row. apply Hwk.
Qed.

Lemma attendance_identities_stay_unique_witness :
  well_keyed (w_db (snd (getOrCreateAttendanceRecord Sample.env (Some 1) "2025-03-14"
                           Sample.start))).
Proof.
  destruct (attendance_identities_stay_unique Sample.env Sample.start) as [H _].
  - split; simpl; constructor.
  - apply H.
Defined.

(** ** The life of a record *)

(** X13.  A punch is not accepted twice: for an employee with a designation
    and a ward and with at most one record for the day, once the punch
    processor has written a punch-in (punch-out) on the record of the day,
    get-or-create returns a record again, and whichever row of the joined
    read it returns, the row has the identity of that record and fails the
    legality check for IN with AlreadyPunchedIn (for OUT with
    AlreadyPunchedOut). *)
Theorem repeated_punch_is_refused {image : Type} (env : environment image)
    (e : Z) (date : string) (w w1 w2 : world) (v : attendance_view)
    (punchType : string) (imageFile : option image) (userId : option string)
    (loc : location_data) (options : punch_options) (rec : punch_record) :
  employee_joined (w_db w) e <> [] -> one_record_per_day (w_db w) e date ->
  getOrCreateAttendanceRecord env (Some e) date w = (Return v, w1) ->
  punchType = PUNCH_TYPES_IN \/ punchType = PUNCH_TYPES_OUT ->
  processPunch env (v_attendance_id v) punchType imageFile userId loc options w1
  = (Return rec, w2) ->
  (exists v', getOrCreateAttendanceRecord env (Some e) date w2 = (Return v', w2) /\
              In v' (select_attendance_joined (w_db w2) e date)) /\
  (forall v', In v' (select_attendance_joined (w_db w2) e date) ->
     v_attendance_id v' = v_attendance_id v /\
     validatePunchAttempt (Some v') punchType
     = Some (if String.eqb punchType PUNCH_TYPES_IN
             then AlreadyPunchedIn else AlreadyPunchedOut)).
Proof.
  intros Hj Hone Hget Hdir Hpunch.
  destruct (reread_after_punch env e date w w1 w2 v punchType imageFile userId loc options
              rec Hj Hone Hget Hpunch) as (img & _ & Hread & Hall).
  split; [exact Hread |].
  intros v' Hv'. destruct (Hall v' Hv') as (x & -> & Hx).
  split; [destruct (String.eqb punchType PUNCH_TYPES_IN); exact Hx |].
  destruct Hdir as [-> | ->].
  - apply validate_in_set. apply to_char_hh12_truthy.
  - apply validate_out_set. apply to_char_hh12_truthy.
Qed.

Lemma repeated_punch_is_refused_witness :
  let env := matching_services in
  let first := getOrCreateAttendanceRecord env (Some 1) "2025-03-14" Sample.start in
  let punch := processPunch env 1 PUNCH_TYPES_IN (Some "photo") (Some "5") Sample.here
                 (mkOptions (Some 1) true None) (snd first) in
  exists v',
    fst (getOrCreateAttendanceRecord env (Some 1) "2025-03-14" (snd punch)) = Return v' /\
    validatePunchAttempt (Some v') PUNCH_TYPES_IN = Some AlreadyPunchedIn.
Proof.
  intros env first punch.
  destruct (fst first) as [v | ?] eqn:Hv; [| discriminate Hv].
  destruct (fst punch) as [rec | ?] eqn:Hrec; [| discriminate Hrec].
  destruct (repeated_punch_is_refused env 1 "2025-03-14" Sample.start (snd first)
              (snd punch) v PUNCH_TYPES_IN (Some "photo") (Some "5") Sample.here
              (mkOptions (Some 1) true None) rec)
    as ((v' & Hrun & Hin) & Hall).
  - discriminate.
  - unfold one_record_per_day. simpl. lia.
  - rewrite <- Hv. apply surjective_pairing.
  - left. reflexivity.
  - injection Hv as <-. rewrite <- Hrec. apply surjective_pairing.
  - exists v'. rewrite Hrun. split; [reflexivity | exact (proj2 (Hall v' Hin))].
Defined.

(** ** The identity resolver: the cache it repairs *)

Lemma key_eq_same (c c0 : Z) (q : Q) :
  key_eq c0 q = true -> key_eq c q = Z.eqb c c0.
Proof.
  unfold key_eq. intros H0. apply Qeq_bool_iff in H0.
  destruct (Z.eqb_spec c c0) as [-> | Hne].
  - apply Qeq_bool_iff. exact H0.
  - destruct (Qeq_bool (inject_Z c) q) eqn:E; [| reflexivity].
    apply Qeq_bool_iff in E. exfalso. apply Hne.
    assert (inject_Z c == inject_Z c0)%Q as Heq by (rewrite E, H0; reflexivity).
    unfold Qeq, inject_Z in Heq. simpl in Heq. lia.
Qed.

(** The rows a lookup by identity selects are the rows of the employee it
    returns. *)
Lemma id_finds_rows (d : db) (id : option Q) (r : employee_ref) :
  id_finds d id r -> first_employee (fun e => e_emp_id e =? ref_emp_id r) d = Some r.
Proof.
  intros (q & _ & _ & Hf). rewrite <- Hf. apply first_employee_ext. intros e.
  unfold first_employee in Hf.
  destruct (find _ (employee d)) as [e0 |] eqn:Hfind; [| discriminate].
  injection Hf as <-. apply find_some in Hfind as [_ Hk]. simpl.
  symmetry. exact (key_eq_same (e_emp_id e) (e_emp_id e0) q Hk).
Qed.

Lemma find_after_repair (f : string) (empId : Z) (rows : list employee_row) :
  find (fun e => bool_decide (e_face_id e = Some f)) rows = None ->
  find (fun e => bool_decide (e_face_id e = Some f))
    (map (fun e => if (e_emp_id e =? empId) && negb (sql_eq_str (e_face_id e) f)
                   then set_face_id f e else e) rows)
  = option_map (set_face_id f) (find (fun e => e_emp_id e =? empId) rows).
Proof.
  induction rows as [| e rows IH]; simpl; [reflexivity |].
  rewrite sql_eq_str_decide.
  destruct (bool_decide (e_face_id e = Some f)) eqn:Hface; [discriminate |].
  intros Hrest. rewrite andb_true_r.
  destruct (e_emp_id e =? empId); simpl.
  - rewrite bool_decide_eq_true_2 by reflexivity. reflexivity.
  - rewrite Hface. now apply IH.
Qed.

(** X14.  The cache repair takes effect: after the resolver has found an
    employee through an identity, with a biometric identifier that no row
    held and a write that did not fail, resolving by that biometric
    identifier alone returns the same employee and writes nothing. *)
Theorem resolver_cache_hit_after_repair {image : Type} (env : environment image)
    (f : string) (matchedExternalId requestedEmpId : option Q) (w : world)
    (r : employee_ref) :
  f <> "" ->
  lookup_by_face (w_db w) (Some f) = None ->
  fst (resolveEmployeeFromFaceIdentifiers env (Some f) matchedExternalId requestedEmpId w)
  = Return (Some r) ->
  face_id_update_throws env f (ref_emp_id r) = false ->
  let w1 := snd (resolveEmployeeFromFaceIdentifiers env (Some f) matchedExternalId
                   requestedEmpId w) in
  lookup_by_face (w_db w1) (Some f) = Some r /\
  resolveEmployeeFromFaceIdentifiers env (Some f) None None w1 = (Return (Some r), w1).
Proof.
  intros Hne Hmiss Hres Hok w1.
  assert (Ht : Js.truthy_str (Some f) = true).
  { simpl. apply String.eqb_neq in Hne. rewrite Hne. reflexivity. }
  pose proof (resolve_returned env (Some f) matchedExternalId requestedEmpId w r Hmiss Hres)
    as Hfound.
  pose proof (resolve_by_ids env (Some f) matchedExternalId requestedEmpId w r Hmiss Hfound)
    as Hrun.
  change (default "" (Some f)) with f in Hrun.
  rewrite Ht, Hok in Hrun. cbn [andb negb] in Hrun.
  assert (Hw : w1 = set_db (update_employee_face_id f (ref_emp_id r) (w_db w)) w).
  { unfold w1. rewrite Hrun. reflexivity. }
  assert (Hrows : first_employee (fun e => e_emp_id e =? ref_emp_id r) (w_db w) = Some r).
  { destruct Hfound as [Hb | [_ Hc]]; eapply id_finds_rows; eassumption. }
  assert (Hhit : lookup_by_face (w_db w1) (Some f) = Some r).
  { unfold lookup_by_face in *. rewrite Ht in *. simpl default in *.
    unfold first_employee in *. rewrite Hw. simpl.
    rewrite find_after_repair.
    - destruct (find (fun e => e_emp_id e =? ref_emp_id r) (employee (w_db w))) as [e |];
        [exact Hrows | discriminate Hrows].
    - destruct (find _ (employee (w_db w))); [discriminate Hmiss | reflexivity]. }
  split; [exact Hhit |]. now apply resolve_by_face.
Qed.

Lemma resolver_cache_hit_after_repair_witness :
  let w1 := snd (resolveEmployeeFromFaceIdentifiers Sample.env (Some "f-9")
                   (Some (inject_Z 2)) None Sample.start) in
  resolveEmployeeFromFaceIdentifiers Sample.env (Some "f-9") None None w1
  = (Return (Some (mkRef 2 (Some "Birju"))), w1).
Proof.
  intros w1.
  assert (Hne : "f-9" <> "") by discriminate.
  destruct (resolver_cache_hit_after_repair Sample.env "f-9" (Some (inject_Z 2)) None
              Sample.start (mkRef 2 (Some "Birju")) Hne eq_refl eq_refl eq_refl) as [_ H].
  exact H.
Defined.

(** X15.  The resolver never invents an employee: what it returns is a row
    of the directory that one of the supplied identifiers selects (its
    cached biometric identifier equals the supplied one, or its key equals
    the tagged or the requested identity); with no identifier supplied it
    returns nothing and writes nothing. *)
Theorem resolver_returns_directory_employee {image : Type} (env : environment image)
    (faceId : option string) (matchedExternalId requestedEmpId : option Q) (w : world) :
  let run := resolveEmployeeFromFaceIdentifiers env faceId matchedExternalId requestedEmpId w in
  (forall r, fst run = Return (Some r) ->
     exists e, In e (employee (w_db w)) /\ to_ref e = r /\
       ((exists f, faceId = Some f /\ f <> "" /\ e_face_id e = Some f) \/
        (exists q, matchedExternalId = Some q /\ key_eq (e_emp_id e) q = true) \/
        (exists q, requestedEmpId = Some q /\ key_eq (e_emp_id e) q = true))) /\
  (Js.truthy_str faceId = false -> matchedExternalId = None -> requestedEmpId = None ->
   run = (Return None, w)).
Proof.
  intros run. split.
  - intros r Hr.
    destruct (lookup_by_face (w_db w) faceId) as [row |] eqn:Hf.
    + unfold run in Hr. rewrite (resolve_by_face env _ _ _ w row Hf) in Hr.
      injection Hr as ->.
      unfold lookup_by_face in Hf.
      destruct (Js.truthy_str faceId) eqn:Ht; [| discriminate].
      destruct faceId as [f |]; [| discriminate]. simpl default in Hf.
      unfold first_employee in Hf.
      destruct (find _ (employee (w_db w))) as [e0 |] eqn:Hfind; [| discriminate].
      injection Hf as <-. apply find_some in Hfind as [Hin Hface].
      apply bool_decide_eq_true in Hface.
      exists e0. split; [exact Hin |]. split; [reflexivity |]. left.
      exists f. split; [reflexivity |]. split; [| exact Hface].
      intros ->. discriminate Ht.
    + destruct (resolve_returned env _ _ _ w r Hf Hr) as [Hb | [_ Hc]].
      * destruct (id_finds_row _ _ _ Hb) as (e & q & Hin & Href & Hq & Hk).
        exists e. split; [exact Hin |]. split; [exact Href |]. right. left. eauto.
      * destruct (id_finds_row _ _ _ Hc) as (e & q & Hin & Href & Hq & Hk).
        exists e. split; [exact Hin |]. split; [exact Href |]. right. right. eauto.
  - intros Ht -> ->. unfold run, resolveEmployeeFromFaceIdentifiers, bind, get_db.
    rewrite Ht. reflexivity.
Qed.

Lemma resolver_returns_directory_employee_witness :
  resolveEmployeeFromFaceIdentifiers Sample.env (Some "") None None Sample.start
  = (Return None, Sample.start).
Proof.
  destruct (resolver_returns_directory_employee Sample.env (Some "") None None
              Sample.start) as [_ H].
  apply H; reflexivity.
Defined.

(** ** The face-attendance route *)

Section FaceRoute.

Context {image : Type}.
Variable env : environment image.

(** How a request reaches a branch: without image or collection, or when
    the collection cannot be ensured, an error is answered and the store is
    untouched; otherwise the selected branch runs in a world with the same
    store and clock, and what it throws is turned into an error answer. *)
Lemma route_face_attendance_cases (req : face_request) (w : world) :
  let run := route_face_attendance env req w in
  (is_error_body (res_body (fst run)) = true /\
   w_db (snd run) = w_db w /\ w_now (snd run) = w_now w) \/
  exists buffer collectionId w1,
    fr_file req = Some buffer /\ w_db w1 = w_db w /\ w_now w1 = w_now w /\
    ((exists r, face_branch env req buffer collectionId w1 = (Return r, snd run) /\
                fst run = r) \/
     (exists e, face_branch env req buffer collectionId w1 = (Throw e, snd run) /\
                is_error_body (res_body (fst run)) = true)).
Proof.
  cbv zeta. unfold route_face_attendance.
  destruct (fr_file req) as [buffer |]; [| left; repeat split].
  destruct (resolveCollectionId env) as [collectionId |]; [| left; repeat split].
  unfold handle.
  destruct (ensureCollectionExists env collectionId w) as [[[] | err] w1] eqn:Hens.
  - erewrite bind_return by exact Hens.
    right. exists buffer, collectionId, w1.
    pose proof (ensureCollectionExists_store env collectionId w) as Hdb.
    rewrite Hens in Hdb. simpl in Hdb.
    assert (Hnow : w_now w1 = w_now w).
    { revert Hens. unfold ensureCollectionExists.
      destruct (w_faceCollectionReady w); [intros [= <-]; reflexivity |].
      unfold bind, try_catch, call.
      destruct (createCollection env collectionId) as [[] | e0];
        [intros [= <-]; reflexivity |].
      destruct (String.eqb (err_name e0) _); [intros [= <-]; reflexivity | discriminate]. }
    split; [reflexivity |]. split; [exact Hdb |]. split; [exact Hnow |].
    destruct (face_branch env req buffer collectionId w1) as [[r | e] w2] eqn:Hb;
      pose proof Hb as Hb';
      unfold face_branch, group_mode_requested, requested_direction,
        requested_threshold, requested_location in Hb';
      cbv zeta; rewrite Hb'.
    + left. exists r. split; reflexivity.
    + right. exists e. split; [reflexivity |]. simpl.
      destruct (err_statusCode e) as [code |]; [destruct (code =? 0) |]; reflexivity.
  - erewrite bind_throw by exact Hens. left.
    pose proof (ensureCollectionExists_store env collectionId w) as Hdb.
    rewrite Hens in Hdb. simpl in Hdb.
    split; [| split; [exact Hdb |]].
    + simpl. destruct (err_statusCode err) as [code |]; [destruct (code =? 0) |]; reflexivity.
    + revert Hens. unfold ensureCollectionExists.
      destruct (w_faceCollectionReady w); [discriminate |].
      unfold bind, try_catch, call.
      destruct (createCollection env collectionId) as [[] | e0]; [discriminate |].
      destruct (String.eqb (err_name e0) _); [discriminate |].
      intros [= _ <-]. reflexivity.
Qed.

End FaceRoute.

(** ** The lifecycle of attendance rows *)

Lemma row_advances_refl (a : attendance_row) : row_advances a a.
Proof. repeat split. Qed.

Lemma row_advances_trans (a b c : attendance_row) :
  row_advances a b -> row_advances b c -> row_advances a c.
Proof.
  intros (Hk1 & Hi1 & Ho1) (Hk2 & Hi2 & Ho2). split; [congruence |]. split.
  - intros Hin. specialize (Hi1 Hin). rewrite <- Hi1. apply Hi2.
    unfold kept_columns in Hi1. injection Hi1 as _ _ _ _ _ Ht _ _ _ _ _. congruence.
  - intros Hout. specialize (Ho1 Hout). rewrite <- Ho1. apply Ho2.
    unfold kept_columns in Ho1. injection Ho1 as _ _ _ _ _ Ht _ _ _ _ _. congruence.
Qed.

Lemma table_advances_refl (rows : list attendance_row) : table_advances rows rows.
Proof. intros i a Ha. exists a. split; [exact Ha | apply row_advances_refl]. Qed.

Lemma table_advances_trans (r1 r2 r3 : list attendance_row) :
  table_advances r1 r2 -> table_advances r2 r3 -> table_advances r1 r3.
Proof.
  intros H12 H23 i a Ha.
  destruct (H12 i a Ha) as (b & Hb & Hab).
  destruct (H23 i b Hb) as (c & Hc & Hbc).
  exists c. split; [exact Hc | exact (row_advances_trans a b c Hab Hbc)].
Qed.

Lemma table_advances_app (rows added : list attendance_row) :
  table_advances rows (rows ++ added).
Proof.
  intros i a Ha. exists a. split; [| apply row_advances_refl].
  apply lookup_app_l_Some. exact Ha.
Qed.

Lemma lifecycle_step_refl (d d' : db) :
  attendance d' = attendance d -> attendance_id_seq d' = attendance_id_seq d ->
  lifecycle_step d d'.
Proof.
  intros Ha Hs [Hk Ho]. split; [split |].
  - exact (well_keyed_same d d' Ha Hs Hk).
  - rewrite Ha. exact Ho.
  - rewrite Ha. apply table_advances_refl.
Qed.

Lemma lifecycle_step_trans (d1 d2 d3 : db) :
  lifecycle_step d1 d2 -> lifecycle_step d2 d3 -> lifecycle_step d1 d3.
Proof.
  intros H12 H23 H1. destruct (H12 H1) as [H2 Ht12]. destruct (H23 H2) as [H3 Ht23].
  split; [exact H3 | exact (table_advances_trans _ _ _ Ht12 Ht23)].
Qed.

(** Appending a blank row with the next identity respects the lifecycle. *)
Lemma lifecycle_step_append (d : db) (e : Z) (date : string) (ward : option Z) :
  lifecycle_step d
    (mkDb (employee d) (designation d) (wards d) (users d)
       (attendance d ++ [new_attendance_row (attendance_id_seq d) e date ward])
       (attendance_id_seq d + 1)).
Proof.
  intros [Hk Ho]. split; [split |]; simpl.
  - apply well_keyed_append. exact Hk.
  - apply Forall_app. split; [exact Ho |].
    constructor; [| constructor]. intros Hout. exfalso. apply Hout. reflexivity.
  - apply table_advances_app.
Qed.

Lemma unique_key_same_row (rows : list attendance_row) (a b : attendance_row) :
  NoDup (map a_attendance_id rows) -> In a rows -> In b rows ->
  a_attendance_id a = a_attendance_id b -> a = b.
Proof.
  induction rows as [| c rows IH]; simpl; [intros _ [] |].
  intros Hnd Ha Hb Hid. apply NoDup_cons in Hnd as [Hnot Hnd].
  assert (Hmem : forall x, In x rows -> a_attendance_id x ∈ map a_attendance_id rows).
  { intros x Hx. apply list_elem_of_In, in_map, Hx. }
  destruct Ha as [<- | Ha], Hb as [<- | Hb].
  - reflexivity.
  - exfalso. apply Hnot. rewrite Hid. apply Hmem, Hb.
  - exfalso. apply Hnot. rewrite <- Hid. apply Hmem, Ha.
  - apply IH; assumption.
Qed.

(** A punch that the row of the record admits respects the lifecycle. *)
Lemma lifecycle_step_punch (d : db) (a : attendance_row) (isPunchIn : bool)
    (now : timestamp) (loc : location_data) (img : option string) (actor : option Z) :
  In a (attendance d) -> admits isPunchIn a ->
  lifecycle_step d
    (punched_db d (a_attendance_id a) (set_punch isPunchIn now loc img actor)).
Proof.
  intros Hin Hadm [Hk Ho]. split; [split |].
  - apply well_keyed_punched. exact Hk.
  - unfold punched_db, update_attendance_rows. simpl. apply Forall_map.
    rewrite Forall_forall. intros b Hb. apply list_elem_of_In in Hb.
    rewrite Forall_forall in Ho. pose proof (Ho b (proj2 (list_elem_of_In _ _) Hb)) as Hob.
    destruct (a_attendance_id b =? a_attendance_id a) eqn:E; [| exact Hob].
    apply Z.eqb_eq in E.
    assert (b = a) as -> by (apply (unique_key_same_row (attendance d)); [apply Hk | | |]; assumption).
    unfold in_order, admits in *. destruct isPunchIn; simpl.
    + intros _. discriminate.
    + intros _. apply Hadm.
  - unfold punched_db, update_attendance_rows. simpl. intros i b Hb.
    exists (if a_attendance_id b =? a_attendance_id a
            then set_punch isPunchIn now loc img actor b else b).
    split; [rewrite list_lookup_fmap, Hb; reflexivity |].
    destruct (a_attendance_id b =? a_attendance_id a) eqn:E; [| apply row_advances_refl].
    apply Z.eqb_eq in E.
    assert (b = a) as ->.
    { apply (unique_key_same_row (attendance d)); [apply Hk | | exact Hin | exact E].
      apply list_elem_of_In. eapply list_elem_of_lookup_2. exact Hb. }
    unfold admits in Hadm. destruct isPunchIn.
    + split; [reflexivity |]. split; [intros H; contradiction | intros _; reflexivity].
    + destruct Hadm as [_ Hout].
      split; [reflexivity |]. split; [intros _; reflexivity | intros H; contradiction].
Qed.

Section LifecycleSteps.

Context {image : Type}.
Variable env : environment image.

Lemma getOrCreate_step (emp_id : option Z) (date : string) (w : world) :
  lifecycle_step (w_db w) (w_db (snd (getOrCreateAttendanceRecord env emp_id date w))).
Proof.
  destruct (getOrCreate_world env emp_id date w) as [-> | (e & v & _ & _ & _ & _ & _ & ->)].
  - apply lifecycle_step_refl; reflexivity.
  - apply lifecycle_step_append.
Qed.

(** The record that get-or-create returns shows a row of the store it
    leaves: same identity, and the punch times of that row as text. *)
Lemma getOrCreate_row (emp_id : option Z) (date : string) (w w1 : world)
    (v : attendance_view) :
  getOrCreateAttendanceRecord env emp_id date w = (Return v, w1) ->
  exists a, In a (attendance (w_db w1)) /\
    a_attendance_id a = v_attendance_id v /\
    v_punch_in_time v = option_map to_char_hh12 (a_punch_in_time a) /\
    v_punch_out_time v = option_map to_char_hh12 (a_punch_out_time a).
Proof.
  intros Hrun.
  destruct (Js.truthy_id emp_id) eqn:Hid.
  2:{ rewrite getOrCreate_requires_id in Hrun by exact Hid. discriminate. }
  destruct emp_id as [e |]; [| discriminate]. simpl in Hid.
  assert (He : e <> 0) by (intros ->; discriminate).
  destruct (select_attendance_joined (w_db w) e date) as [| row rest] eqn:Hsel.
  - destruct (fst (insert_attendance env e date (current_ward (w_db w) e) w)) as [r | err]
      eqn:Hins.
    + revert Hins. unfold insert_attendance.
      destruct (fk_attendance_employee env && _) eqn:Hfk; [discriminate |].
      destruct (unique_employee_date env && _) eqn:Huq; [discriminate |].
      intros _.
      destruct (getOrCreate_created env date w e He Hsel Hfk Huq)
        as (v' & Hrun' & Hv & _ & _ & _ & Hpin & Hpout).
      rewrite Hrun in Hrun'. injection Hrun' as <- ->.
      exists (new_attendance_row (attendance_id_seq (w_db w)) e date
                (current_ward (w_db w) e)).
      simpl. split; [apply in_or_app; right; left; reflexivity |].
      rewrite Hv, Hpin, Hpout. repeat split.
    + rewrite (getOrCreate_rejected env date w e err He Hsel Hins) in Hrun. discriminate.
  - rewrite (getOrCreate_found env date w e row rest He Hsel) in Hrun.
    injection Hrun as <- <-.
    assert (Hin : In row (select_attendance_joined (w_db w) e date))
      by (rewrite Hsel; left; reflexivity).
    unfold select_attendance_joined in Hin.
    apply in_flat_map in Hin as (a & Ha & Hin).
    destruct (sql_eq_Z (a_emp_id a) e && String.eqb (a_date a) date); [| destruct Hin].
    apply in_map_iff in Hin as ([[er dg] wd] & <- & _).
    exists a. repeat split. exact Ha.
Qed.

Lemma validate_admits (v : attendance_view) (a : attendance_row) (punchType : string) :
  punchType = PUNCH_TYPES_IN \/ punchType = PUNCH_TYPES_OUT ->
  v_punch_in_time v = option_map to_char_hh12 (a_punch_in_time a) ->
  v_punch_out_time v = option_map to_char_hh12 (a_punch_out_time a) ->
  validatePunchAttempt (Some v) punchType = None ->
  admits (String.eqb punchType PUNCH_TYPES_IN) a.
Proof.
  intros Hpt Hin Hout. unfold validatePunchAttempt, admits. rewrite Hin, Hout.
  destruct Hpt as [-> | ->]; simpl String.eqb; cbn [andb].
  - destruct (a_punch_in_time a) as [t |]; simpl option_map.
    + rewrite to_char_hh12_truthy. discriminate.
    + reflexivity.
  - destruct (a_punch_out_time a) as [t |]; simpl option_map.
    + rewrite to_char_hh12_truthy. discriminate.
    + destruct (a_punch_in_time a) as [t |]; simpl option_map.
      * intros _. split; [discriminate | reflexivity].
      * simpl. discriminate.
Qed.

Lemma processPunch_step (a : attendance_row) (punchType : string)
    (imageFile : option image) (userId : option string) (loc : location_data)
    (options : punch_options) (w : world) :
  In a (attendance (w_db w)) -> admits (String.eqb punchType PUNCH_TYPES_IN) a ->
  lifecycle_step (w_db w)
    (w_db (snd (processPunch env (a_attendance_id a) punchType imageFile userId loc
                  options w))).
Proof.
  intros Hin Hadm.
  destruct (processPunch env (a_attendance_id a) punchType imageFile userId loc options w)
    as [[rec | err] w'] eqn:Hrun; simpl.
  - destruct (processPunch_success env _ _ _ _ _ _ _ _ _ Hrun)
      as (img & row & rest & _ & _ & Hdb).
    cbv zeta in Hdb. rewrite Hdb. apply lifecycle_step_punch; assumption.
  - apply processPunch_throw_store in Hrun.
    apply lifecycle_step_refl; rewrite Hrun; reflexivity.
Qed.

(** Get-or-create, the legality check and the punch processor in a row, as
    both branches of the face route run them, respect the lifecycle
    whatever each of them answers. *)
Lemma punch_steps {A : Type} (e : option Z) (today punchType : string)
    (imageFile : option image) (userId : option string) (loc : location_data)
    (options : punch_options)
    (refused : attendance_view -> validation_error -> A)
    (accepted : attendance_view -> punch_record -> A) (w : world) :
  punchType = PUNCH_TYPES_IN \/ punchType = PUNCH_TYPES_OUT ->
  lifecycle_step (w_db w)
    (w_db (snd ((let! attendance := getOrCreateAttendanceRecord env e today in
                 match validatePunchAttempt (Some attendance) punchType with
                 | Some validation => ret (refused attendance validation)
                 | None =>
                     let! updated :=
                       processPunch env (v_attendance_id attendance) punchType imageFile
                         userId loc options in
                     ret (accepted attendance updated)
                 end) w))).
Proof.
  intros Hpt.
  pose proof (getOrCreate_step e today w) as Hget.
  unfold bind at 1.
  destruct (getOrCreateAttendanceRecord env e today w) as [[v | err] w1] eqn:Hrun;
    simpl in Hget; [| exact Hget].
  eapply lifecycle_step_trans; [exact Hget |].
  destruct (getOrCreate_row _ _ _ _ _ Hrun) as (a & Ha & Hid & Hin & Hout).
  destruct (validatePunchAttempt (Some v) punchType) as [validation |] eqn:Hval.
  { apply lifecycle_step_refl; reflexivity. }
  pose proof (validate_admits v a punchType Hpt Hin Hout Hval) as Hadm.
  pose proof (processPunch_step a punchType imageFile userId loc options w1 Ha Hadm) as Hp.
  rewrite Hid in Hp. unfold bind.
  destruct (processPunch env (v_attendance_id v) punchType imageFile userId loc options w1)
    as [[rec | err] w2]; exact Hp.
Qed.

End LifecycleSteps.

Section LifecycleRoutes.

Context {image : Type}.
Variable env : environment image.

Lemma resolver_step (faceId : option string) (matchedExternalId requestedEmpId : option Q)
    (w : world) :
  lifecycle_step (w_db w)
    (w_db (snd (resolveEmployeeFromFaceIdentifiers env faceId matchedExternalId
                  requestedEmpId w))).
Proof.
  destruct (resolver_attendance env faceId matchedExternalId requestedEmpId w)
    as (Ha & Hs & _).
  apply lifecycle_step_refl; assumption.
Qed.

(** One turn of the loop over the detected faces respects the lifecycle. *)
Lemma process_face_lifecycle (buffer : image) (collectionId punchType : string)
    (matchThreshold : Q) (userId : option string) (loc : location_data)
    (today : string) (imageWidth imageHeight faceIndex : Z) (faceDetail : face_detail)
    (processed : gset Z) (w : world) :
  punchType = PUNCH_TYPES_IN \/ punchType = PUNCH_TYPES_OUT ->
  lifecycle_step (w_db w)
    (w_db (snd (process_face env buffer collectionId punchType matchThreshold userId loc
                  today imageWidth imageHeight faceIndex faceDetail processed w))).
Proof.
  intros Hpt. unfold process_face.
  destruct (computeCropRegion _ imageWidth imageHeight) as [region |];
    [| apply lifecycle_step_refl; reflexivity].
  unfold bind at 1.
  match goal with
  | |- context [try_catch ?c ?h w] => destruct (try_catch c h w) as [[cropped | err] w1] eqn:Hc
  end.
  2:{ unfold try_catch, bind, call, ret in Hc.
      destruct (sharp_extract_resize env buffer region); discriminate. }
  assert (Hw1 : w_db w1 = w_db w).
  { unfold try_catch, bind, call, ret in Hc.
    destruct (sharp_extract_resize env buffer region); injection Hc as _ <-; reflexivity. }
  rewrite <- Hw1. clear Hc Hw1 w.
  destruct cropped as [faceImageBuffer |]; [| apply lifecycle_step_refl; reflexivity].
  unfold try_catch.
  match goal with
  | |- context [match ?body w1 with _ => _ end] =>
      assert (Hbody : lifecycle_step (w_db w1) (w_db (snd (body w1))));
        [| destruct (body w1) as [[r | err] w2]; exact Hbody]
  end.
  unfold bind at 1. unfold call.
  destruct (searchFacesByImage env collectionId faceImageBuffer 3 matchThreshold)
    as [matches | err]; [| apply lifecycle_step_refl; reflexivity].
  destruct (head matches ≫= _) as [[bestMatch bestFace] |];
    [| apply lifecycle_step_refl; reflexivity].
  cbv zeta. unfold bind at 1.
  set (w3 := log_call (CallSearchFacesByImage 3 matchThreshold) w1).
  change (w_db w1) with (w_db w3).
  pose proof (resolver_step (FaceId bestFace) (normalizeId env (ExternalImageId bestFace))
                None w3) as Hres.
  destruct (resolveEmployeeFromFaceIdentifiers env (FaceId bestFace)
              (normalizeId env (ExternalImageId bestFace)) None w3)
    as [[[emp |] | err] w4]; simpl in Hres; try exact Hres.
  eapply lifecycle_step_trans; [exact Hres |].
  destruct (bool_decide (ref_emp_id emp ∈ processed));
    [apply lifecycle_step_refl; reflexivity |].
  apply (punch_steps env (Some (ref_emp_id emp)) today punchType (Some faceImageBuffer)
           userId loc (mkOptions (Some (ref_emp_id emp)) true (Some matchThreshold))
           (fun attendance validation =>
              (mkOutcome faceIndex skipped (sm_Similarity bestMatch)
                 (Some (ref_emp_id emp)) (ref_name emp)
                 (Some (val_error validation)) None None,
               {[ ref_emp_id emp ]} ∪ processed))
           (fun attendance updated =>
              (mkOutcome faceIndex punched (sm_Similarity bestMatch)
                 (Some (ref_emp_id emp)) (ref_name emp) None
                 (Some (v_attendance_id attendance))
                 (if String.eqb punchType PUNCH_TYPES_IN
                  then a_punch_in_time (pr_row updated)
                  else a_punch_out_time (pr_row updated)),
               {[ ref_emp_id emp ]} ∪ processed))
           w4 Hpt).
Qed.

Lemma group_loop_lifecycle (buffer : image) (collectionId punchType : string)
    (matchThreshold : Q) (userId : option string) (loc : location_data)
    (today : string) (imageWidth imageHeight : Z) (faceDetails : list face_detail) :
  punchType = PUNCH_TYPES_IN \/ punchType = PUNCH_TYPES_OUT ->
  forall (faceIndex : Z) (processed : gset Z) (results : list face_outcome) (w : world),
    lifecycle_step (w_db w)
      (w_db (snd (group_loop env buffer collectionId punchType matchThreshold userId loc
                    today imageWidth imageHeight faceDetails faceIndex processed results
                    w))).
Proof.
  intros Hpt.
  induction faceDetails as [| faceDetail rest IH]; intros faceIndex processed results w.
  - apply lifecycle_step_refl; reflexivity.
  - simpl. unfold bind.
    pose proof (process_face_lifecycle buffer collectionId punchType matchThreshold userId
                  loc today imageWidth imageHeight faceIndex faceDetail processed w Hpt)
      as Hstep.
    destruct (process_face env buffer collectionId punchType matchThreshold userId loc
                today imageWidth imageHeight faceIndex faceDetail processed w)
      as [[step | err] w1]; simpl in Hstep; [| exact Hstep].
    eapply lifecycle_step_trans; [exact Hstep | apply IH].
Qed.

Lemma group_branch_lifecycle (buffer : image) (collectionId punchType : string)
    (matchThreshold : Q) (userId : option string) (loc : location_data) (w : world) :
  punchType = PUNCH_TYPES_IN \/ punchType = PUNCH_TYPES_OUT ->
  lifecycle_step (w_db w)
    (w_db (snd (group_branch env buffer collectionId punchType matchThreshold userId loc
                  w))).
Proof.
  intros Hpt. unfold group_branch. unfold bind at 1. unfold call.
  destruct (detectFaces env buffer) as [[| fd fds] | err];
    try (apply lifecycle_step_refl; reflexivity).
  unfold bind at 1.
  destruct (sharp_metadata env buffer) as [[[imageWidth |] [imageHeight |]] | err];
    try (apply lifecycle_step_refl; reflexivity).
  destruct ((imageWidth =? 0) || (imageHeight =? 0));
    [apply lifecycle_step_refl; reflexivity |].
  unfold bind at 1. unfold bind at 1.
  match goal with
  | |- context [group_loop env buffer collectionId punchType matchThreshold userId loc
                  ?today imageWidth imageHeight ?faces 1 ∅ [] ?w0] =>
      pose proof (group_loop_lifecycle buffer collectionId punchType matchThreshold userId
                    loc today imageWidth imageHeight faces Hpt 1 ∅ [] w0) as Hloop;
      destruct (group_loop env buffer collectionId punchType matchThreshold userId loc
                  today imageWidth imageHeight faces 1 ∅ [] w0) as [[final | err] w1]
  end; exact Hloop.
Qed.

Lemma single_branch_lifecycle (buffer : image) (collectionId punchType : string)
    (matchThreshold : Q) (userId : option string) (loc : location_data)
    (requestedEmpId : option Q) (w : world) :
  punchType = PUNCH_TYPES_IN \/ punchType = PUNCH_TYPES_OUT ->
  lifecycle_step (w_db w)
    (w_db (snd (single_branch env buffer collectionId punchType matchThreshold userId loc
                  requestedEmpId w))).
Proof.
  intros Hpt. unfold single_branch. unfold bind at 1. unfold call.
  destruct (searchFacesByImage env collectionId buffer 1 matchThreshold)
    as [[| first rest] | err]; try (apply lifecycle_step_refl; reflexivity).
  cbv zeta. unfold bind at 1.
  set (w1 := log_call (CallSearchFacesByImage 1 matchThreshold) w).
  change (w_db w) with (w_db w1).
  pose proof (resolver_step (sm_Face first ≫= FaceId)
                (normalizeId env (sm_Face first ≫= ExternalImageId)) requestedEmpId w1)
    as Hres.
  destruct (resolveEmployeeFromFaceIdentifiers env (sm_Face first ≫= FaceId)
              (normalizeId env (sm_Face first ≫= ExternalImageId)) requestedEmpId w1)
    as [[[emp |] | err] w2]; simpl in Hres; try exact Hres.
  eapply lifecycle_step_trans; [exact Hres |].
  unfold bind at 1.
  apply (punch_steps env (Some (ref_emp_id emp)) (formatDate env (w_now w2)) punchType
           (Some buffer) userId loc
           (mkOptions (Some (ref_emp_id emp)) true (Some matchThreshold))
           (fun attendance validation =>
              error_response (val_status validation) (val_error validation))
           (fun attendance updated =>
              mkResponse 200
                (BodySingle (ref_name emp) punchType (pr_face_similarity updated)
                   (default matchThreshold (pr_face_match_threshold updated))
                   (if String.eqb punchType PUNCH_TYPES_IN
                    then a_punch_in_time (pr_row updated)
                    else a_punch_out_time (pr_row updated))))
           w2 Hpt).
Qed.

Lemma requested_direction_cases (req : @face_request image) :
  requested_direction req = PUNCH_TYPES_IN \/ requested_direction req = PUNCH_TYPES_OUT.
Proof. unfold requested_direction. destruct (String.eqb _ _); [right | left]; reflexivity. Qed.

End LifecycleRoutes.

(** X16.  Whatever the request and whatever the services answer, the
    face-attendance route respects the lifecycle of the stored rows: in a
    store with unique identities where no row has a punch-out without a
    punch-in, every row stays at its place with its keys, a punch that is
    stored keeps its time, place, evidence and actor, no punch-out appears
    on a row without punch-in, and identities stay unique. *)
Theorem face_route_respects_lifecycle {image : Type} (env : environment image)
    (req : face_request) (w : world) :
  lifecycle_sound (w_db w) ->
  let w' := snd (route_face_attendance env req w) in
  lifecycle_sound (w_db w') /\ table_advances (attendance (w_db w)) (attendance (w_db w')).
Proof.
  intros Hsound. cbv zeta.
  assert (Hstep : lifecycle_step (w_db w) (w_db (snd (route_face_attendance env req w))));
    [| exact (Hstep Hsound)].
  destruct (route_face_attendance_cases env req w)
    as [(_ & Hdb & _) | (buffer & collectionId & w1 & _ & Hdb & _ & Hrun)].
  - apply lifecycle_step_refl; rewrite Hdb; reflexivity.
  - rewrite <- Hdb.
    assert (Hb : lifecycle_step (w_db w1)
                   (w_db (snd (face_branch env req buffer collectionId w1)))).
    { unfold face_branch. destruct (group_mode_requested req).
      - apply group_branch_lifecycle, requested_direction_cases.
      - apply single_branch_lifecycle, requested_direction_cases. }
    destruct Hrun as [(r & Hr & _) | (e & Hr & _)]; rewrite Hr in Hb; exact Hb.
Qed.

Lemma afternoon_sound : lifecycle_sound (w_db afternoon).
Proof.
  split; [split |]; simpl.
  - constructor; [simpl; lia | constructor].
  - apply NoDup_singleton.
  - constructor; [intros _; discriminate | constructor].
Qed.

Lemma face_route_respects_lifecycle_witness :
  let w' := snd (route_face_attendance group_services group_request afternoon) in
  lifecycle_sound (w_db w') /\
  table_advances (attendance (w_db afternoon)) (attendance (w_db w')).
Proof.
  apply (face_route_respects_lifecycle group_services group_request afternoon).
  apply afternoon_sound.
Defined.

(** X17.  A manual punch whose direction is exactly IN or OUT respects the
    lifecycle of the stored rows, whatever the rest of the request and
    whatever the services answer: stored punches stay as they are, no
    punch-out appears on a row without punch-in, identities stay unique. *)
Theorem manual_route_respects_lifecycle {image : Type} (env : environment image)
    (req : manual_request) (w : world) :
  mr_punch_type req = Some PUNCH_TYPES_IN \/ mr_punch_type req = Some PUNCH_TYPES_OUT ->
  lifecycle_sound (w_db w) ->
  let w' := snd (route_put env req w) in
  lifecycle_sound (w_db w') /\ table_advances (attendance (w_db w)) (attendance (w_db w')).
Proof.
  intros Hpt Hsound. cbv zeta.
  assert (Hstep : lifecycle_step (w_db w) (w_db (snd (route_put env req w))));
    [| exact (Hstep Hsound)].
  clear Hsound. unfold route_put.
  destruct (negb (Js.truthy_str (mr_attendance_id req))
            || negb (Js.truthy_str (mr_punch_type req))
            || negb (Js.truthy_str (mr_latitude req))
            || negb (Js.truthy_str (mr_longitude req))
            || negb (Js.truthy_str (mr_address req)));
    [apply lifecycle_step_refl; reflexivity |].
  cbv zeta. unfold handle, bind at 1, get_db.
  destruct (pg_integer env (default "" (mr_attendance_id req))) as [attendance_id |];
    [| apply lifecycle_step_refl; reflexivity].
  destruct (select_attendance_by_id (w_db w) attendance_id) as [| row rest] eqn:Hsel;
    [apply lifecycle_step_refl; reflexivity |].
  assert (Hrow : In row (attendance (w_db w)) /\ a_attendance_id row = attendance_id).
  { assert (Hin : In row (select_attendance_by_id (w_db w) attendance_id))
      by (rewrite Hsel; left; reflexivity).
    apply filter_In in Hin as [Hin Hid]. apply Z.eqb_eq in Hid. split; assumption. }
  destruct Hrow as [Hin <-].
  assert (Hgo : forall punch_type, admits (String.eqb punch_type PUNCH_TYPES_IN) row ->
            lifecycle_step (w_db w)
              (w_db (snd (let (o, w') :=
                            (let! updated :=
                               processPunch env (a_attendance_id row) punch_type (mr_file req)
                                 (mr_userId req)
                                 (mkLocation (default "" (mr_latitude req))
                                    (default "" (mr_longitude req))
                                    (default "" (mr_address req)))
                                 (mkOptions (a_emp_id row) false None) in
                             ret (mkResponse 200
                                    (BodyManual
                                       ("Punch " ++ punch_type ++ " updated successfully")
                                       updated))) w in
                          match o with
                          | Return r => (r, w')
                          | Throw e => (error_response 500 (err_message e), w')
                          end)))).
  { intros punch_type Hadm.
    pose proof (processPunch_step env row punch_type (mr_file req) (mr_userId req)
                  (mkLocation (default "" (mr_latitude req)) (default "" (mr_longitude req))
                     (default "" (mr_address req)))
                  (mkOptions (a_emp_id row) false None) w Hin Hadm) as Hp.
    unfold bind.
    destruct (processPunch env (a_attendance_id row) punch_type (mr_file req)
                (mr_userId req) _ _ w) as [[rec | err] w2]; exact Hp. }
  destruct Hpt as [-> | ->]; simpl default; simpl String.eqb; cbn [andb].
  - destruct (a_punch_in_time row) as [t |] eqn:Ht; simpl Js.truthy_obj; cbv iota.
    + apply lifecycle_step_refl; reflexivity.
    + apply (Hgo PUNCH_TYPES_IN). exact Ht.
  - destruct (a_punch_out_time row) as [t |] eqn:Ht; simpl Js.truthy_obj; cbv iota.
    + apply lifecycle_step_refl; reflexivity.
    + destruct (a_punch_in_time row) as [t |] eqn:Hti; simpl Js.truthy_obj; simpl negb;
        cbv iota.
      * apply (Hgo PUNCH_TYPES_OUT). split; [rewrite Hti; discriminate | exact Ht].
      * apply lifecycle_step_refl; reflexivity.
Qed.

Lemma manual_route_respects_lifecycle_witness :
  let req := mkManualRequest (Some "1") (Some "OUT") (Some "18.52") (Some "73.85")
               (Some "Pune") (Some "5") (Some "photo") in
  let w' := snd (route_put Sample.env req afternoon) in
  lifecycle_sound (w_db w') /\
  table_advances (attendance (w_db afternoon)) (attendance (w_db w')).
Proof.
  apply (manual_route_respects_lifecycle Sample.env
           (mkManualRequest (Some "1") (Some "OUT") (Some "18.52") (Some "73.85")
              (Some "Pune") (Some "5") (Some "photo")) afternoon).
  - right. reflexivity.
  - apply afternoon_sound.
Defined.

(** ** The answer of a group capture *)

Section GroupAnswer.

Context {image : Type}.
Variable env : environment image.
Variables (buffer : image) (collectionId punchType : string) (matchThreshold : Q)
  (userId : option string) (locationPayload : location_data) (today : string)
  (imageWidth imageHeight : Z).

(** The entry of a face carries the number of the face. *)
Lemma process_face_index (faceIndex : Z) (faceDetail : face_detail)
    (processed processed' : gset Z) (entry : face_outcome) (w w' : world) :
  process_face env buffer collectionId punchType matchThreshold userId locationPayload
    today imageWidth imageHeight faceIndex faceDetail processed w
  = (Return (entry, processed'), w') ->
  fo_faceIndex entry = faceIndex.
Proof.
  unfold process_face.
  destruct (computeCropRegion _ imageWidth imageHeight) as [region |].
  2:{ intros [= <- _ _]. reflexivity. }
  intros H. apply bind_inv in H as (cropped & w1 & _ & H).
  destruct cropped as [faceImageBuffer |].
  2:{ injection H as <- _ _. reflexivity. }
  unfold try_catch in H.
  match type of H with
  | match ?body w1 with _ => _ end = _ => destruct (body w1) as [[r | err] w2] eqn:Hbody
  end.
  2:{ injection H as <- _ _. reflexivity. }
  injection H as -> ->.
  apply bind_inv in Hbody as (matches & w3 & _ & Hbody).
  destruct (head matches ≫= _) as [[bestMatch bestFace] |].
  2:{ injection Hbody as <- _ _. reflexivity. }
  apply bind_inv in Hbody as (employeeRecord & w4 & _ & Hbody).
  destruct employeeRecord as [emp |].
  2:{ injection Hbody as <- _ _. reflexivity. }
  destruct (bool_decide (ref_emp_id emp ∈ processed)).
  { injection Hbody as <- _ _. reflexivity. }
  apply bind_inv in Hbody as (attendance & w5 & _ & Hbody).
  destruct (validatePunchAttempt (Some attendance) punchType) as [validation |].
  { injection Hbody as <- _ _. reflexivity. }
  apply bind_inv in Hbody as (updated & w6 & _ & Hbody).
  injection Hbody as <- _ _. reflexivity.
Qed.

(** The loop numbers the entries it pushes from [faceIndex] on, in the
    order of the detected faces, and keeps the entries it was given. *)
Lemma group_loop_indices (faceDetails : list face_detail) :
  forall (faceIndex : Z) (processed : gset Z) (results final : list face_outcome)
         (w w' : world),
    group_loop env buffer collectionId punchType matchThreshold userId locationPayload
      today imageWidth imageHeight faceDetails faceIndex processed results w
    = (Return final, w') ->
    length final = (length results + length faceDetails)%nat /\
    forall (i : nat) (entry : face_outcome), final !! i = Some entry ->
      if (i <? length results)%nat then results !! i = Some entry
      else fo_faceIndex entry = faceIndex + Z.of_nat (i - length results).
Proof.
  induction faceDetails as [| faceDetail rest IH];
    intros faceIndex processed results final w w' Hrun; simpl in Hrun.
  - injection Hrun as <- _. split; [simpl; lia |]. intros i entry Hi.
    apply lookup_lt_Some in Hi as Hlt.
    destruct (Nat.ltb_spec i (length results)); [exact Hi | lia].
  - apply bind_inv in Hrun as ([entry0 processed'] & w1 & Hstep & Hrun).
    apply process_face_index in Hstep.
    apply IH in Hrun as [Hlen Hidx]. simpl in Hlen, Hidx.
    rewrite length_app in Hlen, Hidx. simpl in Hlen, Hidx.
    split; [simpl; lia |]. intros i entry Hi. specialize (Hidx i entry Hi).
    destruct (Nat.ltb_spec i (length results)) as [Hlt | Hge].
    + destruct (Nat.ltb_spec i (length results + 1)); [| lia].
      rewrite lookup_app_l in Hidx by exact Hlt. exact Hidx.
    + destruct (Nat.ltb_spec i (length results + 1)) as [Hlt1 | Hge1].
      * assert (i = length results) as -> by lia.
        rewrite lookup_app_r in Hidx by lia.
        rewrite Nat.sub_diag in Hidx. simpl in Hidx. injection Hidx as <-.
        rewrite Hstep. lia.
      * rewrite Hidx. lia.
Qed.

End GroupAnswer.

(** X18.  The answer of a group capture is consistent with its entries:
    there is one entry per detected face, in the order of detection and
    numbered from 1; the direction shown is IN or OUT, the one the route
    derived from the request; the total is the number of entries, the punch
    count is the number of punched entries, and the success flag says that
    this count is positive. *)
Theorem group_answer_consistent {image : Type} (env : environment image)
    (req : face_request) (w : world) success pt total count results :
  res_body (fst (route_face_attendance env req w))
  = BodyGroup success pt total count results ->
  (exists buffer, fr_file req = Some buffer /\
     exists faces, detectFaces env buffer = Return faces /\
       length results = length faces) /\
  results <> [] /\
  (forall (i : nat) (entry : face_outcome),
     results !! i = Some entry -> fo_faceIndex entry = Z.of_nat i + 1) /\
  pt = requested_direction req /\ (pt = PUNCH_TYPES_IN \/ pt = PUNCH_TYPES_OUT) /\
  total = Z.of_nat (length results) /\
  count = Z.of_nat (length (List.filter is_punched results)) /\
  success = (0 <? count).
Proof.
  intros Hbody.
  destruct (route_face_attendance_cases env req w)
    as [(Herr & _) | (buffer & collectionId & w1 & Hfile & _ & _ & Hrun)].
  { rewrite Hbody in Herr. discriminate. }
  destruct Hrun as [(r & Hr & Hfst) | (e & _ & Herr)];
    [| rewrite Hbody in Herr; discriminate].
  rewrite Hfst in Hbody. clear Hfst. unfold face_branch in Hr.
  destruct (group_mode_requested req).
  2:{ apply single_branch_body in Hr. rewrite Hbody in Hr. discriminate. }
  unfold group_branch in Hr.
  apply bind_inv in Hr as (faceDetails & w2 & Hdet & H).
  destruct faceDetails as [| fd fds].
  { injection H as <- _. discriminate Hbody. }
  apply bind_inv in H as ([[imageWidth |] [imageHeight |]] & w3 & _ & H);
    try (injection H as <- _; discriminate Hbody).
  destruct ((imageWidth =? 0) || (imageHeight =? 0)).
  { injection H as <- _. discriminate Hbody. }
  apply bind_inv in H as (now & w4 & _ & H).
  apply bind_inv in H as (final & w5 & Hloop & H).
  injection H as <- _. simpl in Hbody. injection Hbody as <- <- <- <- <-.
  apply group_loop_indices in Hloop as [Hlen Hidx]. simpl in Hlen.
  split.
  { exists buffer. split; [exact Hfile |]. exists (fd :: fds). split.
    - unfold call in Hdet. injection Hdet as -> _. reflexivity.
    - simpl. exact Hlen. }
  split; [intros ->; discriminate Hlen |].
  split.
  { intros i entry Hi. specialize (Hidx i entry Hi). simpl in Hidx.
    rewrite Hidx. lia. }
  split; [reflexivity |]. split; [apply requested_direction_cases |].
  split; [rewrite Hlen; reflexivity |]. split; reflexivity.
Qed.

Lemma group_answer_consistent_witness :
  exists success pt total count results,
    res_body (fst (route_face_attendance group_services group_request Sample.start))
    = BodyGroup success pt total count results /\
    length results = 3%nat /\ pt = "IN" /\ total = 3 /\ success = (0 <? count).
Proof.
  destruct (res_body (fst (route_face_attendance group_services group_request
                             Sample.start))) as [| | success pt total count results | ]
    eqn:Hbody; try (vm_compute in Hbody; discriminate).
  exists success, pt, total, count, results. split; [reflexivity |].
  destruct (group_answer_consistent group_services group_request Sample.start
              success pt total count results Hbody)
    as ((buffer & Hfile & faces & Hdet & Hlen) & _ & _ & Hpt & _ & Htotal & _ & Hsuccess).
  injection Hfile as <-. simpl in Hdet. injection Hdet as <-.
  split; [exact Hlen |]. split; [rewrite Hpt; reflexivity |].
  split; [rewrite Htotal, Hlen; reflexivity | exact Hsuccess].
Defined.

(** ** Object keys *)

Lemma strip_leading_slashes_no_slash (s : string) :
  Js.starts_with "/" (Js.strip_leading_slashes s) = false.
Proof.
  induction s as [| c r IH]; [reflexivity |].
  change (Js.strip_leading_slashes (String c r))
    with (if Ascii.eqb c "/" then Js.strip_leading_slashes r else String c r).
  destruct (Ascii.eqb c "/") eqn:E; [exact IH |].
  change (Js.starts_with "/" (String c r)) with (Ascii.eqb "/" c && true).
  rewrite Ascii.eqb_sym, E. reflexivity.
Qed.

Lemma strip_leading_slashes_fixed (s : string) :
  Js.starts_with "/" s = false -> Js.strip_leading_slashes s = s.
Proof.
  destruct s as [| c r]; [reflexivity |].
  change (Js.starts_with "/" (String c r)) with (Ascii.eqb "/" c && true).
  change (Js.strip_leading_slashes (String c r))
    with (if Ascii.eqb c "/" then Js.strip_leading_slashes r else String c r).
  rewrite Ascii.eqb_sym. destruct (Ascii.eqb c "/"); [discriminate | reflexivity].
Qed.

Lemma includes_strip_leading_slashes (p s : string) :
  Js.includes p s = false -> Js.includes p (Js.strip_leading_slashes s) = false.
Proof.
  induction s as [| c r IH]; [trivial |]. intros H.
  change (Js.strip_leading_slashes (String c r))
    with (if Ascii.eqb c "/" then Js.strip_leading_slashes r else String c r).
  destruct (Ascii.eqb c "/"); [| exact H].
  apply IH. simpl in H. apply orb_false_elim in H as [_ H]. exact H.
Qed.

Lemma strip_leading_slashes_suffix (s : string) :
  exists n, s = (String.concat "" (repeat "/" n) ++ Js.strip_leading_slashes s)%string.
Proof.
  induction s as [| c r (n & IH)]; [exists 0%nat; reflexivity |].
  change (Js.strip_leading_slashes (String c r))
    with (if Ascii.eqb c "/" then Js.strip_leading_slashes r else String c r).
  destruct (Ascii.eqb c "/") eqn:E.
  - apply Ascii.eqb_eq in E. subst c. exists (S n).
    assert (Hrep : forall k, String.concat "" (repeat "/" (S k))
                             = String "/" (String.concat "" (repeat "/" k))).
    { intros k. induction k as [| k IHk]; [reflexivity |].
      change (repeat "/" (S (S k))) with ("/" :: repeat "/" (S k)).
      change (String.concat "" ("/" :: repeat "/" (S k)))
        with ("/" ++ "" ++ String.concat "" (repeat "/" (S k)))%string.
      reflexivity. }
    rewrite Hrep.
    change (String "/" r
            = String "/" (String.concat "" (repeat "/" n) ++ Js.strip_leading_slashes r)).
    rewrite <- IH. reflexivity.
  - exists 0%nat. reflexivity.
Qed.

(** X19.  A reference that is no URL resolves to itself without its
    leading slashes: the key does not start with a slash, the reference is
    the key behind some slashes, and a key that is not empty resolves to
    itself. *)
Theorem resolveS3ObjectKey_plain {image : Type} (env : environment image)
    (reference key : string) :
  Js.includes "://" reference = false ->
  resolveS3ObjectKey env (Some reference) = Some key ->
  Js.starts_with "/" key = false /\
  (exists n, reference = (String.concat "" (repeat "/" n) ++ key)%string) /\
  (key <> "" -> resolveS3ObjectKey env (Some key) = Some key).
Proof.
  intros Hurl. unfold resolveS3ObjectKey.
  destruct (negb (Js.truthy_str (Some reference))); [discriminate |].
  cbv zeta. simpl default. rewrite Hurl. intros [= <-].
  split; [apply strip_leading_slashes_no_slash |].
  split; [apply strip_leading_slashes_suffix |].
  intros Hne. simpl Js.truthy_str.
  apply String.eqb_neq in Hne. rewrite Hne. simpl negb. cbv iota.
  rewrite includes_strip_leading_slashes by exact Hurl.
  rewrite strip_leading_slashes_fixed by apply strip_leading_slashes_no_slash.
  reflexivity.
Qed.

Lemma resolveS3ObjectKey_plain_witness :
  Js.starts_with "/" "faces/asha.jpg" = false /\
  (exists n, "//faces/asha.jpg"
             = (String.concat "" (repeat "/" n) ++ "faces/asha.jpg")%string) /\
  ("faces/asha.jpg" <> "" ->
   resolveS3ObjectKey Sample.env (Some "faces/asha.jpg") = Some "faces/asha.jpg").
Proof.
  apply (resolveS3ObjectKey_plain Sample.env "//faces/asha.jpg" "faces/asha.jpg");
    reflexivity.
Defined.

(** ** The date range of a report *)

Lemma aligned_order (a : string) :
  forall (b : string) (acc1 acc2 : Z),
    aligned a b = true ->
    (acc1 < acc2 -> digits_number a acc1 < digits_number b acc2) /\
    (acc2 < acc1 -> digits_number b acc2 < digits_number a acc1) /\
    (acc1 = acc2 ->
     String.compare a b = Z.compare (digits_number a acc1) (digits_number b acc2)).
Proof.
  induction a as [| c1 r1 IH]; intros [| c2 r2] acc1 acc2 Hal; try discriminate.
  - simpl. repeat split; try lia. intros ->. symmetry. apply Z.compare_refl.
  - simpl in Hal. apply andb_prop in Hal as [Hc Hr].
    apply orb_prop in Hc as [Hc | Hc]; apply andb_prop in Hc as [H1 H2].
    + simpl digits_number. rewrite H1, H2.
      assert (Hd : forall c, is_digit c = true ->
                     0 <= Z.of_N (N_of_ascii c) - 48 <= 9).
      { intros c Hc. unfold is_digit in Hc. cbv zeta in Hc.
        apply andb_prop in Hc as [Hlo Hhi].
        apply N.leb_le in Hlo, Hhi. lia. }
      pose proof (Hd c1 H1) as Hd1. pose proof (Hd c2 H2) as Hd2.
      set (d1 := Z.of_N (N_of_ascii c1) - 48) in *.
      set (d2 := Z.of_N (N_of_ascii c2) - 48) in *.
      destruct (IH r2 (10 * acc1 + d1) (10 * acc2 + d2) Hr) as (Hlt & Hgt & Heq).
      split; [intros; apply Hlt; lia |]. split; [intros; apply Hgt; lia |].
      intros ->. simpl String.compare. unfold Ascii.compare.
      destruct (N.compare_spec (N_of_ascii c1) (N_of_ascii c2)) as [E | E | E].
      * apply Heq. unfold d1, d2. rewrite E. reflexivity.
      * symmetry. apply Z.compare_lt_iff. apply Hlt. unfold d1, d2. lia.
      * symmetry. apply Z.compare_gt_iff. apply Hgt. unfold d1, d2. lia.
    + apply negb_true_iff in H1. apply Ascii.eqb_eq in H2. subst c2.
      simpl digits_number. rewrite H1.
      destruct (IH r2 acc1 acc2 Hr) as (Hlt & Hgt & Heq).
      split; [exact Hlt |]. split; [exact Hgt |].
      intros E. simpl String.compare. unfold Ascii.compare. rewrite N.compare_refl.
      apply Heq, E.
Qed.

Lemma iso_dates_aligned (a b : string) :
  ISO_DATE_PATTERN a = true -> ISO_DATE_PATTERN b = true -> aligned a b = true.
Proof.
  intros Ha Hb.
  destruct a as [| a1 [| a2 [| a3 [| a4 [| a5 [| a6 [| a7 [| a8 [| a9 [| a10 [| ? ?]]]]]]]]]]];
    try discriminate Ha.
  destruct b as [| b1 [| b2 [| b3 [| b4 [| b5 [| b6 [| b7 [| b8 [| b9 [| b10 [| ? ?]]]]]]]]]]];
    try discriminate Hb.
  unfold ISO_DATE_PATTERN in Ha, Hb.
  rewrite !andb_true_iff in Ha, Hb.
  destruct Ha as (((((((((? & ?) & ?) & ?) & ?) & ?) & ?) & ?) & ?) & ?).
  destruct Hb as (((((((((? & ?) & ?) & ?) & ?) & ?) & ?) & ?) & ?) & ?).
  repeat match goal with
         | H : Ascii.eqb _ _ = true |- _ => apply Ascii.eqb_eq in H; subst
         end.
  cbn [aligned].
  repeat match goal with
         | H : is_digit _ = true |- _ => rewrite H; clear H
         end.
  reflexivity.
Qed.

(** X20.  The range that [resolveDateRange] returns is always in order: its
    ends are the two normalised dates, the start is not behind the end in
    the order of texts, and when both ends have the ISO form the start is
    not later in the calendar than the end. *)
Theorem resolveDateRange_in_order (date_parse : string -> option string)
    (todayIso : string) (rawStart rawEnd : raw_date) :
  let range := resolveDateRange date_parse todayIso rawStart rawEnd in
  let s := normalizeInputDate date_parse rawStart todayIso in
  let e := normalizeInputDate date_parse rawEnd todayIso in
  String.leb (startDate range) (endDate range) = true /\
  (range = mkDateRange s e \/ range = mkDateRange e s) /\
  (ISO_DATE_PATTERN (startDate range) = true -> ISO_DATE_PATTERN (endDate range) = true ->
   calendar_number (startDate range) <= calendar_number (endDate range)).
Proof.
  cbv zeta.
  set (s := normalizeInputDate date_parse rawStart todayIso).
  set (e := normalizeInputDate date_parse rawEnd todayIso).
  assert (Hord : String.leb (startDate (resolveDateRange date_parse todayIso rawStart rawEnd))
                   (endDate (resolveDateRange date_parse todayIso rawStart rawEnd)) = true).
  { unfold resolveDateRange. fold s e.
    destruct (String.leb s e) eqn:Hle; simpl; [exact Hle |].
    destruct (String.leb_total s e) as [H | H]; [congruence | exact H]. }
  split; [exact Hord |]. split.
  { unfold resolveDateRange. fold s e. destruct (String.leb s e); [left | right]; reflexivity. }
  intros Hs He.
  destruct (aligned_order _ _ 0 0 (iso_dates_aligned _ _ Hs He)) as (_ & _ & Hcmp).
  specialize (Hcmp eq_refl). unfold String.leb in Hord. rewrite Hcmp in Hord.
  unfold calendar_number.
  destruct (Z.compare_spec (digits_number (startDate (resolveDateRange date_parse todayIso
                                                        rawStart rawEnd)) 0)
              (digits_number (endDate (resolveDateRange date_parse todayIso
                                         rawStart rawEnd)) 0));
    [lia | lia | discriminate Hord].
Qed.

Lemma resolveDateRange_in_order_witness :
  let range := resolveDateRange (fun _ => None) "2025-03-14" (RawText " 2025-03-20 ")
                 (RawText "2025-03-01") in
  range = mkDateRange "2025-03-01" "2025-03-20" /\
  calendar_number (startDate range) <= calendar_number (endDate range).
Proof.
  split; [reflexivity |].
  apply (resolveDateRange_in_order (fun _ => None) "2025-03-14" (RawText " 2025-03-20 ")
           (RawText "2025-03-01")); reflexivity.
Defined.

(** ** Objects used as maps *)

Section ObjectFacts.

Context {V : Type}.

Lemma insert_by_key_perm (p : Z * V) (l : list (Z * V)) :
  Permutation (JsObject.insert_by_key p l) (p :: l).
Proof.
  induction l as [| q r IH]; simpl; [reflexivity |].
  destruct (fst p <=? fst q); [reflexivity |].
  rewrite IH. apply perm_swap.
Qed.

Lemma sort_by_key_perm (l : list (Z * V)) : Permutation (JsObject.sort_by_key l) l.
Proof.
  induction l as [| p l IH]; simpl; [reflexivity |].
  rewrite insert_by_key_perm. constructor. exact IH.
Qed.

Lemma insert_by_key_sorted (p : Z * V) (l : list (Z * V)) :
  ForallOrdPairs (fun a b => fst a <= fst b) l ->
  ForallOrdPairs (fun a b => fst a <= fst b) (JsObject.insert_by_key p l).
Proof.
  induction 1 as [| q r Hq Hr IH]; simpl; [repeat constructor |].
  destruct (Z.leb_spec (fst p) (fst q)) as [Hle | Hgt].
  - constructor; [| constructor; assumption].
    constructor; [exact Hle |].
    eapply Forall_impl; [exact Hq |]. simpl. intros a Ha. lia.
  - constructor; [| exact IH].
    rewrite insert_by_key_perm. constructor; [lia | exact Hq].
Qed.

Lemma sort_by_key_sorted (l : list (Z * V)) :
  ForallOrdPairs (fun a b => fst a <= fst b) (JsObject.sort_by_key l).
Proof.
  induction l as [| p l IH]; simpl; [constructor |].
  apply insert_by_key_sorted, IH.
Qed.

Lemma filter_split_perm {A : Type} (f : A -> bool) (l : list A) :
  Permutation (List.filter f l ++ List.filter (fun a => negb (f a)) l) l.
Proof.
  induction l as [| a l IH]; simpl; [reflexivity |].
  destruct (f a); simpl.
  - constructor. exact IH.
  - rewrite <- Permutation_middle. constructor. exact IH.
Qed.

Lemma entries_perm (o : JsObject.t V) : Permutation (JsObject.entries o) o.
Proof.
  unfold JsObject.entries. rewrite sort_by_key_perm.
  apply (filter_split_perm (fun p => JsObject.is_index (fst p))).
Qed.

Lemma entries_of_indices (o : JsObject.t V) :
  Forall (fun p => JsObject.is_index (fst p) = true) o ->
  JsObject.entries o = JsObject.sort_by_key o.
Proof.
  intros Hall. unfold JsObject.entries.
  assert (List.filter (fun p => JsObject.is_index (fst p)) o = o) as ->.
  { induction Hall as [| p l Hp _ IH]; simpl; [reflexivity |]. rewrite Hp, IH. reflexivity. }
  assert (List.filter (fun p => negb (JsObject.is_index (fst p))) o = []) as ->.
  { induction Hall as [| p l Hp _ IH]; simpl; [reflexivity |]. rewrite Hp. exact IH. }
  apply app_nil_r.
Qed.

Lemma has_true (k : Z) (o : JsObject.t V) :
  JsObject.has k o = true <-> In k (map fst o).
Proof.
  unfold JsObject.has. rewrite existsb_exists, in_map_iff. split.
  - intros (p & Hp & E). apply Z.eqb_eq in E. exists p. split; assumption.
  - intros (p & E & Hp). exists p. split; [exact Hp | apply Z.eqb_eq, E].
Qed.

Lemma modify_keys (k : Z) (f : V -> V) (o : JsObject.t V) :
  map fst (JsObject.modify k f o) = map fst o.
Proof.
  unfold JsObject.modify. rewrite map_map. apply map_ext. intros p.
  destruct (fst p =? k); reflexivity.
Qed.

Lemma modify_In (k : Z) (f : V -> V) (o : JsObject.t V) (k' : Z) (v' : V) :
  In (k', v') (JsObject.modify k f o) ->
  exists v, In (k', v) o /\ v' = if k' =? k then f v else v.
Proof.
  unfold JsObject.modify. rewrite in_map_iff. intros ([k0 v0] & E & Hin). simpl in E.
  destruct (k0 =? k) eqn:Hk; injection E as <- <-; exists v0; rewrite Hk; split; trivial.
Qed.

End ObjectFacts.

Lemma sorted_strict (l : list Z) :
  ForallOrdPairs Z.le l -> NoDup l -> ForallOrdPairs Z.lt l.
Proof.
  induction 1 as [| a l Ha Hl IH]; intros Hnd; [constructor |].
  apply NoDup_cons in Hnd as [Hnot Hnd]. constructor; [| apply IH, Hnd].
  rewrite Forall_forall in Ha |- *. intros x Hx. specialize (Ha x Hx).
  assert (x <> a) by (intros ->; contradiction). lia.
Qed.

(** ** Employees of a report by ward *)

Section WardGroups.

Context {C E : Type}.
Variable employee_entry : C -> E.

Lemma rows_of_ward_snoc (k : Z) (l : list (report_row C)) (r : report_row C) :
  rows_of_ward k (l ++ [r])
  = (rows_of_ward k l ++ (if r_ward_id r =? k then [r] else []))%list.
Proof.
  unfold rows_of_ward. rewrite List.filter_app. simpl.
  destruct (r_ward_id r =? k); reflexivity.
Qed.

Lemma group_of_rows_id (k : Z) (l : list (report_row C)) (g : ward_group E) :
  group_of_rows employee_entry k l = Some g -> wg_ward_id g = k.
Proof.
  unfold group_of_rows. destruct (rows_of_ward k l); [discriminate |].
  intros [= <-]. reflexivity.
Qed.

Lemma group_of_rows_row (k : Z) (l : list (report_row C)) (g : ward_group E) :
  group_of_rows employee_entry k l = Some g -> exists r, In r l /\ r_ward_id r = k.
Proof.
  unfold group_of_rows. destruct (rows_of_ward k l) as [| first rest] eqn:Hrows;
    [discriminate |].
  intros _. exists first.
  assert (Hin : In first (rows_of_ward k l)) by (rewrite Hrows; left; reflexivity).
  apply filter_In in Hin as [Hin Hk]. apply Z.eqb_eq in Hk. split; assumption.
Qed.

Lemma group_of_rows_other (k : Z) (l : list (report_row C)) (r : report_row C) :
  r_ward_id r <> k ->
  group_of_rows employee_entry k (l ++ [r]) = group_of_rows employee_entry k l.
Proof.
  intros Hne. unfold group_of_rows. rewrite rows_of_ward_snoc.
  apply Z.eqb_neq in Hne. rewrite Hne, app_nil_r. reflexivity.
Qed.

Lemma group_of_rows_push (l : list (report_row C)) (r : report_row C) (g : ward_group E) :
  group_of_rows employee_entry (r_ward_id r) l = Some g ->
  group_of_rows employee_entry (r_ward_id r) (l ++ [r])
  = Some (mkWardGroup (wg_ward_id g) (wg_ward_name g) (wg_city g) (wg_zone g)
            (wg_employees g ++ [employee_entry (r_columns r)])).
Proof.
  unfold group_of_rows. rewrite rows_of_ward_snoc, Z.eqb_refl.
  destruct (rows_of_ward (r_ward_id r) l) as [| first rest]; [discriminate |].
  intros [= <-]. simpl. rewrite map_app. reflexivity.
Qed.

Lemma group_of_rows_first (l : list (report_row C)) (r : report_row C) :
  (forall r', In r' l -> r_ward_id r' <> r_ward_id r) ->
  group_of_rows employee_entry (r_ward_id r) (l ++ [r])
  = Some (mkWardGroup (r_ward_id r) (r_ward_name r) (r_city_name r) (r_zone_name r)
            [employee_entry (r_columns r)]).
Proof.
  intros Hnone. unfold group_of_rows. rewrite rows_of_ward_snoc, Z.eqb_refl.
  assert (rows_of_ward (r_ward_id r) l = []) as ->; [| reflexivity].
  unfold rows_of_ward. induction l as [| a l IH]; [reflexivity |]. simpl.
  assert (Ha : r_ward_id a <> r_ward_id r) by (apply Hnone; left; reflexivity).
  apply Z.eqb_neq in Ha. rewrite Ha. apply IH. intros r' Hr'. apply Hnone. right. exact Hr'.
Qed.

Lemma mapRowsToWards_step_ok (wardMap : JsObject.t (ward_group E))
    (done : list (report_row C)) (row : report_row C) :
  wardMap_ok employee_entry wardMap done ->
  wardMap_ok employee_entry (mapRowsToWards_step employee_entry wardMap row) (done ++ [row]).
Proof.
  intros (Hnd & Hgroups & Hrows). unfold mapRowsToWards_step. cbv zeta.
  destruct (JsObject.has (r_ward_id row) wardMap) eqn:Hhas; simpl negb; cbv iota.
  - apply has_true in Hhas. split; [| split].
    + rewrite modify_keys. exact Hnd.
    + intros k g' Hin. apply modify_In in Hin as (g & Hin & ->).
      specialize (Hgroups k g Hin).
      destruct (Z.eqb_spec k (r_ward_id row)) as [-> | Hne].
      * apply group_of_rows_push. exact Hgroups.
      * rewrite group_of_rows_other by congruence. exact Hgroups.
    + rewrite modify_keys. intros r Hr. apply in_app_or in Hr as [Hr | [<- | []]];
        [apply Hrows, Hr | exact Hhas].
  - assert (Hnot : ~ In (r_ward_id row) (map fst wardMap)).
    { intros Hin. apply has_true in Hin. congruence. }
    unfold JsObject.create. split; [| split].
    + rewrite modify_keys, map_app. simpl. apply NoDup_app. split; [exact Hnd |]. split.
      * intros x Hx Hx'. apply list_elem_of_In in Hx, Hx'.
        destruct Hx' as [<- | []]. contradiction.
      * apply NoDup_singleton.
    + intros k g' Hin. apply modify_In in Hin as (g & Hin & ->).
      apply in_app_or in Hin as [Hin | [[= <- <-] | []]].
      * assert (Hne : k <> r_ward_id row).
        { intros ->. apply Hnot. apply in_map_iff. exists (r_ward_id row, g).
          split; [reflexivity | exact Hin]. }
        apply Z.eqb_neq in Hne as Hne'. rewrite Hne'.
        rewrite group_of_rows_other by congruence. apply Hgroups, Hin.
      * rewrite Z.eqb_refl. simpl. apply group_of_rows_first.
        intros r' Hr' Heq. apply Hnot. rewrite <- Heq. apply Hrows, Hr'.
    + rewrite modify_keys, map_app. simpl. intros r Hr. apply in_or_app.
      apply in_app_or in Hr as [Hr | [<- | []]];
        [left; apply Hrows, Hr | right; left; reflexivity].
Qed.

Lemma mapRowsToWards_loop_ok (rows : list (report_row C)) :
  wardMap_ok employee_entry (fold_left (mapRowsToWards_step employee_entry) rows []) rows.
Proof.
  induction rows as [| row rows IH] using rev_ind.
  - split; [constructor |]. split; [intros k g [] | intros r []].
  - rewrite fold_left_app. simpl. apply mapRowsToWards_step_ok, IH.
Qed.

End WardGroups.

Lemma ordered_pairs_map {A B : Type} (f : A -> B) (R : B -> B -> Prop) (l : list A) :
  ForallOrdPairs (fun a b => R (f a) (f b)) l -> ForallOrdPairs R (map f l).
Proof.
  induction 1 as [| a l Ha Hl IH]; simpl; constructor; [| exact IH].
  apply Forall_map. exact Ha.
Qed.

(** X21.  [mapRowsToWards] groups the rows of a report by ward without
    losing or merging anything: the wards of the result are pairwise
    different; a group is in the result exactly when it is the group that
    the rows of its ward make (the ward columns of the first of them, and
    one entry per row in the order of the rows); every row has its ward in
    the result; and when the ward identities are array indices the result
    is in ascending order of ward. *)
Theorem mapRowsToWards_groups {C E : Type} (employee_entry : C -> E)
    (rows : list (report_row C)) :
  let result := mapRowsToWards employee_entry rows in
  NoDup (map wg_ward_id result) /\
  (forall g, In g result <-> group_of_rows employee_entry (wg_ward_id g) rows = Some g) /\
  (forall r, In r rows -> exists g, In g result /\ wg_ward_id g = r_ward_id r) /\
  (Forall (fun r => JsObject.is_index (r_ward_id r) = true) rows ->
   ForallOrdPairs Z.lt (map wg_ward_id result)).
Proof.
  cbv zeta. unfold mapRowsToWards, JsObject.values.
  set (wardMap := fold_left (mapRowsToWards_step employee_entry) rows []).
  destruct (mapRowsToWards_loop_ok employee_entry rows) as (Hnd & Hgroups & Hrows).
  fold wardMap in Hnd, Hgroups, Hrows.
  pose proof (entries_perm wardMap) as Hperm.
  assert (Hent : forall k g, In (k, g) (JsObject.entries wardMap) <-> In (k, g) wardMap).
  { intros k g. split; apply Permutation_in; [exact Hperm | symmetry; exact Hperm]. }
  assert (Hids : map wg_ward_id (map snd (JsObject.entries wardMap))
                 = map fst (JsObject.entries wardMap)).
  { rewrite map_map. apply map_ext_in. intros [k g] Hin. simpl.
    apply Hent in Hin. exact (group_of_rows_id employee_entry k rows g (Hgroups k g Hin)). }
  assert (Hkey : forall k, In k (map fst wardMap) ->
                   exists g, In (k, g) wardMap).
  { intros k Hk. apply in_map_iff in Hk as ([k' g] & <- & Hin). exists g. exact Hin. }
  split; [| split; [| split]].
  - rewrite Hids, (Permutation_map fst Hperm). exact Hnd.
  - intros g. split.
    + intros Hin. apply in_map_iff in Hin as ([k g'] & <- & Hin). simpl.
      apply Hent in Hin. pose proof (Hgroups k g' Hin) as Hg.
      rewrite (group_of_rows_id employee_entry k rows g' Hg). exact Hg.
    + intros Hg.
      destruct (group_of_rows_row employee_entry _ _ _ Hg) as (r & Hr & Hk).
      destruct (Hkey _ (Hrows r Hr)) as (g' & Hin).
      rewrite Hk in Hin. pose proof (Hgroups _ _ Hin) as Hg'.
      rewrite Hg in Hg'. injection Hg' as <-.
      apply in_map_iff. exists (wg_ward_id g, g). split; [reflexivity |].
      apply Hent. exact Hin.
  - intros r Hr. destruct (Hkey _ (Hrows r Hr)) as (g & Hin).
    exists g. split.
    + apply in_map_iff. exists (r_ward_id r, g). split; [reflexivity |]. apply Hent, Hin.
    + exact (group_of_rows_id employee_entry _ rows g (Hgroups _ _ Hin)).
  - intros Hidx. rewrite Hids.
    assert (Hall : Forall (fun p => JsObject.is_index (fst p) = true) wardMap).
    { apply List.Forall_forall. intros [k g] Hin. simpl.
      destruct (group_of_rows_row employee_entry _ _ _ (Hgroups k g Hin)) as (r & Hr & <-).
      rewrite List.Forall_forall in Hidx. exact (Hidx r Hr). }
    apply sorted_strict.
    + rewrite (entries_of_indices wardMap Hall). apply ordered_pairs_map.
      apply sort_by_key_sorted.
    + rewrite (Permutation_map fst Hperm). exact Hnd.
Qed.

Lemma mapRowsToWards_groups_witness :
  let rows := [mkReportRow 7 (Some "Ward G") (Some "Pune") (Some "East") 1;
               mkReportRow 3 (Some "Ward C") (Some "Pune") (Some "West") 2;
               mkReportRow 7 (Some "Ward G") (Some "Pune") (Some "East") 3] in
  map wg_employees (mapRowsToWards (fun c : Z => c) rows) = [[2]; [1; 3]] /\
  ForallOrdPairs Z.lt (map wg_ward_id (mapRowsToWards (fun c : Z => c) rows)).
Proof.
  split; [reflexivity |].
  apply (mapRowsToWards_groups (fun c : Z => c)
           [mkReportRow 7 (Some "Ward G") (Some "Pune") (Some "East") 1;
            mkReportRow 3 (Some "Ward C") (Some "Pune") (Some "West") 2;
            mkReportRow 7 (Some "Ward G") (Some "Pune") (Some "East") 3]).
  repeat constructor.
Defined.

(** ** Grouping loops *)

Section Grouping.

Context {R V : Type}.
Variables (key : R -> Z) (fresh : R -> V) (add : R -> V -> V).

Lemma filter_key_snoc (k : Z) (l : list R) (r : R) :
  List.filter (fun x => key x =? k) (l ++ [r])
  = (List.filter (fun x => key x =? k) l ++ (if key r =? k then [r] else []))%list.
Proof. rewrite List.filter_app. simpl. destruct (key r =? k); reflexivity. Qed.

Lemma grouped_value_row (k : Z) (l : list R) (v : V) :
  grouped_value key fresh add k l = Some v -> exists r, In r l /\ key r = k.
Proof.
  unfold grouped_value.
  destruct (List.filter (fun r => key r =? k) l) as [| first rest] eqn:Hrows;
    [discriminate |].
  intros _. exists first.
  assert (Hin : In first (List.filter (fun r => key r =? k) l))
    by (rewrite Hrows; left; reflexivity).
  apply filter_In in Hin as [Hin Hk]. apply Z.eqb_eq in Hk. split; assumption.
Qed.

Lemma grouped_value_other (k : Z) (l : list R) (r : R) :
  key r <> k ->
  grouped_value key fresh add k (l ++ [r]) = grouped_value key fresh add k l.
Proof.
  intros Hne. unfold grouped_value. rewrite filter_key_snoc.
  apply Z.eqb_neq in Hne. rewrite Hne, app_nil_r. reflexivity.
Qed.

Lemma grouped_value_push (l : list R) (r : R) (v : V) :
  grouped_value key fresh add (key r) l = Some v ->
  grouped_value key fresh add (key r) (l ++ [r]) = Some (add r v).
Proof.
  unfold grouped_value. rewrite filter_key_snoc, Z.eqb_refl.
  destruct (List.filter (fun x => key x =? key r) l) as [| first rest]; [discriminate |].
  intros [= <-]. simpl. rewrite fold_left_app. reflexivity.
Qed.

Lemma grouped_value_first (l : list R) (r : R) :
  (forall r', In r' l -> key r' <> key r) ->
  grouped_value key fresh add (key r) (l ++ [r]) = Some (add r (fresh r)).
Proof.
  intros Hnone. unfold grouped_value. rewrite filter_key_snoc, Z.eqb_refl.
  assert (List.filter (fun x => key x =? key r) l = []) as ->; [| reflexivity].
  induction l as [| a l IH]; [reflexivity |]. simpl.
  assert (Ha : key a <> key r) by (apply Hnone; left; reflexivity).
  apply Z.eqb_neq in Ha. rewrite Ha. apply IH. intros r' Hr'. apply Hnone. right. exact Hr'.
Qed.

(** A grouping loop fills the object with one property per key of the
    rows, holding the value that the rows of the key build. *)
Lemma group_loop_ok (rows : list R) :
  let o := fold_left (group_step key fresh add) rows [] in
  NoDup (map fst o) /\
  (forall k v, In (k, v) o <-> grouped_value key fresh add k rows = Some v).
Proof.
  cbv zeta.
  assert (H : NoDup (map fst (fold_left (group_step key fresh add) rows [])) /\
              (forall k v, In (k, v) (fold_left (group_step key fresh add) rows []) ->
                           grouped_value key fresh add k rows = Some v) /\
              (forall r, In r rows ->
                         In (key r) (map fst (fold_left (group_step key fresh add) rows [])))).
  { induction rows as [| row rows IH] using rev_ind.
    - split; [constructor |]. split; [intros k v [] | intros r []].
    - rewrite fold_left_app. simpl.
      set (o := fold_left (group_step key fresh add) rows []) in *.
      destruct IH as (Hnd & Hvals & Hrows). unfold group_step.
      destruct (JsObject.has (key row) o) eqn:Hhas; simpl negb; cbv iota.
      + apply has_true in Hhas. split; [| split].
        * rewrite modify_keys. exact Hnd.
        * intros k v' Hin. apply modify_In in Hin as (v & Hin & ->).
          specialize (Hvals k v Hin).
          destruct (Z.eqb_spec k (key row)) as [-> | Hne].
          -- apply grouped_value_push. exact Hvals.
          -- rewrite grouped_value_other by congruence. exact Hvals.
        * rewrite modify_keys. intros r Hr. apply in_app_or in Hr as [Hr | [<- | []]];
            [apply Hrows, Hr | exact Hhas].
      + assert (Hnot : ~ In (key row) (map fst o)).
        { intros Hin. apply has_true in Hin. congruence. }
        unfold JsObject.create. split; [| split].
        * rewrite modify_keys, map_app. simpl. apply NoDup_app. split; [exact Hnd |]. split.
          -- intros x Hx Hx'. apply list_elem_of_In in Hx, Hx'.
             destruct Hx' as [<- | []]. contradiction.
          -- apply NoDup_singleton.
        * intros k v' Hin. apply modify_In in Hin as (v & Hin & ->).
          apply in_app_or in Hin as [Hin | [[= <- <-] | []]].
          -- assert (Hne : k <> key row).
             { intros ->. apply Hnot. apply in_map_iff. exists (key row, v).
               split; [reflexivity | exact Hin]. }
             apply Z.eqb_neq in Hne as Hne'. rewrite Hne'.
             rewrite grouped_value_other by congruence. apply Hvals, Hin.
          -- rewrite Z.eqb_refl. apply grouped_value_first.
             intros r' Hr' Heq. apply Hnot. rewrite <- Heq. apply Hrows, Hr'.
        * rewrite modify_keys, map_app. simpl. intros r Hr. apply in_or_app.
          apply in_app_or in Hr as [Hr | [<- | []]];
            [left; apply Hrows, Hr | right; left; reflexivity]. }
  destruct H as (Hnd & Hvals & Hrows). split; [exact Hnd |].
  intros k v. split; [apply Hvals |]. intros Hv.
  destruct (grouped_value_row k rows v Hv) as (r & Hr & <-).
  specialize (Hrows r Hr). apply in_map_iff in Hrows as ([k' v'] & Hk & Hin).
  simpl in Hk. subst k'. pose proof (Hvals _ _ Hin) as Hv'.
  rewrite Hv in Hv'. injection Hv' as <-. exact Hin.
Qed.

End Grouping.

(** ** Wards by city and zone *)

Lemma modify_modify {V : Type} (k : Z) (f1 f2 : V -> V) (o : JsObject.t V) :
  JsObject.modify k f2 (JsObject.modify k f1 o) = JsObject.modify k (fun v => f2 (f1 v)) o.
Proof.
  unfold JsObject.modify. rewrite map_map. apply map_ext. intros [k' v]. simpl.
  destruct (k' =? k) eqn:E; simpl; rewrite E; reflexivity.
Qed.

Lemma modify_ext {V : Type} (k : Z) (f g : V -> V) (o : JsObject.t V) :
  (forall v, f v = g v) -> JsObject.modify k f o = JsObject.modify k g o.
Proof.
  intros H. unfold JsObject.modify. apply map_ext. intros [k' v]. simpl.
  rewrite H. reflexivity.
Qed.

Lemma fold_left_ext {A B : Type} (f g : A -> B -> A) (l : list B) (a : A) :
  (forall x y, f x y = g x y) -> fold_left f l a = fold_left g l a.
Proof.
  intros H. revert a. induction l as [| b l IH]; intros a; simpl; [reflexivity |].
  rewrite H. apply IH.
Qed.

(** The loop of the handler is a grouping by city whose values group by
    zone. *)
Lemma groupedData_step_shape (groupedData : JsObject.t city_object) (row : ward_location) :
  groupedData_step groupedData row
  = group_step wl_city_id fresh_city add_to_city groupedData row.
Proof.
  unfold groupedData_step, group_step. cbv zeta. rewrite modify_modify.
  apply modify_ext. intros c. unfold add_to_city, group_step.
  destruct (JsObject.has (wl_zone_id row) (co_zones c)); reflexivity.
Qed.

Lemma fold_add_to_city (l : list ward_location) :
  forall c0 : city_object,
    let c := fold_left (fun c r => add_to_city r c) l c0 in
    co_cityId c = co_cityId c0 /\ co_city c = co_city c0 /\
    co_zones c = fold_left (group_step wl_zone_id fresh_zone add_to_zone) l (co_zones c0).
Proof.
  induction l as [| r l IH]; intros c0; simpl; [repeat split |].
  destruct (IH (add_to_city r c0)) as (Hid & Hname & Hzones).
  rewrite Hid, Hname, Hzones. repeat split.
Qed.

Lemma fold_add_to_zone (l : list ward_location) :
  forall z0 : zone_entry,
    fold_left (fun z r => add_to_zone r z) l z0
    = mkZoneEntry (zoneId z0) (zone z0) (wards_of_zone z0 ++ map ward_of_row l).
Proof.
  induction l as [| r l IH]; intros z0; simpl.
  - rewrite app_nil_r. destruct z0; reflexivity.
  - rewrite IH. simpl. rewrite <- app_assoc. reflexivity.
Qed.

Lemma filter_zone_of_city (k kz : Z) (rows : list ward_location) :
  List.filter (fun r => wl_zone_id r =? kz) (List.filter (fun r => wl_city_id r =? k) rows)
  = rows_of_zone k kz rows.
Proof.
  unfold rows_of_zone. induction rows as [| r rows IH]; simpl; [reflexivity |].
  destruct (wl_city_id r =? k); simpl; [| exact IH].
  destruct (wl_zone_id r =? kz); simpl; rewrite IH; reflexivity.
Qed.

Lemma grouped_value_some {R V : Type} (key : R -> Z) (fresh : R -> V) (add : R -> V -> V)
    (rows : list R) (r : R) :
  In r rows -> exists v, grouped_value key fresh add (key r) rows = Some v.
Proof.
  intros Hr. unfold grouped_value.
  destruct (List.filter (fun x => key x =? key r) rows) as [| first rest] eqn:Hf.
  - exfalso. assert (Hin : In r (List.filter (fun x => key x =? key r) rows))
      by (apply filter_In; split; [exact Hr | apply Z.eqb_refl]).
    rewrite Hf in Hin. destruct Hin.
  - eexists. reflexivity.
Qed.

Lemma city_value (k : Z) (rows : list ward_location) (c : city_object) :
  grouped_value wl_city_id fresh_city add_to_city k rows = Some c ->
  co_cityId c = k /\
  (exists first, head (List.filter (fun r => wl_city_id r =? k) rows) = Some first /\
                 co_city c = wl_city_name first) /\
  co_zones c
  = fold_left (group_step wl_zone_id fresh_zone add_to_zone)
      (List.filter (fun r => wl_city_id r =? k) rows) [].
Proof.
  unfold grouped_value.
  destruct (List.filter (fun r => wl_city_id r =? k) rows) as [| first rest] eqn:Hf;
    [discriminate |].
  intros [= <-].
  destruct (fold_add_to_city (first :: rest) (fresh_city first)) as (Hid & Hname & Hzones).
  cbv zeta in Hid, Hname, Hzones.
  assert (Hin : In first (List.filter (fun r => wl_city_id r =? k) rows))
    by (rewrite Hf; left; reflexivity).
  apply filter_In in Hin as [_ Hk]. apply Z.eqb_eq in Hk.
  split; [exact (eq_trans Hid Hk) |]. split; [| exact Hzones].
  exists first. split; [reflexivity | exact Hname].
Qed.

Lemma zone_value (kz : Z) (l : list ward_location) (z : zone_entry) :
  grouped_value wl_zone_id fresh_zone add_to_zone kz l = Some z ->
  exists first rest,
    List.filter (fun r => wl_zone_id r =? kz) l = first :: rest /\
    z = mkZoneEntry kz (wl_zone_name first) (map ward_of_row (first :: rest)).
Proof.
  unfold grouped_value.
  destruct (List.filter (fun r => wl_zone_id r =? kz) l) as [| first rest] eqn:Hf;
    [discriminate |].
  intros [= <-]. exists first, rest. split; [reflexivity |].
  rewrite fold_add_to_zone.
  assert (Hin : In first (List.filter (fun r => wl_zone_id r =? kz) l))
    by (rewrite Hf; left; reflexivity).
  apply filter_In in Hin as [_ Hk]. apply Z.eqb_eq in Hk.
  simpl. rewrite Hk. reflexivity.
Qed.

Lemma values_In {V : Type} (o : JsObject.t V) (v : V) :
  In v (JsObject.values o) <-> exists k, In (k, v) o.
Proof.
  unfold JsObject.values. rewrite in_map_iff. split.
  - intros ([k v'] & <- & Hin). exists k.
    eapply Permutation_in; [apply entries_perm | exact Hin].
  - intros (k & Hin). exists (k, v). split; [reflexivity |].
    eapply Permutation_in; [symmetry; apply entries_perm | exact Hin].
Qed.

Lemma values_NoDup {V : Type} (f : V -> Z) (o : JsObject.t V) :
  (forall k v, In (k, v) o -> f v = k) -> NoDup (map fst o) ->
  NoDup (map f (JsObject.values o)).
Proof.
  intros Hf Hnd. unfold JsObject.values.
  assert (map f (map snd (JsObject.entries o)) = map fst (JsObject.entries o)) as ->.
  { rewrite map_map. apply map_ext_in. intros [k v] Hin. simpl. apply Hf.
    eapply Permutation_in; [apply entries_perm | exact Hin]. }
  rewrite (Permutation_map fst (entries_perm o)). exact Hnd.
Qed.

(** X22.  The answer of the wards route lists every ward of the query once,
    under its city and zone: cities are pairwise different and so are the
    zones of a city; a city carries the name of its first row; a zone of a
    city carries the name of the first row of that city and zone and lists
    exactly the wards of the rows of that city and zone, in the order of the
    rows; and every row has its city and zone in the answer. *)
Theorem wards_by_city_and_zone (rows : list ward_location) :
  let result := responseData rows in
  NoDup (map cityId result) /\
  (forall c, In c result ->
     NoDup (map zoneId (zones c)) /\
     exists first, head (List.filter (fun r => wl_city_id r =? cityId c) rows) = Some first /\
                   city c = wl_city_name first) /\
  (forall c z, In c result -> In z (zones c) ->
     exists first rest,
       rows_of_zone (cityId c) (zoneId z) rows = first :: rest /\
       zone z = wl_zone_name first /\
       wards_of_zone z = map ward_of_row (first :: rest)) /\
  (forall r, In r rows ->
     exists c z, In c result /\ cityId c = wl_city_id r /\
                 In z (zones c) /\ zoneId z = wl_zone_id r).
Proof.
  cbv zeta. unfold responseData.
  rewrite (fold_left_ext groupedData_step
             (group_step wl_city_id fresh_city add_to_city) rows []
             groupedData_step_shape).
  destruct (group_loop_ok wl_city_id fresh_city add_to_city rows) as (Hnd & Hvals).
  cbv zeta in Hnd, Hvals.
  set (o := fold_left (group_step wl_city_id fresh_city add_to_city) rows []) in *.
  assert (Hzones : forall k c, In (k, c) o ->
            NoDup (map fst (co_zones c)) /\
            forall kz z, In (kz, z) (co_zones c) <->
              grouped_value wl_zone_id fresh_zone add_to_zone kz
                (List.filter (fun r => wl_city_id r =? k) rows) = Some z).
  { intros k c Hin. apply Hvals in Hin.
    destruct (city_value k rows c Hin) as (_ & _ & ->).
    apply (group_loop_ok wl_zone_id fresh_zone add_to_zone). }
  assert (Hzid : forall k c kz z, In (k, c) o -> In (kz, z) (co_zones c) -> zoneId z = kz).
  { intros k c kz z Hc Hz. apply (Hzones k c Hc) in Hz.
    destruct (zone_value _ _ _ Hz) as (first & rest & _ & ->). reflexivity. }
  split; [| split; [| split]].
  - rewrite map_map. simpl.
    apply (values_NoDup co_cityId o); [| exact Hnd].
    intros k c Hin. apply Hvals in Hin. apply (city_value k rows c Hin).
  - intros c Hc. apply in_map_iff in Hc as (co & <- & Hco). simpl.
    apply values_In in Hco as (k & Hin).
    pose proof (proj1 (Hvals k co) Hin) as Hv.
    destruct (city_value k rows co Hv) as (Hid & Hname & _). split.
    + apply values_NoDup; [| apply (Hzones k co Hin)].
      intros kz z Hz. exact (Hzid k co kz z Hin Hz).
    + rewrite Hid. exact Hname.
  - intros c z Hc Hz. apply in_map_iff in Hc as (co & <- & Hco). simpl in Hz |- *.
    apply values_In in Hco as (k & Hin). apply values_In in Hz as (kz & Hz).
    pose proof (proj1 (Hvals k co) Hin) as Hv.
    destruct (city_value k rows co Hv) as (Hid & _ & _).
    apply (Hzones k co Hin) in Hz.
    destruct (zone_value _ _ _ Hz) as (first & rest & Hf & ->). simpl.
    rewrite filter_zone_of_city in Hf. rewrite Hid.
    exists first, rest. repeat split. exact Hf.
  - intros r Hr.
    destruct (grouped_value_some wl_city_id fresh_city add_to_city rows r Hr) as (co & Hv).
    pose proof (proj2 (Hvals _ co) Hv) as Hin.
    destruct (city_value _ rows co Hv) as (Hid & _ & _).
    assert (Hrc : In r (List.filter (fun x => wl_city_id x =? wl_city_id r) rows))
      by (apply filter_In; split; [exact Hr | apply Z.eqb_refl]).
    destruct (grouped_value_some wl_zone_id fresh_zone add_to_zone _ r Hrc) as (z & Hz).
    pose proof (proj2 (proj2 (Hzones _ co Hin) _ z) Hz) as Hzin.
    exists (mkCityEntry (co_cityId co) (co_city co) (JsObject.values (co_zones co))), z.
    split; [| split; [| split]].
    + apply in_map_iff. exists co. split; [reflexivity |]. apply values_In. eauto.
    + exact Hid.
    + simpl. apply values_In. eauto.
    + exact (Hzid _ co _ z Hin Hzin).
Qed.

Lemma wards_by_city_and_zone_witness :
  let rows := [mkWardLocation 11 (Some "Ward A") 4 (Some "East") 1 (Some "Pune");
               mkWardLocation 12 (Some "Ward B") 5 (Some "West") 1 (Some "Pune");
               mkWardLocation 13 (Some "Ward C") 4 (Some "East") 1 (Some "Pune")] in
  exists c z, In c (responseData rows) /\ cityId c = 1 /\ In z (zones c) /\ zoneId z = 4.
Proof.
  destruct (wards_by_city_and_zone
              [mkWardLocation 11 (Some "Ward A") 4 (Some "East") 1 (Some "Pune");
               mkWardLocation 12 (Some "Ward B") 5 (Some "West") 1 (Some "Pune");
               mkWardLocation 13 (Some "Ward C") 4 (Some "East") 1 (Some "Pune")])
    as (_ & _ & _ & H).
  apply (H (mkWardLocation 13 (Some "Ward C") 4 (Some "East") 1 (Some "Pune"))).
  right. right. left. reflexivity.
Defined.

(** ** The summary of a supervisor's wards *)







